(** * Evidence pipeline of the lab-notebook workers

    A shallow embedding of [rag_worker.py] (planning, retrieval, answer
    generation) and of [embed_worker.py] (the bounded request queue, the
    processing of a batch, the embedding of chunks and tables), with the
    properties the specification states about them.

    Conventions:
    - a Python [dict] with a fixed set of string keys is a record whose
      fields are options; [d['k']] on a missing key raises [KeyError],
      [d.get('k')] yields [None];
    - Python exceptions are the [Raise] results of an error monad;
      coroutines that touch the worker or the dicts handed to it are
      state transformers;
    - dicts that are mutated in place live in a store and are referred
      to by location;
    - a Python [float] is an IEEE 754 binary64 number, the kernel's
      [float]: sums, quotients and comparisons of scores round and
      compare as Python's do, and a literal such as [0.85] is the
      binary64 number nearest to it;
    - an embedding vector, which the workers only pass around and
      measure with [len], is a list of rationals;
    - a Python [int] is a [Z], [len] is a [nat];
    - a [str] is a [string], one [ascii] per character. *)

From Stdlib Require Import QArith ZArith List Lia Ascii Permutation Sorted Floats Uint63.
From stdpp Require Import base option list sorting strings gmap pretty.

Set Warnings "-inexact-float".


(** ** Python values and exceptions *)

Module Py.

Inductive exn : Type :=
| KeyError (key : string)
| IndexError
| ProviderError (msg : string).

Inductive result (A : Type) : Type :=
| Ok (a : A)
| Raise (e : exn).

Arguments Ok {A} a.
Arguments Raise {A} e.

Definition bind {A B : Type} (m : result A) (k : A -> result B) : result B :=
  match m with
  | Ok a => k a
  | Raise e => Raise e
  end.

(** [d['k']]: the value under a key that must be there. *)
Definition item {A : Type} (key : string) (field : option A) : result A :=
  match field with
  | Some a => Ok a
  | None => Raise (KeyError key)
  end.

(** A comprehension or [for] loop whose body may raise: the first
    exception aborts the loop. *)
Fixpoint for_each {A B : Type} (f : A -> result B) (l : list A) : result (list B) :=
  match l with
  | [] => Ok []
  | x :: l' =>
      bind (f x) (fun y => bind (for_each f l') (fun ys => Ok (y :: ys)))
  end.

(** [l[:n]] for a list; a negative [n] counts from the end. *)
Definition slice_to {A : Type} (n : Z) (l : list A) : list A :=
  if (0 <=? n)%Z then firstn (Z.to_nat n) l
  else firstn (Z.to_nat (Z.of_nat (length l) + n)) l.

(** [s[:n]] for a string and a literal [n >= 0]. *)
Definition str_slice_to (n : nat) (s : string) : string := String.substring 0 n s.

(** [float(n)] for a length [n], as the division of a float by
    [len(...)] converts it (lengths are far below [2^63]). *)
Definition float_of_len (n : nat) : float := of_uint63 (Uint63.of_Z (Z.of_nat n)).

(** [min(a, b)]: Python returns [b] only when [b < a]. *)
Definition min (a b : float) : float := if (b <? a)%float then b else a.

(** [sum(xs)] of floats: from the integer [0], which the first
    addition converts to [0.0], one float addition per item, left to
    right. This is the summation of CPython up to version 3.11; from
    3.12 on [sum] also carries the rounding errors of the partial sums
    along, which can change the last digit of a sum of three or more
    floats. *)
Definition sum (xs : list float) : float := fold_left PrimFloat.add xs 0%float.

(** [list.sort(key=..., reverse=True)] on items already paired with
    their keys: descending by key, and stable (items with equal keys keep
    their order), as Python guarantees also under [reverse=True]. Keys
    are compared with [<] only. The order Python leaves a list in when a
    key is [nan] depends on the runs its merge sort finds, and is not
    what this insertion gives: the facts below that speak of order are
    about keys that are numbers. *)
Fixpoint insert_desc {A : Type} (x : float * A) (l : list (float * A))
  : list (float * A) :=
  match l with
  | [] => [x]
  | y :: l' =>
      if (fst x <? fst y)%float then y :: insert_desc x l' else x :: y :: l'
  end.

Definition sort_desc {A : Type} (l : list (float * A)) : list (float * A) :=
  fold_right insert_desc [] l.

(** The whole [l.sort(key=key, reverse=True)]: every key is computed
    first (a key that raises aborts the sort), then the items are
    ordered. *)
Definition sort_reverse {A : Type} (key : A -> result float) (l : list A)
  : result (list A) :=
  bind (for_each (fun x => bind (key x) (fun k => Ok (k, x))) l)
       (fun keyed => Ok (map snd (sort_desc keyed))).

End Py.

Import Py.

Notation "x <- m ;; k" := (Py.bind m (fun x => k))
  (at level 100, m at next level, right associativity, only parsing).

(** ** The RAG worker ([rag_worker.py]) *)

Module RAG.

(** An evidence dict. The worker reads ['type'], ['content'],
    ['document_id'], ['score'], ['chunk_id'] and ['table_id'] with
    [ev[...]] and ['page'] and ['title'] with [ev.get(...)]. *)
Record Evidence : Type := {
  ev_type : option string;
  ev_content : option string;
  ev_document_id : option string;
  ev_chunk_id : option string;
  ev_table_id : option string;
  ev_page : option Z;
  ev_score : option float;
  ev_source : option string;
  ev_title : option string
}.

(** A plan dict. [plan_answer] builds one with these five keys; the
    worker reads ['max_evidence'] and ['approach'] with [plan[...]] from
    whatever dict it is handed. *)
Record Plan : Type := {
  approach : option string;
  evidence_types : option (list string);
  max_evidence : option Z;
  citation_strategy : option string;
  confidence_threshold : option float
}.

(** A citation dict; ['chunk_id'] and ['table_id'] are set only for
    the matching evidence type. *)
Record Citation : Type := {
  c_type : string;
  c_document_id : string;
  c_page : option Z;
  c_snippet : string;
  c_score : float;
  c_chunk_id : option string;
  c_table_id : option string
}.

(** The ['reasoning'] dict: the insufficient-evidence answer has only
    the first two keys. [list(set(...))] has no fixed order, so the
    evidence types are kept as a set. *)
Record Reasoning : Type := {
  r_approach : string;
  r_evidence_count : nat;
  r_evidence_types : option (gset string);
  r_avg_evidence_score : option float
}.

Record Answer : Type := {
  text : string;
  confidence : float;
  citations : list Citation;
  reasoning : Reasoning
}.

Definition plan_answer (question workspace_id : string) : Plan :=
  {| approach := Some "hybrid_retrieval";
     evidence_types := Some ["text_chunks"; "tables"; "figures"];
     max_evidence := Some 5%Z;
     citation_strategy := Some "evidence_gating";
     confidence_threshold := Some 0.7%float |}.

(** The mock pool of [retrieve_evidence]. *)
Definition text_evidence : list Evidence :=
  [ {| ev_type := Some "text_chunk";
       ev_content := Some "Sample text evidence that might be relevant to the question.";
       ev_document_id := Some "doc-1";
       ev_chunk_id := Some "chunk-1";
       ev_table_id := None;
       ev_page := Some 1%Z;
       ev_score := Some 0.85%float;
       ev_source := Some "abstract";
       ev_title := None |};
    {| ev_type := Some "text_chunk";
       ev_content := Some "Another piece of evidence from the methods section.";
       ev_document_id := Some "doc-1";
       ev_chunk_id := Some "chunk-2";
       ev_table_id := None;
       ev_page := Some 3%Z;
       ev_score := Some 0.72%float;
       ev_source := Some "methods";
       ev_title := None |} ].

Definition table_evidence : list Evidence :=
  [ {| ev_type := Some "table";
       ev_content := Some "Sample table data";
       ev_document_id := Some "doc-1";
       ev_chunk_id := None;
       ev_table_id := Some "table-1";
       ev_page := Some 5%Z;
       ev_score := Some 0.68%float;
       ev_source := None;
       ev_title := Some "Experimental Results" |} ].

(** Lines 138-142 of [retrieve_evidence]: sort the pool by score,
    best first, then keep the first [plan['max_evidence']] items. *)
Definition rank_evidence (pool : list Evidence) (plan : Plan) : result (list Evidence) :=
  sorted <- sort_reverse (fun x => item "score" (ev_score x)) pool ;;
  limit <- item "max_evidence" (max_evidence plan) ;;
  Ok (slice_to limit sorted).

Definition retrieve_evidence (question workspace_id : string) (plan : Plan)
  : result (list Evidence) :=
  rank_evidence (text_evidence ++ table_evidence) plan.

(** The ['snippet'] of a citation. *)
Definition snippet (content : string) : string :=
  if (200 <? String.length content)%nat
  then str_slice_to 200 content +:+ "..."
  else content.

(** [citation['chunk_id'] = ...] and [citation['table_id'] = ...]. *)
Definition set_chunk_id (cid : string) (c : Citation) : Citation :=
  {| c_type := c_type c; c_document_id := c_document_id c; c_page := c_page c;
     c_snippet := c_snippet c; c_score := c_score c;
     c_chunk_id := Some cid; c_table_id := c_table_id c |}.

Definition set_table_id (tid : string) (c : Citation) : Citation :=
  {| c_type := c_type c; c_document_id := c_document_id c; c_page := c_page c;
     c_snippet := c_snippet c; c_score := c_score c;
     c_chunk_id := c_chunk_id c; c_table_id := Some tid |}.

(** The body of the citation loop of [generate_answer]. *)
Definition make_citation (ev : Evidence) : result Citation :=
  ty <- item "type" (ev_type ev) ;;
  doc <- item "document_id" (ev_document_id ev) ;;
  body <- item "content" (ev_content ev) ;;
  sc <- item "score" (ev_score ev) ;;
  let citation :=
    {| c_type := ty; c_document_id := doc; c_page := ev_page ev;
       c_snippet := snippet body; c_score := sc;
       c_chunk_id := None; c_table_id := None |} in
  if decide (ty = "text_chunk") then
    cid <- item "chunk_id" (ev_chunk_id ev) ;;
    Ok (set_chunk_id cid citation)
  else if decide (ty = "table") then
    tid <- item "table_id" (ev_table_id ev) ;;
    Ok (set_table_id tid citation)
  else Ok citation.

(** One part of the answer text per evidence item, numbered from [i]. *)
Fixpoint evidence_parts (i : nat) (evidence : list Evidence) : result (list string) :=
  match evidence with
  | [] => Ok []
  | ev :: rest =>
      ty <- item "type" (ev_type ev) ;;
      if decide (ty = "text_chunk") then
        body <- item "content" (ev_content ev) ;;
        parts <- evidence_parts (S i) rest ;;
        Ok (("Evidence " +:+ pretty i +:+ ": " +:+ str_slice_to 100 body +:+ "...") :: parts)
      else if decide (ty = "table") then
        parts <- evidence_parts (S i) rest ;;
        Ok (("Evidence " +:+ pretty i +:+ ": Table data from "
               +:+ default "unknown table" (ev_title ev)) :: parts)
      else evidence_parts (S i) rest
  end.

Definition _generate_answer_text (question : string) (evidence : list Evidence)
  : result string :=
  match evidence with
  | [] => Ok "I cannot provide a reliable answer based on the available evidence."
  | _ =>
      parts <- evidence_parts 1 evidence ;;
      Ok (String.concat " "
            (("Based on the available evidence, I can provide the following answer to your question: '"
                +:+ question +:+ "'")
               :: parts
               ++ ["Please refer to the citations for the complete source information."]))
  end.

Definition insufficient_evidence : Answer :=
  {| text := "I cannot provide a reliable answer based on the available evidence. Please ensure you have uploaded relevant documents.";
     confidence := 0%float;
     citations := [];
     reasoning := {| r_approach := "insufficient_evidence";
                     r_evidence_count := 0;
                     r_evidence_types := None;
                     r_avg_evidence_score := None |} |}.

Definition generate_answer (question : string) (evidence : list Evidence) (plan : Plan)
  : result Answer :=
  match evidence with
  | [] => Ok insufficient_evidence
  | _ =>
      cites <- for_each make_citation evidence ;;
      scores <- for_each (fun ev => item "score" (ev_score ev)) evidence ;;
      let avg_score := (sum scores / float_of_len (length evidence))%float in
      let conf := Py.min avg_score 0.95%float in
      answer_text <- _generate_answer_text question evidence ;;
      how <- item "approach" (approach plan) ;;
      types <- for_each (fun ev => item "type" (ev_type ev)) evidence ;;
      Ok {| text := answer_text;
            confidence := conf;
            citations := cites;
            reasoning := {| r_approach := how;
                            r_evidence_count := length evidence;
                            r_evidence_types := Some (list_to_set types);
                            r_avg_evidence_score := Some avg_score |} |}
  end.

(** What [process_question] returns. *)
Record QuestionResult : Type := {
  q_session_id : option string;
  q_answer : string;
  q_confidence : float;
  q_citations : list Citation;
  q_reasoning : Reasoning;
  q_evidence_used : nat
}.

Definition process_question (session_id : option string) (question workspace_id : string)
  : result QuestionResult :=
  let plan := plan_answer question workspace_id in
  evidence <- retrieve_evidence question workspace_id plan ;;
  answer <- generate_answer question evidence plan ;;
  Ok {| q_session_id := session_id;
        q_answer := text answer;
        q_confidence := confidence answer;
        q_citations := citations answer;
        q_reasoning := reasoning answer;
        q_evidence_used := length evidence |}.

End RAG.

(** ** The embed worker ([embed_worker.py]) *)

Module Embed.

(** The values found in chunk and table dicts ([Any] in the source). *)
Inductive value : Type :=
| VNone
| VBool (b : bool)
| VInt (z : Z)
| VStr (s : string).

(** [str(v)], also what an f-string prints for [v]. *)
Definition str (v : value) : string :=
  match v with
  | VNone => "None"
  | VBool true => "True"
  | VBool false => "False"
  | VInt z => pretty z
  | VStr s => s
  end.

(** The truth value of [v] in an [if]. *)
Definition truthy (v : value) : bool :=
  match v with
  | VNone => false
  | VBool b => b
  | VInt z => negb (z =? 0)%Z
  | VStr s => negb (String.eqb s "")
  end.

(** [d.get('k')]: [None] for a missing key. *)
Definition get (field : option value) : value := default VNone field.

(** One row of the array the model returns. *)
Abbreviation Vec := (list Q).

(** The embedding model: [encode] on a list of texts; it may raise. *)
Definition Model : Type := list string -> result (list Vec).

Record EmbeddingRequest : Type := {
  req_id : string;
  req_text : string;
  req_type : string;
  req_metadata : gmap string value;
  req_priority : Z
}.

(** [asyncio.Queue(maxsize)]: a FIFO buffer; [maxsize <= 0] means
    unbounded. *)
Record Queue : Type := {
  maxsize : Z;
  items : list EmbeddingRequest
}.

Definition qsize (q : Queue) : Z := Z.of_nat (length (items q)).

Definition full (q : Queue) : bool :=
  if (maxsize q <=? 0)%Z then false else (maxsize q <=? qsize q)%Z.

(** What awaiting a coroutine comes to when nothing else runs: it
    returns, or it stays suspended. *)
Inductive outcome (A : Type) : Type :=
| Returned (a : A)
| Suspended.

Arguments Returned {A} a.
Arguments Suspended {A}.

(** [await queue.put(item)]: waits for a free slot while the queue is
    full. *)
Definition put (q : Queue) (request : EmbeddingRequest) : outcome Queue :=
  if full q then Suspended
  else Returned {| maxsize := maxsize q; items := items q ++ [request] |}.

Record EmbedWorker : Type := {
  batch_size : Z;
  max_queue_size : Z;
  embedding_model : option Model;
  request_queue : Queue;
  processing : bool
}.

(** [EmbedWorker.__init__]. *)
Definition init (batch_size max_queue_size : Z) : EmbedWorker :=
  {| batch_size := batch_size;
     max_queue_size := max_queue_size;
     embedding_model := None;
     request_queue := {| maxsize := max_queue_size; items := [] |};
     processing := false |}.

(** [EmbedWorker()] with the default arguments. *)
Definition init_default : EmbedWorker := init 32 1000.

Definition set_queue (q : Queue) (w : EmbedWorker) : EmbedWorker :=
  {| batch_size := batch_size w;
     max_queue_size := max_queue_size w;
     embedding_model := embedding_model w;
     request_queue := q;
     processing := processing w |}.

Definition set_model (m : Model) (w : EmbedWorker) : EmbedWorker :=
  {| batch_size := batch_size w;
     max_queue_size := max_queue_size w;
     embedding_model := Some m;
     request_queue := request_queue w;
     processing := processing w |}.

Definition add_request (w : EmbedWorker) (request : EmbeddingRequest)
  : outcome (bool * EmbedWorker) :=
  if (max_queue_size w <=? qsize (request_queue w))%Z then Returned (false, w)
  else
    match put (request_queue w) request with
    | Returned q => Returned (true, set_queue q w)
    | Suspended => Suspended
    end.

(** A producer that submits the requests one after the other, with no
    consumer running in between; the answers are in submission order. *)
Fixpoint submit_all (w : EmbedWorker) (requests : list EmbeddingRequest)
  : outcome (list bool * EmbedWorker) :=
  match requests with
  | [] => Returned ([], w)
  | r :: rest =>
      match add_request w r with
      | Suspended => Suspended
      | Returned (b, w1) =>
          match submit_all w1 rest with
          | Suspended => Suspended
          | Returned (bs, w2) => Returned (b :: bs, w2)
          end
      end
  end.

(** Chunk and table dicts are mutable objects: the lists handed to the
    worker hold references into a store, and the same object may occur
    more than once in a list. *)
Abbreviation loc := nat.

Record Chunk : Type := {
  chunk_id : option string;
  chunk_text : option string;
  chunk_section : option value;
  chunk_page_from : option value;
  chunk_page_to : option value;
  chunk_embedding : option Vec
}.

Record Column : Type := {
  col_name : option value;
  col_type : option value;
  col_unit : option value
}.

(** The ['schema'] dict; only its ['columns'] key is read. *)
Record Schema : Type := {
  columns : option (list Column)
}.

Record Table : Type := {
  table_id : option value;
  table_schema : option Schema;
  table_data : option (list (list value));
  table_page : option value;
  schema_embedding : option Vec;
  content_embedding : option Vec
}.

#[global] Instance Chunk_inhabited : Inhabited Chunk :=
  populate {| chunk_id := None; chunk_text := None; chunk_section := None;
              chunk_page_from := None; chunk_page_to := None;
              chunk_embedding := None |}.

#[global] Instance Table_inhabited : Inhabited Table :=
  populate {| table_id := None; table_schema := None; table_data := None;
              table_page := None; schema_embedding := None;
              content_embedding := None |}.

Definition set_embedding (e : Vec) (c : Chunk) : Chunk :=
  {| chunk_id := chunk_id c; chunk_text := chunk_text c;
     chunk_section := chunk_section c; chunk_page_from := chunk_page_from c;
     chunk_page_to := chunk_page_to c; chunk_embedding := Some e |}.

Definition set_schema_embedding (e : Vec) (t : Table) : Table :=
  {| table_id := table_id t; table_schema := table_schema t;
     table_data := table_data t; table_page := table_page t;
     schema_embedding := Some e; content_embedding := content_embedding t |}.

Definition set_content_embedding (e : Vec) (t : Table) : Table :=
  {| table_id := table_id t; table_schema := table_schema t;
     table_data := table_data t; table_page := table_page t;
     schema_embedding := schema_embedding t; content_embedding := Some e |}.

(** The [chunks_data] and [tables_data] dicts. *)
Record ChunksData : Type := {
  cd_document_id : option value;
  cd_chunks : option (list loc)
}.

Record TablesData : Type := {
  td_document_id : option value;
  td_tables : option (list loc)
}.

(** The state the worker's coroutines run in: the worker itself, the
    store of chunk and table objects, every call made to the model's
    [encode] (oldest first), and the "Embedding generated" debug events
    (request id, embedding dimension). *)
Record World : Type := {
  self : EmbedWorker;
  chunk_objs : gmap loc Chunk;
  table_objs : gmap loc Table;
  encode_calls : list (list string);
  debug_log : list (string * nat)
}.

Definition with_self (w : EmbedWorker) (σ : World) : World :=
  {| self := w; chunk_objs := chunk_objs σ; table_objs := table_objs σ;
     encode_calls := encode_calls σ; debug_log := debug_log σ |}.

Definition with_chunk_objs (h : gmap loc Chunk) (σ : World) : World :=
  {| self := self σ; chunk_objs := h; table_objs := table_objs σ;
     encode_calls := encode_calls σ; debug_log := debug_log σ |}.

Definition with_table_objs (h : gmap loc Table) (σ : World) : World :=
  {| self := self σ; chunk_objs := chunk_objs σ; table_objs := h;
     encode_calls := encode_calls σ; debug_log := debug_log σ |}.

Definition with_encode_call (texts : list string) (σ : World) : World :=
  {| self := self σ; chunk_objs := chunk_objs σ; table_objs := table_objs σ;
     encode_calls := encode_calls σ ++ [texts]; debug_log := debug_log σ |}.

Definition with_debug (event : string * nat) (σ : World) : World :=
  {| self := self σ; chunk_objs := chunk_objs σ; table_objs := table_objs σ;
     encode_calls := encode_calls σ; debug_log := debug_log σ ++ [event] |}.

(** Coroutines as state transformers that may raise; what was written
    before an exception stays written. *)
Definition M (A : Type) : Type := World -> result A * World.

Definition ret {A : Type} (a : A) : M A := fun σ => (Ok a, σ).

Definition raise {A : Type} (e : exn) : M A := fun σ => (Raise e, σ).

Definition bindM {A B : Type} (m : M A) (k : A -> M B) : M B :=
  fun σ =>
    match m σ with
    | (Ok a, σ1) => k a σ1
    | (Raise e, σ1) => (Raise e, σ1)
    end.

Definition lift {A : Type} (r : result A) : M A := fun σ => (r, σ).

Definition modify (f : World -> World) : M unit := fun σ => (Ok tt, f σ).

Definition reads {A : Type} (f : World -> A) : M A := fun σ => (Ok (f σ), σ).

Notation "x <~ m ;; k" := (bindM m (fun x => k))
  (at level 100, m at next level, right associativity, only parsing).

(** A [for] loop over a list, left to right. [zip(xs, ys)], which stops
    with the shorter list, is [zip xs ys]. *)
Fixpoint for_loop {A : Type} (body : A -> M unit) (l : list A) : M unit :=
  match l with
  | [] => ret tt
  | x :: rest => _ <~ body x ;; for_loop body rest
  end.

(** [enumerate(l)], counting from [i]. *)
Fixpoint enumerate_from {A : Type} (i : nat) (l : list A) : list (nat * A) :=
  match l with
  | [] => []
  | x :: rest => (i, x) :: enumerate_from (S i) rest
  end.

(** [l[i]] for [i >= 0]. *)
Definition index {A : Type} (l : list A) (i : nat) : result A :=
  match l !! i with
  | Some a => Ok a
  | None => Raise IndexError
  end.

Section Provider.

(** The constructor of the embedding model: it returns the model or
    raises. *)
Variable SentenceTransformer : string -> result Model.

Definition _load_embedding_model : M unit :=
  w <~ reads self ;;
  match embedding_model w with
  | Some _ => ret tt
  | None =>
      m <~ lift (SentenceTransformer "all-MiniLM-L6-v2") ;;
      modify (fun σ => with_self (set_model m (self σ)) σ)
  end.

Definition _get_embeddings (texts : list string) : M (list Vec) :=
  _ <~ _load_embedding_model ;;
  w <~ reads self ;;
  match embedding_model w with
  | None => raise (ProviderError "embedding model not loaded")
  | Some model =>
      _ <~ modify (with_encode_call texts) ;;
      lift (model texts)
  end.

(** The model [_get_embeddings] encodes with in a state: the loaded
    one, or else the one the constructor returns. *)
Definition provider (σ : World) : result Model :=
  match embedding_model (self σ) with
  | Some model => Ok model
  | None => SentenceTransformer "all-MiniLM-L6-v2"
  end.

Definition _process_embeddings (requests : list EmbeddingRequest) : M (list Vec) :=
  _get_embeddings (map req_text requests).

Definition _process_batch (batch : list EmbeddingRequest) : M unit :=
  embeddings <~ _get_embeddings (map req_text batch) ;;
  for_loop (fun '(req, embedding) => modify (with_debug (req_id req, length embedding)))
           (zip batch embeddings).

(** The request built for the [n]-th chunk of the loop. *)
Definition chunk_request (document_id : option value) (n : nat) (chunk : Chunk)
  : EmbeddingRequest :=
  {| req_id := default ("chunk_" +:+ pretty n) (chunk_id chunk);
     req_text := default "" (chunk_text chunk);
     req_type := "text";
     req_metadata :=
       {[ "document_id" := get document_id;
          "section" := get (chunk_section chunk);
          "page_from" := get (chunk_page_from chunk);
          "page_to" := get (chunk_page_to chunk) ]};
     req_priority := 0 |}.

(** The requests of [process_chunks], one per chunk, in chunk order. *)
Definition chunk_requests (document_id : option value) (h : gmap loc Chunk)
    (chunks : list loc) : list EmbeddingRequest :=
  map (fun '(n, l) => chunk_request document_id n (h !!! l)) (enumerate_from 0 chunks).

Definition process_chunks (chunks_data : ChunksData) : M ChunksData :=
  match default [] (cd_chunks chunks_data) with
  | [] => ret chunks_data
  | chunks =>
      h <~ reads chunk_objs ;;
      let requests := chunk_requests (cd_document_id chunks_data) h chunks in
      embeddings <~ _process_embeddings requests ;;
      _ <~ for_loop
             (fun '(l, embedding) =>
                modify (fun σ =>
                  with_chunk_objs
                    (<[l := set_embedding embedding (chunk_objs σ !!! l)]> (chunk_objs σ)) σ))
             (zip chunks embeddings) ;;
      ret chunks_data
  end.

Definition column_text (col : Column) : string :=
  let col_text := "Column: " +:+ str (default (VStr "unknown") (col_name col)) in
  let col_text := col_text +:+ ", Type: " +:+ str (default (VStr "unknown") (col_type col)) in
  if truthy (get (col_unit col))
  then col_text +:+ ", Unit: " +:+ str (get (col_unit col))
  else col_text.

Definition _table_schema_to_text (schema : Schema) : string :=
  match columns schema with
  | None => ""
  | Some cols => String.concat "; " (map column_text cols)
  end.

Definition _table_content_to_text (data : list (list value)) : string :=
  match data with
  | [] => ""
  | _ =>
      let max_rows := 5%Z in
      let content_rows := slice_to max_rows data in
      String.concat "; "
        (map (fun row => String.concat ", " (map str row)) content_rows)
  end.

Definition table_metadata (document_id : option value) (table : Table)
  : gmap string value :=
  {[ "document_id" := get document_id;
     "table_id" := get (table_id table);
     "page" := get (table_page table) ]}.

Definition schema_request (document_id : option value) (table : Table)
  : EmbeddingRequest :=
  {| req_id := str (default (VStr "table") (table_id table)) +:+ "_schema";
     req_text := _table_schema_to_text (default {| columns := None |} (table_schema table));
     req_type := "table_schema";
     req_metadata := table_metadata document_id table;
     req_priority := 0 |}.

Definition content_request (document_id : option value) (table : Table)
  : EmbeddingRequest :=
  {| req_id := str (default (VStr "table") (table_id table)) +:+ "_content";
     req_text := _table_content_to_text (default [] (table_data table));
     req_type := "table_content";
     req_metadata := table_metadata document_id table;
     req_priority := 0 |}.

(** The requests of [process_tables]: for each table its schema
    request, then its content request. *)
Fixpoint table_requests (document_id : option value) (tables : list Table)
  : list EmbeddingRequest :=
  match tables with
  | [] => []
  | table :: rest =>
      schema_request document_id table
        :: content_request document_id table
        :: table_requests document_id rest
  end.

(** The body of the attaching loop of [process_tables]. *)
Definition attach_table_embeddings (embeddings : list Vec) (i : nat) (l : loc) : M unit :=
  let schema_emb_idx := i * 2 in
  let content_emb_idx := i * 2 + 1 in
  e1 <~ lift (index embeddings schema_emb_idx) ;;
  _ <~ modify (fun σ =>
         with_table_objs
           (<[l := set_schema_embedding e1 (table_objs σ !!! l)]> (table_objs σ)) σ) ;;
  e2 <~ lift (index embeddings content_emb_idx) ;;
  modify (fun σ =>
    with_table_objs
      (<[l := set_content_embedding e2 (table_objs σ !!! l)]> (table_objs σ)) σ).

Definition process_tables (tables_data : TablesData) : M TablesData :=
  match default [] (td_tables tables_data) with
  | [] => ret tables_data
  | tables =>
      h <~ reads table_objs ;;
      let requests :=
        table_requests (td_document_id tables_data) (map (fun l => h !!! l) tables) in
      embeddings <~ _process_embeddings requests ;;
      _ <~ for_loop (fun '(i, l) => attach_table_embeddings embeddings i l)
                    (enumerate_from 0 tables) ;;
      ret tables_data
  end.

End Provider.

End Embed.

(** ** The notions of the specification *)

Module Spec.

Import RAG.


(** The cap on the confidence of an answer. *)
Definition confidence_cap : float := 0.95%float.

(** A float that is a number: any float but [nan]. *)
Definition is_number (x : float) : Prop := is_nan x = false.

(** Every score of the list is a number. *)
Definition scored_by_numbers (evidence : list RAG.Evidence) : Prop :=
  Forall (fun ev => forall s, RAG.ev_score ev = Some s -> is_number s) evidence.

(** The evidence dicts [generate_answer] accepts: every key it reads
    with [ev[...]] is there. *)
Definition well_keyed (ev : Evidence) : Prop :=
  exists ty, ev_type ev = Some ty
    /\ is_Some (ev_document_id ev)
    /\ is_Some (ev_content ev)
    /\ is_Some (ev_score ev)
    /\ (ty = "text_chunk" -> is_Some (ev_chunk_id ev))
    /\ (ty = "table" -> is_Some (ev_table_id ev)).

(** A citation references an evidence item: it carries the item's
    type, document, page and score, and the item's chunk or table id. *)
Definition references (ev : Evidence) (c : Citation) : Prop :=
  ev_type ev = Some (c_type c)
  /\ ev_document_id ev = Some (c_document_id c)
  /\ ev_page ev = c_page c
  /\ ev_score ev = Some (c_score c)
  /\ (c_type c = "text_chunk" -> is_Some (c_chunk_id c) /\ c_chunk_id c = ev_chunk_id ev)
  /\ (c_type c = "table" -> is_Some (c_table_id c) /\ c_table_id c = ev_table_id ev).

(** [(document_id, page)] ascending, the tie-break of the ranking. *)
Definition tie_break_le (a b : Evidence) : Prop :=
  match ev_document_id a, ev_document_id b, ev_page a, ev_page b with
  | Some da, Some db, Some pa, Some pb =>
      String.compare da db = Lt \/ (da = db /\ (pa <= pb)%Z)
  | _, _, _, _ => False
  end.

(** [a] may stand before [b] in a ranked list: a higher score, or the
    same score and the tie-break. *)
Definition ranks_before (a b : Evidence) : Prop :=
  match ev_score a, ev_score b with
  | Some sa, Some sb =>
      (sb <? sa)%float = true \/ ((sa =? sb)%float = true /\ tie_break_le a b)
  | _, _ => False
  end.

(** The item's score equals [k] (as floats compare: [==]). *)
Definition scores (k : float) (ev : Evidence) : bool :=
  match ev_score ev with
  | Some s => (s =? k)%float
  | None => false
  end.

(** [a] scores at least as high as [b]. *)
Definition scores_ge (a b : Evidence) : Prop :=
  match ev_score a, ev_score b with
  | Some sa, Some sb => (sb <=? sa)%float = true
  | _, _ => False
  end.

(** An evidence item passes the quality gate of a plan: its score is
    not below the plan's threshold. *)
Definition passes_gate (plan : Plan) (ev : Evidence) : Prop :=
  match ev_score ev, confidence_threshold plan with
  | Some s, Some threshold => (threshold <=? s)%float = true
  | _, _ => False
  end.

(** The queue of a worker has the capacity the worker checks
    against, as [__init__] sets it up. *)
Definition consistent (w : Embed.EmbedWorker) : Prop :=
  Embed.maxsize (Embed.request_queue w) = Embed.max_queue_size w.

(** The number of pending requests of a worker. *)
Definition pending (w : Embed.EmbedWorker) : Z := Embed.qsize (Embed.request_queue w).

(** The number of submissions that were answered [False]. *)
Definition rejected (answers : list bool) : nat := length (List.filter negb answers).

End Spec.

(** ** Inputs used in the examples *)

Module Inputs.

Import RAG Embed.

(** ['x' * n]. *)
Fixpoint str_mul (c : Ascii.ascii) (n : nat) : string :=
  match n with
  | 0 => ""
  | S n' => String c (str_mul c n')
  end.

Definition text_chunk (chunk doc body : string) (pg : Z) (sc : float) : Evidence :=
  {| ev_type := Some "text_chunk";
     ev_content := Some body;
     ev_document_id := Some doc;
     ev_chunk_id := Some chunk;
     ev_table_id := None;
     ev_page := Some pg;
     ev_score := Some sc;
     ev_source := None;
     ev_title := None |}.


(** The evidence of [test_generate_answer_with_insufficient_evidence],
    completed with the keys [generate_answer] reads. *)
Definition poor_evidence : list Evidence :=
  [ text_chunk "chunk-1" "doc-1" "Some unrelated content." 1 0.3%float ].

(** The evidence of that test as the test has it: no ['type'], no
    ['document_id']. *)
Definition poor_evidence_as_tested : list Evidence :=
  [ {| ev_type := None;
       ev_content := Some "Some unrelated content.";
       ev_document_id := None;
       ev_chunk_id := Some "chunk-1";
       ev_table_id := None;
       ev_page := None;
       ev_score := Some 0.3%float;
       ev_source := None;
       ev_title := None |} ].

(** The evidence of [test_contradiction_detection] (the degree sign
    left out), completed with the keys [generate_answer] reads. *)
Definition contradictory_evidence : list Evidence :=
  [ text_chunk "chunk-1" "doc-1" "The optimal temperature is 37 C." 1 0.95%float;
    text_chunk "chunk-2" "doc-1" "The optimal temperature is 25 C." 2 0.92%float ].

(** The same two items, agreeing on the temperature. *)
Definition agreeing_evidence : list Evidence :=
  [ text_chunk "chunk-1" "doc-1" "The optimal temperature is 37 C." 1 0.95%float;
    text_chunk "chunk-2" "doc-1" "The optimal temperature is 37 C." 2 0.92%float ].

(** An item whose content has 201 characters. *)
Definition long_evidence : list Evidence :=
  [ text_chunk "chunk-1" "doc-1" (str_mul "x"%char 201) 1 0.9%float ].

(** A pool with a tie: the same score, the later document first. *)
Definition tied_pool : list Evidence :=
  [ text_chunk "chunk-2" "doc-2" "second document" 7 0.8%float;
    text_chunk "chunk-1" "doc-1" "first document" 1 0.8%float ].

(** A weaker item, then the tied pool. *)
Definition mixed_pool : list Evidence :=
  text_chunk "chunk-0" "doc-0" "weak match" 2 0.5%float :: tied_pool.

(** A plan that keeps the two best items. *)
Definition plan_top2 : Plan :=
  {| approach := Some "hybrid_retrieval";
     evidence_types := Some ["text_chunks"; "tables"; "figures"];
     max_evidence := Some 2%Z;
     citation_strategy := Some "evidence_gating";
     confidence_threshold := Some 0.7%float |}.

Definition sample_question : string :=
  "What is the optimal temperature for enzyme activity?".

Definition request (n : nat) : EmbeddingRequest :=
  {| req_id := "req_" +:+ pretty n;
     req_text := "text " +:+ pretty n;
     req_type := "text";
     req_metadata := ∅;
     req_priority := 0 |}.

(** [n] requests, numbered from [0]. *)
Definition requests (n : nat) : list EmbeddingRequest := map request (seq 0 n).

(** A model that embeds a text as the vector of its length. *)
Definition length_model : Model :=
  fun texts => Ok (map (fun t => [inject_Z (Z.of_nat (String.length t))]) texts).

Definition chunk (name body : string) : Chunk :=
  {| chunk_id := Some name; chunk_text := Some body; chunk_section := None;
     chunk_page_from := None; chunk_page_to := None; chunk_embedding := None |}.

Definition table (name : string) (cols : list Column) (rows : list (list value)) : Table :=
  {| table_id := Some (VStr name);
     table_schema := Some {| columns := Some cols |};
     table_data := Some rows;
     table_page := Some (VInt 1);
     schema_embedding := None;
     content_embedding := None |}.

(** A model that fails on every batch. *)
Definition failing_model : Model := fun _ => Raise (ProviderError "EncodingError").

(** A model that returns no embedding at all. *)
Definition silent_model : Model := fun _ => Ok [].

(** A model constructor that succeeds with [length_model]. *)
Definition length_model_constructor : string -> result Model :=
  fun _ => Ok length_model.

(** A store with two chunks and two tables, a fresh worker, nothing
    logged. *)
Definition sample_world : World :=
  {| self := init_default;
     chunk_objs := {[ 0 := chunk "c0" "alpha"; 1 := chunk "c1" "be" ]};
     table_objs :=
       {[ 0 := table "t0"
                 [ {| col_name := Some (VStr "temp"); col_type := Some (VStr "float");
                      col_unit := Some (VStr "C") |} ]
                 [ [VInt 37; VStr "a"]; [VInt 25; VStr "b"] ];
          1 := table "t1" [] [ [VInt 1]; [VInt 2]; [VInt 3]; [VInt 4]; [VInt 5]; [VInt 6] ] ]};
     encode_calls := [];
     debug_log := [] |}.

Definition sample_chunks_data : ChunksData :=
  {| cd_document_id := Some (VStr "doc-1"); cd_chunks := Some [0; 1] |}.

Definition sample_tables_data : TablesData :=
  {| td_document_id := Some (VStr "doc-1"); td_tables := Some [0; 1] |}.

End Inputs.

(** ** The consumer side of the embed worker

    [start], [stop] and [_process_loop]. A turn of the loop is modelled
    with nothing else running during the turn: a [queue.get()] under
    [asyncio.wait_for] then returns the oldest pending request at once,
    or ends in [TimeoutError] when the queue is empty. The waiting times
    themselves (the timeouts, the [sleep(1)] after a failed batch) are
    not represented. *)

Module EmbedLoop.

Import Embed.

(** [await asyncio.wait_for(queue.get(), timeout)]: the oldest request
    and the queue without it, or [None] for [TimeoutError]. *)
Definition get (q : Queue) : option (EmbeddingRequest * Queue) :=
  match items q with
  | [] => None
  | r :: rest => Some (r, {| maxsize := maxsize q; items := rest |})
  end.

(** The inner [while len(batch) < self.batch_size] loop, on the
    pending requests: it takes the next request until the batch is full
    or a [get] times out. It yields the batch and what stays queued. *)
Fixpoint fill_batch (batch_size : Z) (batch pending : list EmbeddingRequest)
  : list EmbeddingRequest * list EmbeddingRequest :=
  match pending with
  | [] => (batch, [])
  | r :: rest =>
      if (Z.of_nat (length batch) <? batch_size)%Z
      then fill_batch batch_size (batch ++ [r]) rest
      else (batch, pending)
  end.

Definition set_processing (b : bool) (w : EmbedWorker) : EmbedWorker :=
  {| batch_size := batch_size w;
     max_queue_size := max_queue_size w;
     embedding_model := embedding_model w;
     request_queue := request_queue w;
     processing := b |}.

(** [stop]. *)
Definition stop : M unit :=
  modify (fun σ => with_self (set_processing false (self σ)) σ).

Section Loop.

Variable SentenceTransformer : string -> result Model.

(** [start], up to the creation of the loop task: the flag is set
    first, then the model is loaded, which may raise. The task itself is
    [_process_loop] below. *)
Definition start : M unit :=
  _ <~ modify (fun σ => with_self (set_processing true (self σ)) σ) ;;
  _load_embedding_model SentenceTransformer.

(** The body of the [while self.processing] loop. An exception of the
    batch is caught (logged, followed by a pause), so a turn never
    raises. *)
Definition loop_turn : M unit :=
  fun σ =>
    let w := self σ in
    match get (request_queue w) with
    | None => (Ok tt, σ)
    | Some (first_request, q) =>
        let '(batch, rest) := fill_batch (batch_size w) [first_request] (items q) in
        let σ1 :=
          with_self (set_queue {| maxsize := maxsize q; items := rest |} w) σ in
        match batch with
        | [] => (Ok tt, σ1)
        | _ =>
            match _process_batch SentenceTransformer batch σ1 with
            | (Ok _, σ2) => (Ok tt, σ2)
            | (Raise _, σ2) => (Ok tt, σ2)
            end
        end
    end.

(** [_process_loop], for a given number of turns at most: the loop
    ends when [processing] is found false. *)
Fixpoint _process_loop (turns : nat) : M unit :=
  match turns with
  | 0 => ret tt
  | S n =>
      fun σ =>
        if processing (self σ)
        then (_ <~ loop_turn ;; _process_loop n) σ
        else (Ok tt, σ)
  end.

End Loop.

(** A model that encodes each text on its own, by [f]. *)
Definition per_text (f : string -> Vec) : Model :=
  fun texts => Ok (map f texts).

(** The texts the model was called with since a state whose record of
    calls had [n] entries, batch after batch. *)
Definition encoded_since (n : nat) (σ : World) : list string :=
  concat (drop n (encode_calls σ)).

End EmbedLoop.

(** ** Further notions *)

Module MoreSpec.

Import RAG.

(** The first key [generate_answer] misses in an evidence dict, in the
    order it reads them. *)
Definition first_missing_key (ev : Evidence) : option string :=
  match ev_type ev with
  | None => Some "type"
  | Some ty =>
      match ev_document_id ev, ev_content ev, ev_score ev with
      | None, _, _ => Some "document_id"
      | Some _, None, _ => Some "content"
      | Some _, Some _, None => Some "score"
      | Some _, Some _, Some _ =>
          if decide (ty = "text_chunk") then
            match ev_chunk_id ev with None => Some "chunk_id" | Some _ => None end
          else if decide (ty = "table") then
            match ev_table_id ev with None => Some "table_id" | Some _ => None end
          else None
      end
  end.

(** The evidence items the answer text has a sentence for. *)
Definition mentioned (ev : Evidence) : bool :=
  match ev_type ev with
  | Some ty => bool_decide (ty = "text_chunk") || bool_decide (ty = "table")
  | None => false
  end.

(** Two chunk dicts that differ in their ['embedding'] at most. *)
Definition same_but_embedding (c c' : Embed.Chunk) : Prop :=
  Embed.chunk_id c' = Embed.chunk_id c
  /\ Embed.chunk_text c' = Embed.chunk_text c
  /\ Embed.chunk_section c' = Embed.chunk_section c
  /\ Embed.chunk_page_from c' = Embed.chunk_page_from c
  /\ Embed.chunk_page_to c' = Embed.chunk_page_to c.

(** Two table dicts that differ in their two embeddings at most. *)
Definition same_but_embeddings (t t' : Embed.Table) : Prop :=
  Embed.table_id t' = Embed.table_id t
  /\ Embed.table_schema t' = Embed.table_schema t
  /\ Embed.table_data t' = Embed.table_data t
  /\ Embed.table_page t' = Embed.table_page t.

(** The first [n] batches of a list cut into consecutive batches of
    [b] items, the last one shorter when the list runs out. *)
Fixpoint first_batches {A : Type} (n b : nat) (l : list A) : list (list A) :=
  match n with
  | 0 => []
  | S n' =>
      match l with
      | [] => []
      | _ => take b l :: first_batches n' b (drop b l)
      end
  end.

(** The number of requests a turn of the loop takes at most: the
    batch size, and one request even when the batch size is below one. *)
Definition batch_limit (w : Embed.EmbedWorker) : nat :=
  Nat.max 1 (Z.to_nat (Embed.batch_size w)).

(** The sentence the answer text has for the evidence item numbered
    [i], a text chunk or a table: the first 100 characters of a chunk's
    content followed by an ellipsis, or the title of a table. *)
Definition sentence_for (i : nat) (ev : Evidence) : string :=
  "Evidence " +:+ pretty i +:+ ": "
    +:+ (if bool_decide (ev_type ev = Some "text_chunk")
         then Py.str_slice_to 100 (default "" (ev_content ev)) +:+ "..."
         else "Table data from " +:+ default "unknown table" (ev_title ev)).

(** The sentences of an answer text: one for each text chunk and each
    table of the evidence, in evidence order, each numbered with the
    position of its item in the evidence, counted from 1. *)
Definition sentences (evidence : list Evidence) : list string :=
  map (fun p => sentence_for p.1 p.2)
      (List.filter (fun p => mentioned p.2) (Embed.enumerate_from 1 evidence)).

Definition preamble (question : string) : string :=
  "Based on the available evidence, I can provide the following answer to your question: '"
    +:+ question +:+ "'".

Definition closing : string :=
  "Please refer to the citations for the complete source information.".

End MoreSpec.

(** ** Further inputs *)

Module MoreInputs.

Import RAG Embed EmbedLoop Inputs.

(** A figure: cited, but not of a type the answer text mentions. *)
Definition figure_item : Evidence :=
  {| ev_type := Some "figure";
     ev_content := Some "Figure 2: activity over temperature";
     ev_document_id := Some "doc-1";
     ev_chunk_id := None;
     ev_table_id := None;
     ev_page := Some 4%Z;
     ev_score := Some 0.6%float;
     ev_source := None;
     ev_title := None |}.

(** An item without a score. *)
Definition unscored_item : Evidence :=
  {| ev_type := Some "text_chunk";
     ev_content := Some "no score";
     ev_document_id := Some "doc-1";
     ev_chunk_id := Some "chunk-9";
     ev_table_id := None;
     ev_page := None;
     ev_score := None;
     ev_source := None;
     ev_title := None |}.

Definition plan_with (n : Z) : Plan :=
  {| approach := Some "hybrid_retrieval";
     evidence_types := Some ["text_chunks"; "tables"; "figures"];
     max_evidence := Some n;
     citation_strategy := Some "evidence_gating";
     confidence_threshold := Some 0.7%float |}.

(** A plan dict without an ['approach'] key. *)
Definition plan_without_approach : Plan :=
  {| approach := None;
     evidence_types := None;
     max_evidence := Some 5%Z;
     citation_strategy := None;
     confidence_threshold := None |}.

(** A plan dict without a ['max_evidence'] key. *)
Definition plan_without_max_evidence : Plan :=
  {| approach := Some "hybrid_retrieval";
     evidence_types := None;
     max_evidence := None;
     citation_strategy := None;
     confidence_threshold := None |}.


(** A worker with the given capacities. *)
Definition world_of (w : EmbedWorker) : World :=
  {| self := w;
     chunk_objs := chunk_objs sample_world;
     table_objs := table_objs sample_world;
     encode_calls := [];
     debug_log := [] |}.

(** A running worker with batch size 2 and five pending requests. *)
Definition busy_worker : EmbedWorker :=
  {| batch_size := 2;
     max_queue_size := 1000;
     embedding_model := None;
     request_queue := {| maxsize := 1000; items := requests 5 |};
     processing := true |}.

(** The embedding of a text by [length_model]. *)
Definition length_vec (t : string) : Vec := [inject_Z (Z.of_nat (String.length t))].

(** A constructor that fails. *)
Definition failing_constructor : string -> result Model :=
  fun _ => Raise (ProviderError "ModelUnavailable").

(** A chunk list that names the same chunk object twice. *)
Definition aliased_chunks_data : ChunksData :=
  {| cd_document_id := Some (VStr "doc-1"); cd_chunks := Some [0; 1; 0] |}.

(** A model that returns three embeddings whatever it is asked. *)
Definition three_model : Model := fun _ => Ok [[1 # 1]; [2 # 1]; [3 # 1]].

End MoreInputs.

(** ** Facts about the Python layer *)

Module PyFacts.

(** *** The order of floats

    The comparisons of the kernel's floats are those of their
    specification, [SFcompare]; the facts below are read off it. *)

Lemma SFcompare_antisym (x y : spec_float) :
  SFcompare y x = option_map CompOpp (SFcompare x y).
Proof.
  destruct x as [sx|sx| |sx mx ex], y as [sy|sy| |sy my ey]; simpl;
    try reflexivity; try (destruct sx; reflexivity); try (destruct sy; reflexivity);
    try (destruct sx, sy; reflexivity).
  change (Pos.compare_cont Eq my mx) with (Pos.compare my mx).
  change (Pos.compare_cont Eq mx my) with (Pos.compare mx my).
  rewrite (Z.compare_antisym ex ey), (Pos.compare_antisym mx my).
  destruct sx, sy; try reflexivity; destruct (ex ?= ey)%Z; reflexivity.
Qed.

Lemma SFcompare_refl (x : spec_float) :
  x <> S754_nan -> SFcompare x x = Some Eq.
Proof.
  destruct x as [sx|sx| |sx mx ex]; simpl; try congruence.
  - destruct sx; reflexivity.
  - intros _. change (Pos.compare_cont Eq mx mx) with (Pos.compare mx mx).
    rewrite Z.compare_refl, Pos.compare_refl. destruct sx; reflexivity.
Qed.

Lemma SFcompare_number (x y : spec_float) :
  x <> S754_nan -> y <> S754_nan -> exists c, SFcompare x y = Some c.
Proof.
  destruct x, y; simpl; try congruence; eauto.
Qed.

Lemma SFleb_trans (x y z : spec_float) :
  SFleb x y = true -> SFleb y z = true -> SFleb x z = true.
Proof.
  unfold SFleb.
  destruct x as [sx|sx| |sx mx ex], y as [sy|sy| |sy my ey], z as [sz|sz| |sz mz ez];
    simpl; try discriminate; try reflexivity;
    repeat match goal with s : bool |- _ => destruct s end;
    simpl; try discriminate; try reflexivity;
    change (Pos.compare_cont Eq) with Pos.compare;
    repeat match goal with
      | |- context [(?a ?= ?b)%Z] => destruct (Z.compare_spec a b)
      | |- context [(?a ?= ?b)%positive] => destruct (Pos.compare_spec a b)
      end; simpl; try discriminate; try reflexivity; intros; try lia.
Qed.

Section FloatOrder.

Implicit Types a b c : float.

Local Open Scope float_scope.

Lemma number_not_nan a : Spec.is_number a <-> Prim2SF a <> S754_nan.
Proof.
  unfold Spec.is_number, is_nan. rewrite FloatAxioms.eqb_spec, negb_false_iff. unfold SFeqb. split.
  - intros H E. rewrite E in H. discriminate.
  - intros H. rewrite SFcompare_refl by exact H. reflexivity.
Qed.

Lemma ltb_leb a b : (a <? b) = true -> (a <=? b) = true.
Proof.
  rewrite FloatAxioms.ltb_spec, FloatAxioms.leb_spec. unfold SFltb, SFleb.
  destruct (SFcompare _ _) as [[]|]; congruence.
Qed.

Lemma eqb_leb a b : (a =? b) = true -> (a <=? b) = true /\ (b <=? a) = true.
Proof.
  rewrite FloatAxioms.eqb_spec, !FloatAxioms.leb_spec. unfold SFeqb, SFleb.
  rewrite (SFcompare_antisym (Prim2SF a) (Prim2SF b)).
  destruct (SFcompare _ _) as [[]|]; simpl; intros; split; congruence.
Qed.

Lemma leb_not_ltb a b : (a <=? b) = true -> (b <? a) = false.
Proof.
  rewrite FloatAxioms.ltb_spec, FloatAxioms.leb_spec. unfold SFltb, SFleb.
  rewrite (SFcompare_antisym (Prim2SF a) (Prim2SF b)).
  destruct (SFcompare _ _) as [[]|]; simpl; congruence.
Qed.

Lemma ltb_irrefl a : (a <? a) = false.
Proof.
  rewrite FloatAxioms.ltb_spec. unfold SFltb.
  pose proof (SFcompare_antisym (Prim2SF a) (Prim2SF a)) as H.
  destruct (SFcompare _ _) as [[]|]; simpl in H; congruence.
Qed.

Lemma not_ltb_leb a b :
  Spec.is_number a -> Spec.is_number b -> (a <? b) = false -> (b <=? a) = true.
Proof.
  rewrite !number_not_nan, FloatAxioms.ltb_spec, FloatAxioms.leb_spec. unfold SFltb, SFleb. intros Ha Hb.
  rewrite (SFcompare_antisym (Prim2SF a) (Prim2SF b)).
  destruct (SFcompare_number _ _ Ha Hb) as [c ->]. destruct c; simpl; congruence.
Qed.

Lemma leb_trans a b c : (a <=? b) = true -> (b <=? c) = true -> (a <=? c) = true.
Proof. rewrite !FloatAxioms.leb_spec. apply SFleb_trans. Qed.

Lemma leb_refl a : Spec.is_number a -> (a <=? a) = true.
Proof.
  rewrite number_not_nan, FloatAxioms.leb_spec. unfold SFleb. intros H.
  rewrite SFcompare_refl by exact H. reflexivity.
Qed.


(** Two floats equal to a third are not one below the other. *)
Lemma eqb_not_ltb a b c : (a =? c) = true -> (b =? c) = true -> (a <? b) = false.
Proof.
  intros Ha Hb. apply eqb_leb in Ha, Hb. apply leb_not_ltb.
  eapply leb_trans; [apply Hb | apply Ha].
Qed.

(** *** [min] *)

Lemma min_l a b : (a <=? b) = true -> Py.min a b = a.
Proof. intros H. unfold Py.min. rewrite (leb_not_ltb _ _ H). reflexivity. Qed.

Lemma min_r a b : (b <? a) = true -> Py.min a b = b.
Proof. intros H. unfold Py.min. rewrite H. reflexivity. Qed.

(** [min(a, b)] is above neither [a] nor [b]. *)
Lemma min_not_above_l a b : (a <? Py.min a b) = false.
Proof.
  unfold Py.min. destruct (b <? a) eqn:E.
  - apply leb_not_ltb, ltb_leb, E.
  - apply ltb_irrefl.
Qed.


Lemma min_le_l a b : Spec.is_number a -> Spec.is_number b -> (Py.min a b <=? a) = true.
Proof.
  intros Ha Hb. unfold Py.min. destruct (b <? a) eqn:E.
  - apply ltb_leb, E.
  - apply leb_refl, Ha.
Qed.



End FloatOrder.

Section ForEach.
Context {A B : Type} (f : A -> result B).

Lemma for_each_Forall2 (l : list A) (ys : list B) :
  for_each f l = Ok ys <-> Forall2 (fun x y => f x = Ok y) l ys.
Proof.
  revert ys. induction l as [|x l IH]; intros ys; simpl.
  - split.
    + intros [= <-]. constructor.
    + intros H. inversion H. reflexivity.
  - split.
    + destruct (f x) as [y|e] eqn:Ey; simpl; [|discriminate].
      destruct (for_each f l) as [ys'|e] eqn:El; simpl; [|discriminate].
      intros [= <-]. constructor; [exact Ey | apply IH; reflexivity].
    + intros H. inversion H as [|x' y l' ys' Hy Hl]; subst.
      rewrite Hy. simpl. apply IH in Hl. rewrite Hl. reflexivity.
Qed.

Lemma for_each_returns (l : list A) :
  Forall (fun x => exists y, f x = Ok y) l -> exists ys, for_each f l = Ok ys.
Proof.
  induction 1 as [|x l [y Hy] _ [ys Hys]]; simpl.
  - eexists. reflexivity.
  - rewrite Hy, Hys. simpl. eexists. reflexivity.
Qed.

Lemma for_each_Ok_Forall (l : list A) (ys : list B) :
  for_each f l = Ok ys -> Forall (fun x => exists y, f x = Ok y) l.
Proof.
  intros H. apply for_each_Forall2 in H.
  induction H; constructor; eauto.
Qed.
End ForEach.

(** Slicing keeps a prefix of the list. *)
Lemma slice_to_prefix {A : Type} (n : Z) (l : list A) :
  exists rest, l = slice_to n l ++ rest.
Proof.
  unfold slice_to. destruct (0 <=? n)%Z.
  - exists (skipn (Z.to_nat n) l). symmetry. apply firstn_skipn.
  - exists (skipn (Z.to_nat (Z.of_nat (length l) + n)) l).
    symmetry. apply firstn_skipn.
Qed.

Lemma slice_to_length {A : Type} (n : Z) (l : list A) :
  (0 <= n)%Z -> length (slice_to n l) = Nat.min (Z.to_nat n) (length l).
Proof.
  intros Hn. unfold slice_to.
  destruct (0 <=? n)%Z eqn:E; [|lia].
  apply length_firstn.
Qed.

Lemma str_slice_to_length (n : nat) (s : string) :
  String.length (str_slice_to n s) = Nat.min n (String.length s).
Proof.
  unfold str_slice_to. revert s. induction n as [|n IH]; intros s.
  - destruct s; reflexivity.
  - destruct s as [|c s]; simpl; [reflexivity|].
    rewrite IH. reflexivity.
Qed.

Lemma str_length_app (s t : string) :
  String.length (s +:+ t) = String.length s + String.length t.
Proof.
  induction s as [|c s IH]; simpl; [reflexivity|].
  rewrite IH. reflexivity.
Qed.

Lemma StronglySorted_weaken {A : Type} (R R' : A -> A -> Prop) (l : list A) :
  (forall a b, R a b -> R' a b) -> StronglySorted R l -> StronglySorted R' l.
Proof.
  intros HR. induction 1 as [|a l _ IH Ha]; constructor; [exact IH|].
  eapply Forall_impl; [exact Ha|]. intros b. apply HR.
Qed.

(** *** The descending stable sort *)

Section SortDesc.
Context {A : Type}.

Local Open Scope float_scope.

Local Abbreviation key_ge := (fun x y : float * A => (fst y <=? fst x) = true).
Local Abbreviation has_key k := (fun x : float * A => (fst x =? k)).
Local Abbreviation number_key := (fun x : float * A => Spec.is_number (fst x)).

Lemma insert_desc_perm (x : float * A) (l : list (float * A)) : insert_desc x l ≡ₚ x :: l.
Proof.
  induction l as [|y l IH]; simpl; [reflexivity|].
  destruct (fst x <? fst y); [|reflexivity].
  rewrite IH. apply perm_swap.
Qed.

Lemma sort_desc_perm (l : list (float * A)) : sort_desc l ≡ₚ l.
Proof.
  induction l as [|x l IH]; simpl; [reflexivity|].
  rewrite insert_desc_perm, IH. reflexivity.
Qed.

Lemma insert_desc_sorted (x : float * A) (l : list (float * A)) :
  number_key x -> Forall number_key l ->
  StronglySorted key_ge l -> StronglySorted key_ge (insert_desc x l).
Proof.
  intros Hx Hl. induction 1 as [|y l Hs IH Hy]; simpl.
  - repeat constructor.
  - apply Forall_cons in Hl. destruct Hl as [Hny Hl].
    destruct (fst x <? fst y) eqn:E.
    + constructor; [apply IH, Hl|].
      rewrite insert_desc_perm. constructor; [|exact Hy].
      apply ltb_leb, E.
    + assert (Hyx : (fst y <=? fst x) = true) by (apply not_ltb_leb; assumption).
      constructor; [constructor; assumption|].
      constructor; [exact Hyx|].
      eapply Forall_impl; [exact Hy|]. intros z Hz. cbv beta in *.
      eapply leb_trans; eassumption.
Qed.

Lemma sort_desc_sorted (l : list (float * A)) :
  Forall number_key l -> StronglySorted key_ge (sort_desc l).
Proof.
  induction 1 as [|x l Hx Hl IH]; simpl; [constructor|].
  apply insert_desc_sorted; [exact Hx | | exact IH].
  rewrite sort_desc_perm. exact Hl.
Qed.

Lemma insert_desc_filter (k : float) (x : float * A) (l : list (float * A)) :
  List.filter (has_key k) (insert_desc x l) = List.filter (has_key k) (x :: l).
Proof.
  induction l as [|y l IH]; [reflexivity|].
  cbn [insert_desc]. destruct (fst x <? fst y) eqn:E; [|reflexivity].
  cbn [List.filter] in *. rewrite IH.
  destruct (fst x =? k) eqn:Ex; [|reflexivity].
  destruct (fst y =? k) eqn:Ey; [|reflexivity].
  rewrite (eqb_not_ltb _ _ _ Ex Ey) in E. discriminate.
Qed.

(** The sort is stable: the items of any one key keep their order. *)
Lemma sort_desc_stable (k : float) (l : list (float * A)) :
  List.filter (has_key k) (sort_desc l) = List.filter (has_key k) l.
Proof.
  induction l as [|x l IH]; [reflexivity|].
  cbn [sort_desc fold_right]. fold (sort_desc l).
  rewrite insert_desc_filter. cbn [List.filter]. rewrite IH. reflexivity.
Qed.

(** Whatever the keys, no item of the sorted list is below its
    successor, and a list of which this holds is left as it is. *)
Local Abbreviation not_below := (fun x y : float * A => (fst x <? fst y) = false).

Lemma insert_desc_Sorted (x : float * A) (l : list (float * A)) :
  Sorted not_below l -> Sorted not_below (insert_desc x l).
Proof.
  induction 1 as [|y l Hl IH Hy]; simpl.
  - repeat constructor.
  - destruct (fst x <? fst y) eqn:E.
    + constructor; [exact IH|].
      destruct l as [|z l]; simpl.
      * constructor. apply leb_not_ltb, ltb_leb, E.
      * destruct (fst x <? fst z).
        -- constructor. apply HdRel_inv in Hy. exact Hy.
        -- constructor. apply leb_not_ltb, ltb_leb, E.
    + constructor; [constructor; assumption|]. constructor. exact E.
Qed.

Lemma sort_desc_Sorted (l : list (float * A)) : Sorted not_below (sort_desc l).
Proof.
  induction l as [|x l IH]; simpl; [constructor|].
  apply insert_desc_Sorted, IH.
Qed.

Lemma sort_desc_Sorted_id (l : list (float * A)) :
  Sorted not_below l -> sort_desc l = l.
Proof.
  induction 1 as [|x l _ IH Hx]; [reflexivity|].
  cbn [sort_desc fold_right]. fold (sort_desc l). rewrite IH.
  destruct l as [|y l]; [reflexivity|].
  cbn [insert_desc]. apply HdRel_inv in Hx. rewrite Hx. reflexivity.
Qed.

Lemma Sorted_take {B : Type} (R : B -> B -> Prop) (n : nat) (l : list B) :
  Sorted R l -> Sorted R (firstn n l).
Proof.
  intros H. revert n. induction H as [|x l Hl IH Hx]; intros n.
  - destruct n; constructor.
  - destruct n as [|n]; [constructor|]. cbn [firstn]. constructor; [apply IH|].
    destruct Hx as [|y l' Hxy]; [destruct n; constructor|].
    destruct n; constructor. exact Hxy.
Qed.

Variable key : A -> result float.

Local Abbreviation keyed_by := (fun p : float * A => key (snd p) = Ok (fst p)).

Lemma keyed_items (l : list A) (keyed : list (float * A)) :
  for_each (fun x => Py.bind (key x) (fun k => Ok (k, x))) l = Ok keyed ->
  map snd keyed = l /\ Forall keyed_by keyed.
Proof.
  intros H. apply for_each_Forall2 in H.
  induction H as [|x p l keyed Hp _ [IH1 IH2]]; [split; constructor|].
  destruct (key x) as [k|] eqn:Ek; simpl in Hp; [|discriminate].
  injection Hp as <-. simpl. split; [f_equal; exact IH1|].
  constructor; [exact Ek | exact IH2].
Qed.

(** [sort_reverse] returns exactly when every key can be computed. *)
Lemma sort_reverse_returns (l : list A) :
  Forall (fun x => exists k, key x = Ok k) l <-> exists sorted, sort_reverse key l = Ok sorted.
Proof.
  unfold sort_reverse. split.
  - intros H.
    destruct (for_each_returns (fun x => Py.bind (key x) (fun k => Ok (k, x))) l)
      as [keyed ->]; [|simpl; eauto].
    eapply Forall_impl; [exact H|]. intros x [k ->]. simpl. eauto.
  - intros [sorted H].
    destruct (for_each _ l) as [keyed|] eqn:E; [|discriminate].
    apply for_each_Ok_Forall in E.
    eapply Forall_impl; [exact E|]. intros x [p Hp]. cbv beta in Hp.
    destruct (key x); [eauto | discriminate].
Qed.

(** The sorted list is a rearrangement of the list. *)
Lemma sort_reverse_perm (l sorted : list A) :
  sort_reverse key l = Ok sorted -> sorted ≡ₚ l.
Proof.
  unfold sort_reverse.
  destruct (for_each _ l) as [keyed|] eqn:E; [|discriminate].
  cbn [Py.bind]. intros [= <-].
  apply keyed_items in E. destruct E as [Hsnd _].
  rewrite <- Hsnd. apply Permutation_map, sort_desc_perm.
Qed.

(** When the keys are numbers, the sorted list has the best key
    first. *)
Lemma sort_reverse_sorted (l sorted : list A) :
  sort_reverse key l = Ok sorted ->
  Forall (fun a => forall k, key a = Ok k -> Spec.is_number k) l ->
  StronglySorted
    (fun a b => exists ka kb, key a = Ok ka /\ key b = Ok kb /\ (kb <=? ka) = true) sorted.
Proof.
  unfold sort_reverse.
  destruct (for_each _ l) as [keyed|] eqn:E; [|discriminate].
  cbn [Py.bind]. intros [= <-] Hnum.
  apply keyed_items in E. destruct E as [Hsnd Hkeyed].
  assert (Hnk : Forall number_key keyed).
  { rewrite <- Hsnd in Hnum. clear Hsnd.
    induction Hkeyed as [|p keyed Hp _ IH]; [constructor|].
    cbn [map] in Hnum. apply Forall_cons in Hnum. destruct Hnum as [Hnp Hnum].
    constructor; [apply Hnp, Hp | apply IH, Hnum]. }
  assert (Hk : Forall keyed_by (sort_desc keyed)).
  { rewrite sort_desc_perm. exact Hkeyed. }
  pose proof (sort_desc_sorted keyed Hnk) as Hs.
  induction Hs as [|p ps Hps IH Hp]; [constructor|].
  apply Forall_cons in Hk. destruct Hk as [Hkp Hkps].
  cbn [map]. constructor; [apply IH, Hkps|].
  apply Forall_map. apply Forall_forall. intros q Hq.
  exists (fst p), (fst q). repeat split.
  - exact Hkp.
  - rewrite Forall_forall in Hkps. apply Hkps, Hq.
  - rewrite Forall_forall in Hp. apply Hp, Hq.
Qed.

(** The sort is stable: the items whose key is [k] keep the order they
    had in the list. *)
Lemma sort_reverse_stable (k : float) (l sorted : list A) :
  sort_reverse key l = Ok sorted ->
  List.filter (fun a => match key a with Ok ka => (ka =? k) | Raise _ => false end) sorted
  = List.filter (fun a => match key a with Ok ka => (ka =? k) | Raise _ => false end) l.
Proof.
  unfold sort_reverse.
  destruct (for_each _ l) as [keyed|] eqn:E; [|discriminate].
  cbn [Py.bind]. intros [= <-].
  apply keyed_items in E. destruct E as [Hsnd Hkeyed].
  assert (Hmap : forall ps : list (float * A), Forall keyed_by ps ->
    List.filter (fun a => match key a with Ok ka => (ka =? k) | Raise _ => false end)
      (map snd ps)
    = map snd (List.filter (has_key k) ps)).
  { induction 1 as [|p ps Hp _ IH]; [reflexivity|].
    cbn [map List.filter]. cbv beta in Hp. rewrite Hp, IH.
    destruct (fst p =? k); reflexivity. }
  rewrite Hmap by (rewrite sort_desc_perm; exact Hkeyed).
  rewrite sort_desc_stable, <- Hmap by exact Hkeyed.
  rewrite Hsnd. reflexivity.
Qed.

(** The sort leaves a prefix of a sorted list as it is. *)
Lemma sort_reverse_prefix_id (l sorted : list A) (n : nat) :
  sort_reverse key l = Ok sorted ->
  sort_reverse key (firstn n sorted) = Ok (firstn n sorted).
Proof.
  unfold sort_reverse.
  destruct (for_each _ l) as [keyed|] eqn:E; [|discriminate].
  cbn [Py.bind]. intros [= <-].
  apply keyed_items in E. destruct E as [_ Hkeyed].
  assert (Hk : Forall keyed_by (firstn n (sort_desc keyed))).
  { apply Forall_take. rewrite sort_desc_perm. exact Hkeyed. }
  assert (Hrun : for_each (fun x => Py.bind (key x) (fun k => Ok (k, x)))
                   (map snd (firstn n (sort_desc keyed)))
                 = Ok (firstn n (sort_desc keyed))).
  { clear -Hk. induction Hk as [|p ps Hp _ IH]; [reflexivity|].
    cbn [map for_each]. cbv beta in Hp. rewrite Hp. cbn [Py.bind]. rewrite IH.
    destruct p; reflexivity. }
  rewrite firstn_map, Hrun. cbn [Py.bind].
  rewrite sort_desc_Sorted_id; [reflexivity|].
  apply Sorted_take, sort_desc_Sorted.
Qed.

End SortDesc.

End PyFacts.

(** ** Facts about the RAG worker *)

Module RAGFacts.

Import RAG Spec Inputs PyFacts.

(** *** Citations *)

Lemma snippet_short (body : string) :
  String.length body <= 200 -> snippet body = body.
Proof.
  intros H. unfold snippet.
  destruct (200 <? String.length body)%nat eqn:E; [|reflexivity].
  apply Nat.ltb_lt in E. lia.
Qed.

Lemma snippet_long (body : string) :
  200 < String.length body ->
  snippet body = str_slice_to 200 body +:+ "..."
  /\ String.length (snippet body) = 203.
Proof.
  intros H. unfold snippet.
  destruct (200 <? String.length body)%nat eqn:E.
  - split; [reflexivity|].
    rewrite str_length_app, str_slice_to_length.
    change (String.length "...") with 3. lia.
  - apply Nat.ltb_ge in E. lia.
Qed.

Lemma snippet_length (body : string) : String.length (snippet body) <= 203.
Proof.
  destruct (le_lt_dec (String.length body) 200) as [H|H].
  - rewrite snippet_short by exact H. lia.
  - destruct (snippet_long body H) as [_ ->]. lia.
Qed.

(** What a citation built from an evidence item holds. *)
Lemma make_citation_Ok (ev : Evidence) (c : Citation) :
  make_citation ev = Ok c ->
  exists ty doc body sc,
    ev_type ev = Some ty /\ ev_document_id ev = Some doc
    /\ ev_content ev = Some body /\ ev_score ev = Some sc
    /\ c_type c = ty /\ c_document_id c = doc /\ c_page c = ev_page ev
    /\ c_snippet c = snippet body /\ c_score c = sc
    /\ (ty = "text_chunk" -> is_Some (c_chunk_id c) /\ c_chunk_id c = ev_chunk_id ev)
    /\ (ty = "table" -> is_Some (c_table_id c) /\ c_table_id c = ev_table_id ev).
Proof.
  unfold make_citation.
  destruct (ev_type ev) as [ty|]; simpl; [|discriminate].
  destruct (ev_document_id ev) as [doc|]; simpl; [|discriminate].
  destruct (ev_content ev) as [body|]; simpl; [|discriminate].
  destruct (ev_score ev) as [sc|]; simpl; [|discriminate].
  intros H. exists ty, doc, body, sc.
  destruct (decide (ty = "text_chunk")) as [Hty|Hty].
  - destruct (ev_chunk_id ev) as [cid|]; simpl in H; [|discriminate].
    injection H as <-. simpl. repeat split; eauto; subst ty; discriminate.
  - destruct (decide (ty = "table")) as [Htb|Htb].
    + destruct (ev_table_id ev) as [tid|]; simpl in H; [|discriminate].
      injection H as <-. simpl. repeat split; eauto; congruence.
    + injection H as <-. simpl. repeat split; congruence.
Qed.

Lemma make_citation_references (ev : Evidence) (c : Citation) :
  make_citation ev = Ok c -> references ev c.
Proof.
  intros H. apply make_citation_Ok in H.
  destruct H as (ty & doc & body & sc & Hty & Hdoc & _ & Hsc & <- & <- & Hpg & _ & <- & Hc & Ht).
  unfold references. repeat split; auto; try apply Hc; try apply Ht; auto.
Qed.

Lemma make_citation_returns (ev : Evidence) :
  well_keyed ev <-> exists c, make_citation ev = Ok c.
Proof.
  split.
  - intros (ty & Hty & [doc Hdoc] & [body Hbody] & [sc Hsc] & Hc & Ht).
    unfold make_citation. rewrite Hty, Hdoc, Hbody, Hsc. simpl.
    destruct (decide (ty = "text_chunk")) as [E|E].
    + destruct (Hc E) as [cid ->]. simpl. eauto.
    + destruct (decide (ty = "table")) as [E'|E'].
      * destruct (Ht E') as [tid ->]. simpl. eauto.
      * eauto.
  - intros [c H]. pose proof (make_citation_Ok _ _ H) as
      (ty & doc & body & sc & Hty & Hdoc & Hbody & Hsc & _ & _ & _ & _ & _ & Hc & Ht).
    exists ty. repeat split; eauto.
    + intros E. destruct (Hc E) as [Hs He]. rewrite <- He. exact Hs.
    + intros E. destruct (Ht E) as [Hs He]. rewrite <- He. exact Hs.
Qed.

(** *** The shape of a synthesized answer *)

Lemma evidence_parts_returns (evidence : list Evidence) (i : nat) :
  Forall well_keyed evidence -> exists parts, evidence_parts i evidence = Ok parts.
Proof.
  intros H. revert i. induction H as [|ev rest Hev _ IH]; intros i; simpl.
  - eauto.
  - destruct Hev as (ty & Hty & _ & [body Hbody] & _).
    rewrite Hty, Hbody. simpl.
    destruct (IH (S i)) as [parts Hparts]. rewrite Hparts.
    repeat case_decide; simpl; eauto.
Qed.

(** A non-empty evidence list is synthesized: the answer is made of
    one citation per item, the scores and the types of the items, and
    the plan's approach. *)
Lemma generate_answer_synthesizes (question : string) (ev : Evidence)
    (rest : list Evidence) (plan : Plan) (ans : Answer) :
  generate_answer question (ev :: rest) plan = Ok ans ->
  exists scores types how,
    Forall2 (fun e c => make_citation e = Ok c) (ev :: rest) (citations ans)
    /\ Forall2 (fun e s => ev_score e = Some s) (ev :: rest) scores
    /\ Forall2 (fun e t => ev_type e = Some t) (ev :: rest) types
    /\ approach plan = Some how
    /\ confidence ans
       = Py.min (Py.sum scores / float_of_len (length (ev :: rest)))%float 0.95%float
    /\ reasoning ans
       = {| r_approach := how;
            r_evidence_count := length (ev :: rest);
            r_evidence_types := Some (list_to_set types);
            r_avg_evidence_score :=
              Some (Py.sum scores / float_of_len (length (ev :: rest)))%float |}.
Proof.
  unfold generate_answer.
  destruct (for_each make_citation (ev :: rest)) as [cites|] eqn:Hc; [|discriminate].
  destruct (for_each (fun e => item "score" (ev_score e)) (ev :: rest))
    as [scores|] eqn:Hs; [|discriminate].
  destruct (_generate_answer_text question (ev :: rest)) as [txt|] eqn:Ht; [|discriminate].
  destruct (approach plan) as [how|] eqn:Ha; [|discriminate].
  destruct (for_each (fun e => item "type" (ev_type e)) (ev :: rest))
    as [types|] eqn:Hty; [|discriminate].
  cbn [Py.bind item]. intros [= <-]. exists scores, types, how.
  cbn [citations confidence reasoning].
  apply for_each_Forall2 in Hc, Hs, Hty.
  repeat split; try assumption.
  - eapply Forall2_impl; [exact Hs|]. intros e s. cbv beta.
    destruct (ev_score e); simpl; congruence.
  - eapply Forall2_impl; [exact Hty|]. intros e t. cbv beta.
    destruct (ev_type e); simpl; congruence.
Qed.

(** With complete evidence and an approach in the plan, an answer is
    synthesized. *)
Lemma generate_answer_complete (question : string) (evidence : list Evidence)
    (plan : Plan) :
  Forall well_keyed evidence ->
  evidence = [] \/ is_Some (approach plan) ->
  exists ans, generate_answer question evidence plan = Ok ans.
Proof.
  intros H Hplan. destruct evidence as [|ev rest]; [simpl; eauto|].
  destruct Hplan as [|[how Hhow]]; [discriminate|].
  unfold generate_answer.
  destruct (for_each_returns make_citation (ev :: rest)) as [cites ->].
  { eapply Forall_impl; [exact H|]. intros e He. apply make_citation_returns, He. }
  destruct (for_each_returns (fun e => item "score" (ev_score e)) (ev :: rest))
    as [scores ->].
  { eapply Forall_impl; [exact H|]. intros e (ty & _ & _ & _ & [s ->] & _). simpl. eauto. }
  destruct (for_each_returns (fun e => item "type" (ev_type e)) (ev :: rest))
    as [types ->].
  { eapply Forall_impl; [exact H|]. intros e (ty & -> & _). simpl. eauto. }
  unfold _generate_answer_text.
  destruct (evidence_parts_returns (ev :: rest) 1 H) as [parts ->].
  rewrite Hhow. cbn [Py.bind item]. eauto.
Qed.

(** [generate_answer] returns exactly on what it can read: evidence
    dicts with the keys it reads and, unless there is no evidence, a plan
    with an ['approach']. *)
Lemma generate_answer_returns (question : string) (evidence : list Evidence) (plan : Plan) :
  Forall well_keyed evidence /\ (evidence = [] \/ is_Some (approach plan))
  <-> exists ans, generate_answer question evidence plan = Ok ans.
Proof.
  split.
  - intros [H Hplan]. apply generate_answer_complete; assumption.
  - intros [ans H]. destruct evidence as [|ev rest]; [split; [constructor | left; reflexivity]|].
    apply generate_answer_synthesizes in H.
    destruct H as (scores & types & how & Hc & _ & _ & Hhow & _). split.
    + clear -Hc. induction Hc; constructor; auto.
      apply make_citation_returns. eauto.
    + right. rewrite Hhow. eauto.
Qed.

(** The answer to an empty evidence list is the insufficient-evidence
    answer, and only that one has no citations. *)
Lemma generate_answer_insufficient_iff (question : string) (evidence : list Evidence)
    (plan : Plan) (ans : Answer) :
  generate_answer question evidence plan = Ok ans ->
  (evidence = [] <-> ((confidence ans =? 0)%float = true /\ citations ans = [])).
Proof.
  intros H. destruct evidence as [|ev rest].
  - injection H as <-. simpl. split; [intros _; split; reflexivity | reflexivity].
  - apply generate_answer_synthesizes in H. destruct H as (scores & types & how & Hc & _).
    split; [discriminate|]. intros [_ Hnil]. rewrite Hnil in Hc. inversion Hc.
Qed.

Lemma generate_answer_insufficient_iff_witness :
  (@nil Evidence) = [] <->
  ((confidence insufficient_evidence =? 0)%float = true
   /\ citations insufficient_evidence = []).
Proof.
  apply (generate_answer_insufficient_iff sample_question []
           (plan_answer sample_question "ws") insufficient_evidence).
  reflexivity.
Defined.

(** *** Ranking and truncation *)

Lemma score_key (ev : Evidence) (k : float) :
  item "score" (ev_score ev) = Ok k <-> ev_score ev = Some k.
Proof. destruct (ev_score ev); simpl; split; congruence. Qed.

(** What a ranking that returns went through: the pool was sorted, the
    plan had a ['max_evidence'], and the ranked list is the sorted pool
    cut there. *)
Lemma rank_evidence_Ok (pool ranked : list Evidence) (plan : Plan) :
  rank_evidence pool plan = Ok ranked <->
  exists sorted limit,
    sort_reverse (fun x => item "score" (ev_score x)) pool = Ok sorted
    /\ max_evidence plan = Some limit
    /\ ranked = slice_to limit sorted.
Proof.
  unfold rank_evidence. split.
  - destruct (sort_reverse _ pool) as [sorted|]; [|discriminate].
    destruct (max_evidence plan) as [limit|]; [|discriminate].
    cbn [Py.bind item]. intros [= <-]. eauto.
  - intros (sorted & limit & -> & -> & ->). reflexivity.
Qed.

(** [rank_evidence] returns exactly on pools whose items all have a
    score, under a plan with a ['max_evidence']. *)
Lemma rank_evidence_returns (pool : list Evidence) (plan : Plan) :
  Forall (fun ev => is_Some (ev_score ev)) pool /\ is_Some (max_evidence plan)
  <-> exists ranked, rank_evidence pool plan = Ok ranked.
Proof.
  rewrite <- (Forall_iff (fun ev => exists k, item "score" (ev_score ev) = Ok k))
    by (intros ev; split; intros [k Hk]; exists k; apply score_key, Hk).
  rewrite sort_reverse_returns. split.
  - intros [[sorted Hs] [limit Hl]]. eexists. apply rank_evidence_Ok. eauto.
  - intros [ranked H]. apply rank_evidence_Ok in H.
    destruct H as (sorted & limit & Hs & Hl & _). split; eauto.
Qed.

(** The ranked list is a prefix of the pool as the sort leaves it:
    together with what the truncation drops it is the pool, rearranged. *)
Lemma rank_evidence_prefix (pool ranked : list Evidence) (plan : Plan) :
  rank_evidence pool plan = Ok ranked ->
  exists limit dropped,
    max_evidence plan = Some limit
    /\ sort_reverse (fun x => item "score" (ev_score x)) pool = Ok (ranked ++ dropped)
    /\ ranked ++ dropped ≡ₚ pool
    /\ ranked = slice_to limit (ranked ++ dropped).
Proof.
  intros H. apply rank_evidence_Ok in H. destruct H as (sorted & limit & Hs & Hl & ->).
  destruct (slice_to_prefix limit sorted) as [dropped Hd].
  exists limit, dropped. rewrite <- Hd.
  split; [exact Hl|]. split; [exact Hs|]. split; [|reflexivity].
  eapply sort_reverse_perm. exact Hs.
Qed.

(** When the scores are numbers, the pool is sorted by score, best
    first, before it is cut. *)
Lemma rank_evidence_sorted (pool sorted : list Evidence) :
  scored_by_numbers pool ->
  sort_reverse (fun x => item "score" (ev_score x)) pool = Ok sorted ->
  StronglySorted scores_ge sorted.
Proof.
  intros Hnum Hs.
  eapply StronglySorted_weaken; [|eapply sort_reverse_sorted; [exact Hs|]].
  - intros a b (ka & kb & Ha & Hb & Hle).
    apply score_key in Ha, Hb. unfold scores_ge. rewrite Ha, Hb. exact Hle.
  - eapply Forall_impl; [exact Hnum|]. intros ev Hev k Hk. apply Hev, score_key, Hk.
Qed.

Lemma rank_evidence_length (pool ranked : list Evidence) (plan : Plan) (limit : Z) :
  max_evidence plan = Some limit ->
  (0 <= limit)%Z ->
  rank_evidence pool plan = Ok ranked ->
  length ranked = Nat.min (Z.to_nat limit) (length pool).
Proof.
  intros Hl Hmax H. apply rank_evidence_prefix in H.
  destruct H as (limit' & dropped & Hl' & _ & Hperm & Hslice).
  assert (limit' = limit) as -> by congruence.
  rewrite Hslice, slice_to_length by exact Hmax.
  rewrite (Permutation_length Hperm). reflexivity.
Qed.

Lemma sorted_ties_keep_pool_order (pool sorted : list Evidence) (k : float) :
  sort_reverse (fun x => item "score" (ev_score x)) pool = Ok sorted ->
  List.filter (scores k) sorted = List.filter (scores k) pool.
Proof.
  intros H. apply (sort_reverse_stable _ k) in H.
  assert (Hext : forall ev : Evidence,
    match item "score" (ev_score ev) with Ok ka => (ka =? k)%float | Raise _ => false end
    = scores k ev).
  { intros ev. unfold scores. destruct (ev_score ev); reflexivity. }
  rewrite <- !(List.filter_ext _ _ Hext). exact H.
Qed.



(** The pool of [retrieve_evidence] is in score order as it is
    written, so the sort leaves it as it is. *)
Lemma retrieve_evidence_mock (question workspace_id : string) (plan : Plan) :
  retrieve_evidence question workspace_id plan
  = (limit <- item "max_evidence" (max_evidence plan) ;;
     Ok (slice_to limit (text_evidence ++ table_evidence))).
Proof. reflexivity. Qed.

(** *** The quality gate *)

(** The confidence and the reasoning of an answer are computed from
    the scores and the types of the evidence alone: what the items say
    plays no part. *)
Lemma synthesis_reads_scores_and_types (question : string) (e1 e2 : list Evidence)
    (plan : Plan) (a1 a2 : Answer) :
  map ev_score e1 = map ev_score e2 ->
  map ev_type e1 = map ev_type e2 ->
  generate_answer question e1 plan = Ok a1 ->
  generate_answer question e2 plan = Ok a2 ->
  confidence a1 = confidence a2 /\ reasoning a1 = reasoning a2.
Proof.
  intros Hs Ht H1 H2.
  destruct e1 as [|x1 r1], e2 as [|x2 r2]; try discriminate.
  - injection H1 as <-. injection H2 as <-. split; reflexivity.
  - apply generate_answer_synthesizes in H1, H2.
    destruct H1 as (s1 & t1 & h1 & _ & Hs1 & Ht1 & Hh1 & -> & ->).
    destruct H2 as (s2 & t2 & h2 & _ & Hs2 & Ht2 & Hh2 & -> & ->).
    assert (h2 = h1) as -> by congruence.
    assert (Hlen : length (x1 :: r1) = length (x2 :: r2)).
    { rewrite <- (length_map ev_score (x1 :: r1)), Hs. apply length_map. }
    assert (Es : s1 = s2).
    { apply (inj (map Some)).
      transitivity (map ev_score (x1 :: r1)).
      - clear -Hs1. induction Hs1; simpl; congruence.
      - rewrite Hs. clear -Hs2. induction Hs2; simpl; congruence. }
    assert (Et : t1 = t2).
    { apply (inj (map Some)).
      transitivity (map ev_type (x1 :: r1)).
      - clear -Ht1. induction Ht1; simpl; congruence.
      - rewrite Ht. clear -Ht2. induction Ht2; simpl; congruence. }
    subst s2 t2. rewrite Hlen. split; reflexivity.
Qed.

(** C1 (the code departs from the claim): evidence that is wholly below
    the plan's confidence threshold is not gated. On the item of the
    repository's insufficient-evidence test (score 0.3, threshold 0.7)
    [generate_answer] synthesizes an answer with confidence 0.3 and one
    citation instead of the insufficient-evidence answer. *)
Theorem below_threshold_evidence_is_answered :
  Forall (fun ev => ~ passes_gate (plan_answer sample_question "ws") ev) poor_evidence
  /\ exists ans,
       generate_answer sample_question poor_evidence (plan_answer sample_question "ws") = Ok ans
       /\ confidence ans = 0.3%float
       /\ length (citations ans) = 1
       /\ r_approach (reasoning ans) = "hybrid_retrieval"
       /\ ans <> insufficient_evidence.
Proof.
  split.
  - repeat constructor. unfold passes_gate. simpl. discriminate.
  - eexists. split; [reflexivity|]. repeat split. discriminate.
Qed.

(** *** Confidence *)



(** *** Snippets *)

(** C5 (as stated, refuted): a content of 201 characters gives a
    snippet of 203 characters. *)
Lemma snippet_longer_than_200 :
  ~ (forall question evidence plan ans,
       generate_answer question evidence plan = Ok ans ->
       Forall (fun c => String.length (c_snippet c) <= 200) (citations ans)).
Proof.
  intros H.
  specialize (H sample_question long_evidence (plan_answer sample_question "ws") _ eq_refl).
  apply Forall_inv in H. vm_compute in H. lia.
Qed.

(** C5 (amended): the snippet of a citation is the content itself when
    the content has at most 200 characters; otherwise it is the first 200
    characters of the content followed by ["..."], 203 characters in
    all. *)
Theorem snippet_is_ellipsis_truncated (question : string) (evidence : list Evidence)
    (plan : Plan) (ans : Answer) :
  generate_answer question evidence plan = Ok ans ->
  Forall2
    (fun ev c =>
       exists body,
         ev_content ev = Some body
         /\ (String.length body <= 200 -> c_snippet c = body)
         /\ (200 < String.length body ->
             c_snippet c = str_slice_to 200 body +:+ "..."
             /\ String.length (c_snippet c) = 203)
         /\ String.length (c_snippet c) <= 203)
    evidence (citations ans).
Proof.
  intros H. destruct evidence as [|ev rest].
  - injection H as <-. constructor.
  - apply generate_answer_synthesizes in H. destruct H as (_ & _ & _ & Hc & _).
    eapply Forall2_impl; [exact Hc|]. intros e c Hec. cbv beta in Hec.
    apply make_citation_Ok in Hec.
    destruct Hec as (ty & doc & body & sc & _ & _ & Hbody & _ & _ & _ & _ & -> & _).
    exists body. split; [exact Hbody|]. split; [apply snippet_short|].
    split; [apply snippet_long | apply snippet_length].
Qed.

Lemma snippet_is_ellipsis_truncated_witness :
  exists ans,
    generate_answer sample_question long_evidence (plan_answer sample_question "ws") = Ok ans
    /\ Forall2
         (fun ev c =>
            exists body,
              ev_content ev = Some body
              /\ (String.length body <= 200 -> c_snippet c = body)
              /\ (200 < String.length body ->
                  c_snippet c = str_slice_to 200 body +:+ "..."
                  /\ String.length (c_snippet c) = 203)
              /\ String.length (c_snippet c) <= 203)
         long_evidence (citations ans).
Proof.
  eexists. split; [reflexivity|].
  apply (snippet_is_ellipsis_truncated sample_question long_evidence
           (plan_answer sample_question "ws")).
  reflexivity.
Defined.

(** *** Retrieval *)

(** C6 (as stated, refuted): candidates with equal scores are not put
    in (document_id, page) order. Two candidates that both score 0.8,
    the one of document 2, page 7 before the one of document 1, page 1,
    are returned in that order. *)
Lemma ties_are_not_broken_by_document_and_page :
  ~ (forall pool plan ranked,
       rank_evidence pool plan = Ok ranked -> StronglySorted ranks_before ranked).
Proof.
  intros H.
  specialize (H tied_pool (plan_answer sample_question "ws") tied_pool eq_refl).
  apply StronglySorted_inv in H. destruct H as [_ H].
  apply Forall_inv in H. unfold ranks_before, tie_break_le in H. simpl in H.
  destruct H as [H | [_ [H | [H _]]]]; discriminate.
Qed.

(** C6 (amended): the list the ranking step of retrieval returns is
    the beginning of the pool sorted by score, best first, when the
    scores are numbers: with the candidates that the truncation drops it
    is the pool in score order, in which the candidates of any one score
    stand in the order they have in the pool, for the sort is stable and
    has no other key than the score. The list depends on the pool and
    the plan alone: [retrieve_evidence] ranks its own fixed pool,
    whatever the question. *)
Theorem ranked_by_score_ties_in_pool_order (pool ranked : list Evidence) (plan : Plan) :
  scored_by_numbers pool ->
  rank_evidence pool plan = Ok ranked ->
  StronglySorted scores_ge ranked
  /\ (exists dropped,
        ranked ++ dropped ≡ₚ pool
        /\ StronglySorted scores_ge (ranked ++ dropped)
        /\ forall k,
             List.filter (scores k) (ranked ++ dropped) = List.filter (scores k) pool)
  /\ (forall question workspace_id,
        retrieve_evidence question workspace_id plan
        = rank_evidence (text_evidence ++ table_evidence) plan).
Proof.
  intros Hnum H.
  destruct (rank_evidence_prefix _ _ _ H) as (limit & dropped & _ & Hsort & Hperm & _).
  pose proof (rank_evidence_sorted _ _ Hnum Hsort) as Hs.
  split; [|split].
  - eapply StronglySorted_app_1_l. exact Hs.
  - exists dropped. split; [exact Hperm|]. split; [exact Hs|].
    intros k. apply (sorted_ties_keep_pool_order pool _ k Hsort).
  - reflexivity.
Qed.

Lemma ranked_by_score_ties_in_pool_order_witness :
  exists ranked,
    rank_evidence mixed_pool plan_top2 = Ok ranked
    /\ ranked = tied_pool
    /\ StronglySorted scores_ge ranked
    /\ (exists dropped,
          List.filter (scores 0.8) (tied_pool ++ dropped)
          = List.filter (scores 0.8) mixed_pool).
Proof.
  destruct (ranked_by_score_ties_in_pool_order mixed_pool tied_pool plan_top2)
    as (Hsorted & (dropped & _ & _ & Hties) & _).
  - repeat constructor; intros s [= <-]; reflexivity.
  - reflexivity.
  - exists tied_pool. split; [reflexivity|]. split; [reflexivity|].
    split; [exact Hsorted|]. exists dropped. exact (Hties 0.8%float).
Defined.




(** *** Citations and evidence *)

(** C8: when the plan's [max_evidence] is not negative, the answer to
    the retrieved evidence has one citation per retrieved item, in order,
    each referencing its item (so every citation references an item of
    the retrieved set), and at most [max_evidence] citations. *)
Theorem citations_reference_retrieved_evidence (question workspace_id : string)
    (plan : Plan) (limit : Z) (evidence : list Evidence) (ans : Answer) :
  max_evidence plan = Some limit ->
  (0 <= limit)%Z ->
  retrieve_evidence question workspace_id plan = Ok evidence ->
  generate_answer question evidence plan = Ok ans ->
  Forall2 references evidence (citations ans)
  /\ (forall c, c ∈ citations ans -> exists ev, ev ∈ evidence /\ references ev c)
  /\ (Z.of_nat (length (citations ans)) <= limit)%Z.
Proof.
  intros Hlimit Hmax Hret Hgen.
  assert (Href : Forall2 references evidence (citations ans)).
  { destruct evidence as [|ev rest].
    - injection Hgen as <-. constructor.
    - apply generate_answer_synthesizes in Hgen. destruct Hgen as (_ & _ & _ & Hc & _).
      eapply Forall2_impl; [exact Hc|]. intros e c. apply make_citation_references. }
  split; [exact Href|]. split.
  - intros c Hc. apply list_elem_of_lookup in Hc. destruct Hc as [i Hi].
    destruct (Forall2_lookup_r _ _ _ _ _ Href Hi) as (ev & Hev & Hr).
    exists ev. split; [|exact Hr]. apply list_elem_of_lookup. eauto.
  - rewrite <- (Forall2_length _ _ _ Href).
    unfold retrieve_evidence in Hret.
    rewrite (rank_evidence_length _ _ _ _ Hlimit Hmax Hret). lia.
Qed.

Lemma citations_reference_retrieved_evidence_witness :
  exists evidence ans,
    retrieve_evidence sample_question "ws" plan_top2 = Ok evidence
    /\ generate_answer sample_question evidence plan_top2 = Ok ans
    /\ Forall2 references evidence (citations ans)
    /\ (Z.of_nat (length (citations ans)) <= 2)%Z.
Proof.
  eexists. eexists. split; [reflexivity|]. split; [reflexivity|].
  destruct (citations_reference_retrieved_evidence sample_question "ws" plan_top2 2 _ _
              eq_refl ltac:(discriminate) eq_refl eq_refl) as (Href & _ & Hlen).
  split; [exact Href | exact Hlen].
Defined.

(** *** Contradictions *)

(** C9 (the code departs from the claim): two items that give 37 and
    25 degrees as the optimal temperature are answered exactly as two
    items that agree, scores being equal: the same confidence, not a
    lower one, and the same reasoning, which has no place for a
    contradiction. An answer is returned in both cases. *)
Theorem contradiction_goes_unnoticed :
  exists a_contra a_agree,
    generate_answer sample_question contradictory_evidence
      (plan_answer sample_question "ws") = Ok a_contra
    /\ generate_answer sample_question agreeing_evidence
         (plan_answer sample_question "ws") = Ok a_agree
    /\ confidence a_contra = confidence a_agree
    /\ reasoning a_contra = reasoning a_agree
    /\ a_contra <> insufficient_evidence.
Proof.
  eexists. eexists. split; [reflexivity|]. split; [reflexivity|].
  destruct (synthesis_reads_scores_and_types sample_question
              contradictory_evidence agreeing_evidence
              (plan_answer sample_question "ws") _ _
              eq_refl eq_refl eq_refl eq_refl) as [Hconf Hreason].
  split; [exact Hconf|]. split; [exact Hreason | discriminate].
Qed.

(** *** End to end *)

(** Every question is answered from the three mock items: confidence
    0.75, three citations, none of them beyond [max_evidence]. *)
Lemma process_question_mock (session_id : option string) (question workspace_id : string) :
  exists r,
    process_question session_id question workspace_id = Ok r
    /\ q_confidence r = 0.75%float
    /\ length (q_citations r) = 3
    /\ q_evidence_used r = 3
    /\ max_evidence (plan_answer question workspace_id) = Some 5%Z
    /\ (Z.of_nat (length (q_citations r)) <= 5)%Z.
Proof.
  eexists. split; [reflexivity|].
  split; [|split; [|split; [|split]]].
  - reflexivity.
  - reflexivity.
  - reflexivity.
  - reflexivity.
  - simpl. lia.
Qed.

(** On a pool with a tie the ranking keeps the pool's order: the item
    of document 2, page 7 stays before the item of document 1, page 1. *)
Lemma tied_pool_keeps_its_order :
  rank_evidence tied_pool (plan_answer sample_question "ws") = Ok tied_pool
  /\ ~ StronglySorted ranks_before tied_pool.
Proof.
  split; [reflexivity|].
  intros H. apply StronglySorted_inv in H. destruct H as [_ H].
  apply Forall_inv in H. unfold ranks_before, tie_break_le in H. simpl in H.
  destruct H as [H | [_ [H | [H _]]]]; discriminate.
Qed.

(** The test's own evidence dict has no ['type'] key: on it
    [generate_answer] raises. *)
Lemma tested_evidence_raises :
  generate_answer sample_question poor_evidence_as_tested
    (plan_answer sample_question "ws") = Raise (KeyError "type").
Proof. reflexivity. Qed.

End RAGFacts.

(** ** Facts about the embed worker *)

Module EmbedFacts.

Import Embed Spec Inputs PyFacts.

(** *** The bounded queue *)

Lemma init_consistent (batch_size max_queue_size : Z) :
  consistent (init batch_size max_queue_size)
  /\ pending (init batch_size max_queue_size) = 0%Z.
Proof. split; reflexivity. Qed.

(** A submission to a full queue is refused and changes nothing. *)
Lemma add_request_full (w : EmbedWorker) (request : EmbeddingRequest) :
  (max_queue_size w <= pending w)%Z -> add_request w request = Returned (false, w).
Proof.
  intros H. unfold add_request, pending in *.
  destruct (max_queue_size w <=? qsize (request_queue w))%Z eqn:E; [reflexivity|].
  apply Z.leb_gt in E. lia.
Qed.

(** A submission to a queue with a free slot is enqueued at the back. *)
Lemma add_request_free (w : EmbedWorker) (request : EmbeddingRequest) :
  consistent w ->
  (pending w < max_queue_size w)%Z ->
  add_request w request
  = Returned (true, set_queue {| maxsize := maxsize (request_queue w);
                                 items := items (request_queue w) ++ [request] |} w).
Proof.
  intros Hc H. unfold add_request, pending, consistent in *.
  destruct (max_queue_size w <=? qsize (request_queue w))%Z eqn:E.
  - apply Z.leb_le in E. lia.
  - unfold put, full. rewrite Hc.
    assert (0 <= qsize (request_queue w))%Z by (unfold qsize; lia).
    destruct (max_queue_size w <=? 0)%Z eqn:E0; [apply Z.leb_le in E0; lia|].
    rewrite E. reflexivity.
Qed.

(** A producer never waits, the queue never grows beyond its capacity,
    and the refused submissions are those that found no free slot. *)
Lemma submit_all_answers (requests : list EmbeddingRequest) (w : EmbedWorker) :
  consistent w ->
  (pending w <= max_queue_size w)%Z ->
  exists answers w',
    submit_all w requests = Returned (answers, w')
    /\ consistent w'
    /\ max_queue_size w' = max_queue_size w
    /\ pending w' = Z.min (max_queue_size w) (pending w + Z.of_nat (length requests))
    /\ length answers = length requests
    /\ rejected answers = length requests - Z.to_nat (max_queue_size w - pending w).
Proof.
  revert w. induction requests as [|r rest IH]; intros w Hc Hle.
  - exists [], w. simpl. repeat split; auto. lia.
  - cbn [submit_all].
    destruct (Z.eq_dec (pending w) (max_queue_size w)) as [Hfull|Hfree].
    + rewrite add_request_full by lia.
      destruct (IH w Hc Hle) as (answers & w' & -> & Hc' & Hm' & Hp' & Hl' & Hr').
      exists (false :: answers), w'. split; [reflexivity|].
      split; [exact Hc'|]. split; [exact Hm'|]. split; [simpl length; lia|].
      split; [simpl; congruence|].
      unfold rejected in *. cbn [List.filter negb length]. rewrite Hr'.
      replace (Z.to_nat (max_queue_size w - pending w)) with 0 by lia.
      simpl. lia.
    + rewrite add_request_free by (auto; lia).
      set (w1 := set_queue _ w).
      assert (Hp1 : pending w1 = (pending w + 1)%Z).
      { unfold pending, qsize, w1. simpl. rewrite length_app. simpl. lia. }
      assert (Hc1 : consistent w1) by exact Hc.
      assert (Hm1 : max_queue_size w1 = max_queue_size w) by reflexivity.
      destruct (IH w1 Hc1) as (answers & w' & -> & Hc' & Hm' & Hp' & Hl' & Hr').
      { rewrite Hp1, Hm1. lia. }
      exists (true :: answers), w'. split; [reflexivity|].
      split; [exact Hc'|]. split; [congruence|].
      split; [rewrite Hp', Hm1, Hp1; simpl length; lia|].
      split; [simpl; congruence|].
      unfold rejected in *. cbn [List.filter negb]. rewrite Hr', Hm1, Hp1.
      simpl length. lia.
Qed.

(** C2: a submission to a queue that holds as many requests as its
    capacity returns [False] at once and leaves the queue as it is; no
    sequence of submissions makes a producer wait or the queue exceed its
    capacity; and of 1,100 submissions to a fresh queue of capacity 1000
    that no consumer drains, exactly 100 return [False]. *)
Theorem queue_backpressure (w : EmbedWorker) (request : EmbeddingRequest)
    (requests : list EmbeddingRequest) :
  consistent w ->
  (pending w <= max_queue_size w)%Z ->
  (pending w = max_queue_size w -> add_request w request = Returned (false, w))
  /\ (exists answers w',
        submit_all w requests = Returned (answers, w')
        /\ consistent w'
        /\ max_queue_size w' = max_queue_size w
        /\ (pending w' <= max_queue_size w)%Z)
  /\ (forall batch_size,
        length requests = 1100 ->
        exists answers w',
          submit_all (init batch_size 1000) requests = Returned (answers, w')
          /\ rejected answers = 100
          /\ pending w' = 1000%Z).
Proof.
  intros Hc Hle. split; [|split].
  - intros Hfull. apply add_request_full. lia.
  - destruct (submit_all_answers requests w Hc Hle)
      as (answers & w' & Hrun & Hc' & Hm' & Hp' & _).
    exists answers, w'. repeat split; auto. lia.
  - intros batch_size Hn.
    destruct (init_consistent batch_size 1000) as [Hci Hpi].
    destruct (submit_all_answers requests (init batch_size 1000) Hci)
      as (answers & w' & Hrun & _ & _ & Hp' & _ & Hr').
    { rewrite Hpi. simpl. lia. }
    exists answers, w'. split; [exact Hrun|]. split.
    + rewrite Hr', Hn, Hpi. reflexivity.
    + rewrite Hp', Hn, Hpi. reflexivity.
Qed.

Lemma queue_backpressure_witness :
  exists answers w',
    submit_all init_default (Inputs.requests 1100) = Returned (answers, w')
    /\ rejected answers = 100
    /\ pending w' = 1000%Z.
Proof.
  destruct (queue_backpressure init_default (request 0) (Inputs.requests 1100))
    as (_ & _ & H).
  - reflexivity.
  - discriminate.
  - apply (H 32%Z). unfold Inputs.requests. rewrite length_map, length_seq. reflexivity.
Defined.

(** *** Running the coroutines *)

Lemma for_loop_modify {A : Type} (body : A -> M unit) (f : A -> World -> World)
    (l : list A) (σ : World) :
  (forall x s, body x s = (Ok tt, f x s)) ->
  for_loop body l σ = (Ok tt, foldl (fun s x => f x s) σ l).
Proof.
  intros Hbody. revert σ. induction l as [|x l IH]; intros σ; [reflexivity|].
  cbn [for_loop foldl]. unfold bindM. rewrite Hbody. apply IH.
Qed.

Lemma zip_lookup {A B : Type} (xs : list A) (ys : list B) (i : nat) (x : A) (y : B) :
  zip xs ys !! i = Some (x, y) <-> xs !! i = Some x /\ ys !! i = Some y.
Proof.
  rewrite lookup_zip_with_Some. split.
  - intros (x' & y' & [= <- <-] & Hx & Hy). auto.
  - intros [Hx Hy]. eauto.
Qed.

Lemma zip_fst_NoDup {A B : Type} (xs : list A) (ys : list B) :
  NoDup xs -> NoDup (zip xs ys).*1.
Proof.
  intros H. revert ys. induction H as [|x xs Hx _ IH]; intros [|y ys]; cbn;
    [apply NoDup_nil_2 ..|].
  apply NoDup_cons_2; [|apply IH].
  intros Hin. apply Hx. apply list_elem_of_fmap in Hin.
  destruct Hin as ([x' y'] & -> & Hin). apply elem_of_zip_l in Hin. exact Hin.
Qed.

Lemma enumerate_from_lookup {A : Type} (l : list A) (i0 j : nat) :
  enumerate_from i0 l !! j = (fun x => (i0 + j, x)) <$> l !! j.
Proof.
  revert i0 j. induction l as [|x l IH]; intros i0 [|j]; simpl; try reflexivity.
  - rewrite Nat.add_0_r. reflexivity.
  - rewrite IH. replace (S i0 + j) with (i0 + S j) by lia. reflexivity.
Qed.

(** Writing an embedding to every chunk of a list of (chunk,
    embedding) pairs, front to back, as the attaching loop does. *)
Lemma attach_chunks_lookup (pairs : list (loc * Vec)) (h : gmap loc Chunk) :
  NoDup pairs.*1 ->
  let h' := foldl (fun h p => <[p.1 := set_embedding p.2 (h !!! p.1)]> h) h pairs in
  (forall l e, (l, e) ∈ pairs -> h' !! l = Some (set_embedding e (h !!! l)))
  /\ (forall l, l ∉ pairs.*1 -> h' !! l = h !! l).
Proof.
  revert h. induction pairs as [|[l0 e0] pairs IH]; intros h Hnd; cbn zeta.
  - split; [intros l e Hin; inversion Hin | reflexivity].
  - cbn [foldl fst snd]. cbn [fmap list_fmap fst] in Hnd.
    apply NoDup_cons in Hnd. destruct Hnd as [Hl0 Hnd].
    destruct (IH (<[l0 := set_embedding e0 (h !!! l0)]> h) Hnd) as [IH1 IH2].
    cbn zeta in IH1, IH2. split.
    + intros l e Hin. apply elem_of_cons in Hin. destruct Hin as [[= -> ->]|Hin].
      * rewrite IH2 by exact Hl0. apply lookup_insert_eq.
      * rewrite (IH1 l e Hin). f_equal. f_equal.
        apply lookup_total_insert_ne. intros ->. apply Hl0.
        apply list_elem_of_fmap. exists (l, e). auto.
    + intros l Hl. cbn [fmap list_fmap fst] in Hl.
      apply not_elem_of_cons in Hl. destruct Hl as [Hne Hl].
      rewrite IH2 by exact Hl. apply lookup_insert_ne. congruence.
Qed.

Section ProviderFacts.

Variable SentenceTransformer : string -> result Model.

Lemma get_embeddings_run (texts : list string) (σ : World) (model : Model) :
  provider SentenceTransformer σ = Ok model ->
  exists σ1,
    _get_embeddings SentenceTransformer texts σ = (model texts, σ1)
    /\ provider SentenceTransformer σ1 = Ok model
    /\ chunk_objs σ1 = chunk_objs σ
    /\ table_objs σ1 = table_objs σ
    /\ encode_calls σ1 = encode_calls σ ++ [texts]
    /\ debug_log σ1 = debug_log σ
    /\ request_queue (self σ1) = request_queue (self σ).
Proof.
  unfold provider, _get_embeddings, _load_embedding_model, bindM, reads.
  destruct (embedding_model (self σ)) as [m|] eqn:Em.
  - intros [= ->]. cbn. rewrite Em. cbn.
    eexists. split; [reflexivity|]. cbn. rewrite Em. repeat split.
  - intros ->. cbn. eexists. split; [reflexivity|]. repeat split.
Qed.

(** A model that cannot be built, or that fails on the texts, makes
    [_get_embeddings] raise. *)
Lemma get_embeddings_raises (texts : list string) (σ : World) (e : exn) :
  provider SentenceTransformer σ = Raise e
  \/ (exists model, provider SentenceTransformer σ = Ok model /\ model texts = Raise e) ->
  exists σ1, _get_embeddings SentenceTransformer texts σ = (Raise e, σ1).
Proof.
  intros [H|(model & H & Hm)].
  - unfold provider in H. unfold _get_embeddings, _load_embedding_model, bindM, reads.
    destruct (embedding_model (self σ)) as [m|] eqn:Em; [discriminate|].
    cbn. rewrite H. cbn. eauto.
  - destruct (get_embeddings_run texts σ model H) as (σ1 & -> & _). rewrite Hm. eauto.
Qed.

End ProviderFacts.

Lemma foldl_chunk_objs (g : loc * Vec -> gmap loc Chunk -> gmap loc Chunk)
    (pairs : list (loc * Vec)) (σ : World) :
  let σ' := foldl (fun s p => with_chunk_objs (g p (chunk_objs s)) s) σ pairs in
  chunk_objs σ' = foldl (fun h p => g p h) (chunk_objs σ) pairs
  /\ self σ' = self σ /\ table_objs σ' = table_objs σ
  /\ encode_calls σ' = encode_calls σ /\ debug_log σ' = debug_log σ.
Proof.
  revert σ. induction pairs as [|p pairs IH]; intros σ; cbn zeta; [repeat split|].
  cbn [foldl]. apply (IH (with_chunk_objs (g p (chunk_objs σ)) σ)).
Qed.

Lemma foldl_debug_log {A : Type} (g : A -> string * nat) (l : list A) (σ : World) :
  let σ' := foldl (fun s x => with_debug (g x) s) σ l in
  debug_log σ' = debug_log σ ++ map g l
  /\ self σ' = self σ /\ chunk_objs σ' = chunk_objs σ /\ table_objs σ' = table_objs σ
  /\ encode_calls σ' = encode_calls σ.
Proof.
  revert σ. induction l as [|x l IH]; intros σ; cbn zeta.
  - cbn. rewrite app_nil_r. repeat split.
  - cbn [foldl map]. destruct (IH (with_debug (g x) σ)) as (-> & -> & -> & -> & ->).
    cbn. rewrite <- app_assoc. repeat split.
Qed.

Lemma chunk_requests_lookup (document_id : option value) (h : gmap loc Chunk)
    (chunks : list loc) (i : nat) (l : loc) :
  chunks !! i = Some l ->
  chunk_requests document_id h chunks !! i = Some (chunk_request document_id i (h !!! l)).
Proof.
  intros H. unfold chunk_requests.
  rewrite list_lookup_fmap, enumerate_from_lookup, H. reflexivity.
Qed.

Section Embedding.

Variable SentenceTransformer : string -> result Model.

Lemma process_chunks_nonempty (chunks_data : ChunksData) (chunks : list loc) (σ : World) :
  cd_chunks chunks_data = Some chunks ->
  chunks <> [] ->
  process_chunks SentenceTransformer chunks_data σ
  = (let (r, σ1) :=
       _get_embeddings SentenceTransformer
         (map req_text
            (chunk_requests (cd_document_id chunks_data) (chunk_objs σ) chunks)) σ in
     match r with
     | Ok embeddings =>
         bindM
           (for_loop
              (fun '(l, embedding) =>
                 modify (fun s =>
                   with_chunk_objs
                     (<[l := set_embedding embedding (chunk_objs s !!! l)]> (chunk_objs s)) s))
              (zip chunks embeddings))
           (fun _ => ret chunks_data) σ1
     | Raise e => (Raise e, σ1)
     end).
Proof.
  intros H Hne. unfold process_chunks. rewrite H.
  destruct chunks; [congruence | reflexivity].
Qed.

(** C3: for a batch the model answers, [_process_batch] calls the model
    once, with the texts of the batch in request order, and pairs the
    i-th request with the i-th embedding returned; [process_chunks] does
    the same for the requests of its chunks and writes the i-th embedding
    to the i-th chunk, to no other chunk, chunks beyond the embeddings
    returned staying as they were. *)
Theorem batch_embeddings_follow_request_order (σ : World) (model : Model)
    (batch : list EmbeddingRequest) (embeddings : list Vec) :
  provider SentenceTransformer σ = Ok model ->
  model (map req_text batch) = Ok embeddings ->
  (exists σ',
     _process_batch SentenceTransformer batch σ = (Ok tt, σ')
     /\ encode_calls σ' = encode_calls σ ++ [map req_text batch]
     /\ debug_log σ'
        = debug_log σ ++ map (fun p => (req_id p.1, length p.2)) (zip batch embeddings)
     /\ (forall i req e,
           batch !! i = Some req -> embeddings !! i = Some e ->
           zip batch embeddings !! i = Some (req, e)))
  /\ (forall chunks_data chunks,
        cd_chunks chunks_data = Some chunks ->
        chunks <> [] ->
        NoDup chunks ->
        batch = chunk_requests (cd_document_id chunks_data) (chunk_objs σ) chunks ->
        exists σ',
          process_chunks SentenceTransformer chunks_data σ = (Ok chunks_data, σ')
          /\ encode_calls σ' = encode_calls σ ++ [map req_text batch]
          /\ (forall i l,
                chunks !! i = Some l ->
                batch !! i
                = Some (chunk_request (cd_document_id chunks_data) i (chunk_objs σ !!! l))
                /\ match embeddings !! i with
                   | Some e =>
                       chunk_objs σ' !! l = Some (set_embedding e (chunk_objs σ !!! l))
                   | None => chunk_objs σ' !! l = chunk_objs σ !! l
                   end)
          /\ (forall l, l ∉ chunks -> chunk_objs σ' !! l = chunk_objs σ !! l)).
Proof.
  intros Hprov Hmodel. split.
  - destruct (get_embeddings_run SentenceTransformer (map req_text batch) σ model Hprov)
      as (σ1 & Hrun & _ & _ & _ & Hcalls & Hlog & _).
    unfold _process_batch, bindM. rewrite Hrun, Hmodel.
    rewrite (for_loop_modify _ (fun p => with_debug (req_id p.1, length p.2)))
      by (intros [req e] s; reflexivity).
    eexists. split; [reflexivity|].
    destruct (foldl_debug_log (fun p : EmbeddingRequest * Vec => (req_id p.1, length p.2))
                (zip batch embeddings) σ1) as (Hd & _ & _ & _ & Hc).
    cbn zeta in Hd, Hc. cbv beta. rewrite Hd, Hc, Hcalls, Hlog. repeat split.
    intros i req e Hreq He. apply zip_lookup. auto.
  - intros chunks_data chunks Hchunks Hne Hnd ->.
    set (batch := chunk_requests (cd_document_id chunks_data) (chunk_objs σ) chunks) in *.
    destruct (get_embeddings_run SentenceTransformer (map req_text batch) σ model Hprov)
      as (σ1 & Hrun & _ & Hobjs & _ & Hcalls & _).
    rewrite (process_chunks_nonempty _ _ _ Hchunks Hne). fold batch.
    rewrite Hrun, Hmodel. unfold bindM.
    rewrite (for_loop_modify _
               (fun p s => with_chunk_objs
                             (<[p.1 := set_embedding p.2 (chunk_objs s !!! p.1)]>
                                (chunk_objs s)) s))
      by (intros [l e] s; reflexivity).
    eexists. split; [reflexivity|].
    destruct (foldl_chunk_objs
                (fun p h => <[p.1 := set_embedding p.2 (h !!! p.1)]> h)
                (zip chunks embeddings) σ1) as (Hh & _ & _ & Hc & _).
    cbn zeta in Hh, Hc. cbv beta. rewrite Hh, Hc, Hcalls, Hobjs.
    destruct (attach_chunks_lookup (zip chunks embeddings) (chunk_objs σ)
                (zip_fst_NoDup _ _ Hnd)) as [Hin Hout].
    cbn zeta in Hin, Hout. split; [reflexivity|]. split.
    + intros i l Hl. split; [apply chunk_requests_lookup, Hl|].
      destruct (embeddings !! i) as [e|] eqn:He.
      * apply Hin. apply list_elem_of_lookup. exists i. apply zip_lookup. auto.
      * apply Hout. intros Hfst. apply list_elem_of_fmap in Hfst.
        destruct Hfst as ([l' e'] & Heq & Hmem). cbn in Heq. subst l'.
        apply list_elem_of_lookup in Hmem. destruct Hmem as [j Hj].
        apply zip_lookup in Hj. destruct Hj as [Hj He'].
        assert (j = i) by (eapply NoDup_lookup; eassumption).
        subst j. congruence.
    + intros l Hl. apply Hout. intros Hfst. apply Hl.
      apply list_elem_of_fmap in Hfst. destruct Hfst as ([l' e'] & Heq & Hmem).
      cbn in Heq. subst l'. eapply elem_of_zip_l. exact Hmem.
Qed.

End Embedding.

Lemma batch_embeddings_follow_request_order_witness :
  (exists σ',
     _process_batch length_model_constructor (requests 2) sample_world = (Ok tt, σ')
     /\ encode_calls σ' = [["text 0"; "text 1"]]
     /\ debug_log σ' = [("req_0", 1); ("req_1", 1)])
  /\ (exists σ',
        process_chunks length_model_constructor sample_chunks_data sample_world
        = (Ok sample_chunks_data, σ')
        /\ chunk_embedding <$> chunk_objs σ' !! 0 = Some (Some [5 # 1])
        /\ chunk_embedding <$> chunk_objs σ' !! 1 = Some (Some [2 # 1])).
Proof.
  split.
  - destruct (batch_embeddings_follow_request_order length_model_constructor
                sample_world length_model (requests 2) _ eq_refl eq_refl)
      as [(σ' & Hrun & Hcalls & Hlog & _) _].
    exists σ'. split; [exact Hrun|]. split; [exact Hcalls | exact Hlog].
  - destruct (batch_embeddings_follow_request_order length_model_constructor
                sample_world length_model
                (chunk_requests (Some (VStr "doc-1")) (chunk_objs sample_world) [0; 1])
                _ eq_refl eq_refl)
      as [_ H].
    destruct (H sample_chunks_data [0; 1] eq_refl ltac:(discriminate)
                ltac:(compute_done) eq_refl)
      as (σ' & Hrun & _ & Hattach & _).
    exists σ'. split; [exact Hrun|].
    destruct (Hattach 0 0 eq_refl) as [_ H0].
    destruct (Hattach 1 1 eq_refl) as [_ H1].
    assert (E0 : chunk_objs σ' !! 0 = Some (set_embedding [5 # 1] (chunk "c0" "alpha")))
      by exact H0.
    assert (E1 : chunk_objs σ' !! 1 = Some (set_embedding [2 # 1] (chunk "c1" "be")))
      by exact H1.
    rewrite E0, E1. split; reflexivity.
Defined.

(** *** Tables *)

Lemma table_requests_length (document_id : option value) (tables : list Table) :
  length (table_requests document_id tables) = 2 * length tables.
Proof.
  induction tables as [|t tables IH]; simpl; [reflexivity|]. rewrite IH. lia.
Qed.

Lemma table_requests_lookup (document_id : option value) (tables : list Table)
    (i : nat) (t : Table) :
  tables !! i = Some t ->
  table_requests document_id tables !! (2 * i) = Some (schema_request document_id t)
  /\ table_requests document_id tables !! (2 * i + 1)
     = Some (content_request document_id t).
Proof.
  revert i. induction tables as [|t0 tables IH]; intros i H; [discriminate|].
  destruct i as [|i].
  - injection H as ->. split; reflexivity.
  - replace (2 * S i) with (S (S (2 * i))) by lia.
    replace (S (S (2 * i)) + 1) with (S (S (2 * i + 1))) by lia.
    cbn [table_requests lookup list_lookup]. apply IH. exact H.
Qed.

(** Only the first five rows of a table go into its content text. *)
Lemma table_content_first_rows (data : list (list value)) :
  _table_content_to_text data = _table_content_to_text (take 5 data).
Proof.
  destruct data as [|row data]; [reflexivity|].
  assert (Hslice : forall rows : list (list value), slice_to 5 rows = take 5 rows)
    by reflexivity.
  change (take 5 (row :: data)) with (row :: take 4 data).
  unfold _table_content_to_text. rewrite !Hslice.
  change (take 5 (row :: take 4 data)) with (row :: take 4 (take 4 data)).
  rewrite take_take. reflexivity.
Qed.

Lemma attach_table_embeddings_run (embeddings : list Vec) (i : nat) (l : loc)
    (e1 e2 : Vec) (σ : World) :
  embeddings !! (i * 2) = Some e1 ->
  embeddings !! (i * 2 + 1) = Some e2 ->
  attach_table_embeddings embeddings i l σ
  = (Ok tt,
     with_table_objs
       (<[l := set_content_embedding e2 (set_schema_embedding e1 (table_objs σ !!! l))]>
          (table_objs σ)) σ).
Proof.
  intros H1 H2. unfold attach_table_embeddings, bindM, lift, modify, index.
  rewrite H1, H2. f_equal. unfold with_table_objs. cbn.
  rewrite lookup_total_insert_eq, insert_insert_eq. reflexivity.
Qed.

Lemma attach_tables_run (embeddings : list Vec) (tables : list loc) (i0 : nat) (σ : World) :
  NoDup tables ->
  (i0 + length tables) * 2 <= length embeddings ->
  exists σ',
    for_loop (fun '(i, l) => attach_table_embeddings embeddings i l)
      (enumerate_from i0 tables) σ = (Ok tt, σ')
    /\ self σ' = self σ /\ chunk_objs σ' = chunk_objs σ
    /\ encode_calls σ' = encode_calls σ /\ debug_log σ' = debug_log σ
    /\ (forall j l,
          tables !! j = Some l ->
          exists e1 e2,
            embeddings !! ((i0 + j) * 2) = Some e1
            /\ embeddings !! ((i0 + j) * 2 + 1) = Some e2
            /\ table_objs σ' !! l
               = Some (set_content_embedding e2
                         (set_schema_embedding e1 (table_objs σ !!! l))))
    /\ (forall l, l ∉ tables -> table_objs σ' !! l = table_objs σ !! l).
Proof.
  intros Hnd. revert i0 σ. induction Hnd as [|l0 tables Hl0 Hnd IH]; intros i0 σ Hlen.
  - exists σ. repeat split. intros j l H. discriminate.
  - cbn [length] in Hlen.
    destruct (lookup_lt_is_Some_2 embeddings (i0 * 2)) as [e1 He1]; [lia|].
    destruct (lookup_lt_is_Some_2 embeddings (i0 * 2 + 1)) as [e2 He2]; [lia|].
    cbn [enumerate_from for_loop]. unfold bindM at 1.
    rewrite (attach_table_embeddings_run _ _ _ _ _ _ He1 He2).
    set (σ1 := with_table_objs _ σ).
    destruct (IH (S i0) σ1) as (σ' & -> & Hs & Hc & He & Hd & Hin & Hout); [lia|].
    exists σ'. split; [reflexivity|].
    split; [exact Hs|]. split; [exact Hc|]. split; [exact He|]. split; [exact Hd|].
    split.
    + intros [|j] l Hj.
      * injection Hj as <-. exists e1, e2. rewrite Nat.add_0_r.
        split; [exact He1|]. split; [exact He2|].
        rewrite (Hout l0 Hl0). apply lookup_insert_eq.
      * destruct (Hin j l Hj) as (e1' & e2' & H1 & H2 & H3).
        exists e1', e2'. replace (i0 + S j) with (S i0 + j) by lia.
        split; [exact H1|]. split; [exact H2|]. rewrite H3. do 3 f_equal.
        apply lookup_total_insert_ne. intros ->. apply Hl0.
        apply list_elem_of_lookup. eauto.
    + intros l Hl. apply not_elem_of_cons in Hl. destruct Hl as [Hne Hl].
      rewrite (Hout l Hl). apply lookup_insert_ne. congruence.
Qed.

Section TableEmbedding.

Variable SentenceTransformer : string -> result Model.

Lemma process_tables_nonempty (tables_data : TablesData) (tables : list loc) (σ : World) :
  td_tables tables_data = Some tables ->
  tables <> [] ->
  process_tables SentenceTransformer tables_data σ
  = (let (r, σ1) :=
       _get_embeddings SentenceTransformer
         (map req_text
            (table_requests (td_document_id tables_data)
               (map (fun l => table_objs σ !!! l) tables))) σ in
     match r with
     | Ok embeddings =>
         bindM
           (for_loop (fun '(i, l) => attach_table_embeddings embeddings i l)
              (enumerate_from 0 tables))
           (fun _ => ret tables_data) σ1
     | Raise e => (Raise e, σ1)
     end).
Proof.
  intros H Hne. unfold process_tables. rewrite H.
  destruct tables; [congruence | reflexivity].
Qed.

(** C10: [process_tables] builds two requests per table, in table
    order, the schema request before the content request, the content
    text being made of the first five data rows at most; when the model
    returns one embedding per request, table [i] gets the embedding at
    position [2i] as its schema embedding and the one at position
    [2i + 1] as its content embedding, that is, the embeddings of its own
    two requests, and no other table is touched. *)
Theorem tables_get_their_own_embeddings (σ : World) (model : Model)
    (tables_data : TablesData) (tables : list loc) (embeddings : list Vec) :
  let document_id := td_document_id tables_data in
  let requests := table_requests document_id (map (fun l => table_objs σ !!! l) tables) in
  provider SentenceTransformer σ = Ok model ->
  td_tables tables_data = Some tables ->
  NoDup tables ->
  model (map req_text requests) = Ok embeddings ->
  length embeddings = length requests ->
  length requests = 2 * length tables
  /\ (forall i l,
        tables !! i = Some l ->
        requests !! (2 * i) = Some (schema_request document_id (table_objs σ !!! l))
        /\ requests !! (2 * i + 1) = Some (content_request document_id (table_objs σ !!! l))
        /\ req_text (content_request document_id (table_objs σ !!! l))
           = _table_content_to_text (take 5 (default [] (table_data (table_objs σ !!! l)))))
  /\ exists σ',
       process_tables SentenceTransformer tables_data σ = (Ok tables_data, σ')
       /\ (tables <> [] -> encode_calls σ' = encode_calls σ ++ [map req_text requests])
       /\ (forall i l,
             tables !! i = Some l ->
             exists e1 e2,
               embeddings !! (2 * i) = Some e1
               /\ embeddings !! (2 * i + 1) = Some e2
               /\ table_objs σ' !! l
                  = Some (set_content_embedding e2
                            (set_schema_embedding e1 (table_objs σ !!! l))))
       /\ (forall l, l ∉ tables -> table_objs σ' !! l = table_objs σ !! l).
Proof.
  intros document_id requests Hprov Htables Hnd Hmodel Hlen.
  assert (Hreq : length requests = 2 * length tables).
  { unfold requests. rewrite table_requests_length, length_map. reflexivity. }
  split; [exact Hreq|]. split.
  - intros i l Hl.
    destruct (table_requests_lookup document_id (map (fun l => table_objs σ !!! l) tables)
                i (table_objs σ !!! l)) as [H1 H2].
    { rewrite list_lookup_fmap, Hl. reflexivity. }
    split; [exact H1|]. split; [exact H2|]. apply table_content_first_rows.
  - destruct (decide (tables = [])) as [->|Hne].
    + exists σ. unfold process_tables. rewrite Htables.
      split; [reflexivity|]. split; [congruence|]. split; [|reflexivity].
      intros i l H. discriminate.
    + destruct (get_embeddings_run SentenceTransformer (map req_text requests) σ model Hprov)
        as (σ1 & Hrun & _ & _ & Hobjs & Hcalls & _).
      rewrite (process_tables_nonempty _ _ _ Htables Hne). fold document_id requests.
      rewrite Hrun, Hmodel. unfold bindM.
      destruct (attach_tables_run embeddings tables 0 σ1 Hnd)
        as (σ' & -> & _ & _ & He & _ & Hin & Hout); [cbn; lia|].
      exists σ'. split; [reflexivity|].
      split; [intros _; rewrite He; exact Hcalls|]. split.
      * intros i l Hl. destruct (Hin i l Hl) as (e1 & e2 & H1 & H2 & H3).
        exists e1, e2. cbn [Nat.add] in H1, H2.
        replace (2 * i) with (i * 2) by lia.
        split; [exact H1|]. split; [exact H2|]. rewrite H3, Hobjs. reflexivity.
      * intros l Hl. rewrite (Hout l Hl), Hobjs. reflexivity.
Qed.

End TableEmbedding.

Lemma tables_get_their_own_embeddings_witness :
  exists σ',
    process_tables length_model_constructor sample_tables_data sample_world
    = (Ok sample_tables_data, σ')
    /\ encode_calls σ'
       = [[ "Column: temp, Type: float, Unit: C"; "37, a; 25, b";
            ""; "1; 2; 3; 4; 5" ]]
    /\ schema_embedding <$> table_objs σ' !! 0 = Some (Some [34 # 1])
    /\ content_embedding <$> table_objs σ' !! 0 = Some (Some [12 # 1])
    /\ schema_embedding <$> table_objs σ' !! 1 = Some (Some [0 # 1])
    /\ content_embedding <$> table_objs σ' !! 1 = Some (Some [13 # 1]).
Proof.
  destruct (tables_get_their_own_embeddings length_model_constructor sample_world
              length_model sample_tables_data [0; 1] _
              eq_refl eq_refl ltac:(compute_done) eq_refl eq_refl)
    as (_ & _ & σ' & Hrun & Hcalls & Hattach & _).
  exists σ'. split; [exact Hrun|].
  split; [exact (Hcalls ltac:(discriminate))|].
  destruct (Hattach 0 0 eq_refl) as (e1 & e2 & H1 & H2 & H0).
  injection H1 as <-. injection H2 as <-.
  destruct (Hattach 1 1 eq_refl) as (e3 & e4 & H3 & H4 & H5).
  injection H3 as <-. injection H4 as <-.
  rewrite H0, H5. repeat split.
Defined.

(** *** A failing model *)

(** When the model fails on a batch, [_process_batch] raises the
    model's exception: the call is on record, no embedding is logged, and
    the requests of the batch are not put back into the queue. *)
Lemma process_batch_model_failure (SentenceTransformer : string -> result Model)
    (σ : World) (model : Model) (batch : list EmbeddingRequest) (e : exn) :
  provider SentenceTransformer σ = Ok model ->
  model (map req_text batch) = Raise e ->
  exists σ',
    _process_batch SentenceTransformer batch σ = (Raise e, σ')
    /\ encode_calls σ' = encode_calls σ ++ [map req_text batch]
    /\ debug_log σ' = debug_log σ
    /\ request_queue (self σ') = request_queue (self σ).
Proof.
  intros Hprov Hmodel.
  destruct (get_embeddings_run SentenceTransformer (map req_text batch) σ model Hprov)
    as (σ1 & Hrun & _ & _ & _ & Hcalls & Hlog & Hq).
  exists σ1. unfold _process_batch, bindM. rewrite Hrun, Hmodel. auto.
Qed.

Lemma process_batch_model_failure_witness :
  exists σ',
    _process_batch (fun _ => Ok failing_model) (requests 2) sample_world
    = (Raise (ProviderError "EncodingError"), σ')
    /\ debug_log σ' = [].
Proof.
  destruct (process_batch_model_failure (fun _ => Ok failing_model) sample_world
              failing_model (requests 2) (ProviderError "EncodingError") eq_refl eq_refl)
    as (σ' & Hrun & _ & Hlog & _).
  exists σ'. split; [exact Hrun | exact Hlog].
Defined.

(** When the model returns fewer embeddings than requests,
    [process_tables] raises [IndexError]. *)
Lemma process_tables_short_answer :
  exists σ',
    process_tables (fun _ => Ok silent_model) sample_tables_data sample_world
    = (Raise IndexError, σ').
Proof. eexists. vm_compute. reflexivity. Qed.

End EmbedFacts.

(** ** More facts about the Python layer *)

Module PyMore.

Import PyFacts.

(** A loop that raises raises the exception of one of its items. *)
Lemma for_each_Raise {A B : Type} (f : A -> result B) (l : list A) (e : exn) :
  for_each f l = Raise e <-> exists l1 x l2,
    l = l1 ++ x :: l2 /\ f x = Raise e /\ Forall (fun y => exists b, f y = Ok b) l1.
Proof.
  split.
  - induction l as [|x l IH]; simpl; [discriminate|].
    destruct (f x) as [y|e'] eqn:Ex; simpl.
    + destruct (for_each f l) as [ys|e'] eqn:El; simpl; [discriminate|].
      intros [= ->]. destruct (IH eq_refl) as (l1 & x' & l2 & -> & Hx' & Hl1).
      exists (x :: l1), x', l2. split; [reflexivity|]. split; [exact Hx'|].
      constructor; eauto.
    + intros [= ->]. exists [], x, l. repeat split; [exact Ex | constructor].
  - intros (l1 & x & l2 & -> & Hx & Hl1).
    induction Hl1 as [|y l1 [b Hy] _ IH]; simpl.
    + rewrite Hx. reflexivity.
    + rewrite Hy. simpl. rewrite IH. reflexivity.
Qed.

(** A loop over a rearranged list returns the rearranged results. *)
Lemma for_each_perm {A B : Type} (f : A -> result B) (l l' : list A) (ys : list B) :
  l ≡ₚ l' ->
  for_each f l = Ok ys ->
  exists ys', for_each f l' = Ok ys' /\ ys ≡ₚ ys'.
Proof.
  intros Hp. revert ys. induction Hp as [|x l l' _ IH|x y l|l l' l'' _ IH1 _ IH2]; intros ys.
  - intros [= <-]. exists []. split; reflexivity.
  - simpl. destruct (f x) as [b|]; simpl; [|discriminate].
    destruct (for_each f l) as [bs|]; simpl; [|discriminate].
    intros [= <-]. destruct (IH bs eq_refl) as (bs' & -> & Hbs).
    exists (b :: bs'). split; [reflexivity|]. constructor. exact Hbs.
  - simpl. destruct (f y) as [b|]; simpl; [|discriminate].
    destruct (f x) as [a|]; simpl; [|discriminate].
    destruct (for_each f l) as [bs|]; simpl; [|discriminate].
    intros [= <-]. exists (a :: b :: bs). split; [reflexivity|]. apply perm_swap.
  - intros H. destruct (IH1 ys H) as (ys' & H' & Hp1).
    destruct (IH2 ys' H') as (ys'' & H'' & Hp2).
    exists ys''. split; [exact H''|]. etrans; eassumption.
Qed.

Lemma slice_to_all {A : Type} (n : Z) (l : list A) :
  (Z.of_nat (length l) <= n)%Z -> slice_to n l = l.
Proof.
  intros H. unfold slice_to.
  destruct (0 <=? n)%Z eqn:E; [|apply Z.leb_gt in E; lia].
  apply firstn_all2. lia.
Qed.

Lemma slice_to_negative_length {A : Type} (n : Z) (l : list A) :
  (n < 0)%Z -> length (slice_to n l) = Z.to_nat (Z.of_nat (length l) + n).
Proof.
  intros H. unfold slice_to.
  destruct (0 <=? n)%Z eqn:E; [apply Z.leb_le in E; lia|].
  rewrite length_firstn. lia.
Qed.

End PyMore.

(** ** More about the RAG worker *)

Module RAGMore.

Import RAG Spec MoreSpec Inputs MoreInputs PyFacts PyMore RAGFacts.

Lemma make_citation_first_missing (ev : Evidence) :
  match first_missing_key ev with
  | Some k => make_citation ev = Raise (KeyError k)
  | None => exists c, make_citation ev = Ok c
  end.
Proof.
  unfold first_missing_key, make_citation.
  destruct (ev_type ev) as [ty|]; [|reflexivity].
  destruct (ev_document_id ev) as [doc|]; [|reflexivity].
  destruct (ev_content ev) as [body|]; [|reflexivity].
  destruct (ev_score ev) as [sc|]; [|reflexivity].
  cbn [item Py.bind].
  destruct (decide (ty = "text_chunk")).
  - destruct (ev_chunk_id ev); simpl; eauto.
  - destruct (decide (ty = "table")).
    + destruct (ev_table_id ev); simpl; eauto.
    + eauto.
Qed.

Lemma first_missing_well_keyed (ev : Evidence) :
  first_missing_key ev = None <-> well_keyed ev.
Proof.
  rewrite make_citation_returns.
  pose proof (make_citation_first_missing ev) as H.
  destruct (first_missing_key ev) as [k|]; split; auto.
  - discriminate.
  - intros [c Hc]. congruence.
Qed.

(** Once the citations are built, only the plan can make
    [generate_answer] fail. *)
Lemma generate_answer_after_citations (question : string) (evidence : list Evidence)
    (plan : Plan) (cites : list Citation) :
  for_each make_citation evidence = Ok cites ->
  evidence = [] \/ is_Some (approach plan) ->
  exists ans, generate_answer question evidence plan = Ok ans.
Proof.
  intros Hc Hplan. apply generate_answer_complete; [|exact Hplan].
  apply for_each_Ok_Forall in Hc. eapply Forall_impl; [exact Hc|].
  intros ev. apply make_citation_returns.
Qed.

(** Complete evidence under a plan without an ['approach']: the
    answer is put together up to its reasoning, where the key is
    missed. *)
Lemma generate_answer_without_approach (question : string) (evidence : list Evidence)
    (plan : Plan) :
  evidence <> [] ->
  Forall well_keyed evidence ->
  approach plan = None ->
  generate_answer question evidence plan = Raise (KeyError "approach").
Proof.
  intros Hne H Hnone. destruct evidence as [|ev rest]; [congruence|].
  unfold generate_answer.
  destruct (for_each_returns make_citation (ev :: rest)) as [cites ->].
  { eapply Forall_impl; [exact H|]. intros e He. apply make_citation_returns, He. }
  destruct (for_each_returns (fun e => item "score" (ev_score e)) (ev :: rest))
    as [scores ->].
  { eapply Forall_impl; [exact H|]. intros e (ty & _ & _ & _ & [s ->] & _). simpl. eauto. }
  unfold _generate_answer_text.
  destruct (evidence_parts_returns (ev :: rest) 1 H) as [parts ->].
  rewrite Hnone. reflexivity.
Qed.

(** When [generate_answer] raises, it raises a [KeyError]: that of the
    first key that the first incomplete evidence dict lacks, in the order
    the keys are read, or else, the evidence being complete and not
    empty, that of the plan's ['approach']. It raises nothing else, and
    raises only then. *)
Theorem generate_answer_raises_first_missing_key (question : string)
    (evidence : list Evidence) (plan : Plan) (e : exn) :
  generate_answer question evidence plan = Raise e <->
  (exists complete ev rest key,
     evidence = complete ++ ev :: rest
     /\ Forall well_keyed complete
     /\ first_missing_key ev = Some key
     /\ e = KeyError key)
  \/ (evidence <> []
      /\ Forall well_keyed evidence
      /\ approach plan = None
      /\ e = KeyError "approach").
Proof.
  split.
  - intros H.
    destruct (for_each make_citation evidence) as [cites|e'] eqn:Hc.
    + right.
      assert (Hwk : Forall well_keyed evidence).
      { apply for_each_Ok_Forall in Hc. eapply Forall_impl; [exact Hc|].
        intros ev. apply make_citation_returns. }
      assert (Hne : evidence <> []) by (intros ->; discriminate).
      destruct (approach plan) as [how|] eqn:Hhow.
      * destruct (generate_answer_after_citations question evidence plan cites Hc)
          as [ans Hans]; [right; rewrite Hhow; eauto | congruence].
      * rewrite (generate_answer_without_approach _ _ _ Hne Hwk Hhow) in H.
        injection H as <-. repeat split; assumption.
    + left. assert (e' = e).
      { destruct evidence as [|ev rest]; [discriminate|].
        unfold generate_answer in H. rewrite Hc in H. simpl in H. congruence. }
      subst e'. apply for_each_Raise in Hc.
      destruct Hc as (l1 & ev & l2 & -> & Hev & Hl1).
      pose proof (make_citation_first_missing ev) as Hm.
      destruct (first_missing_key ev) as [k|] eqn:Ek.
      * exists l1, ev, l2, k. split; [reflexivity|]. split.
        { eapply Forall_impl; [exact Hl1|]. intros x. apply make_citation_returns. }
        split; [exact Ek | congruence].
      * destruct Hm as [c Hc]. congruence.
  - intros [(l1 & ev & l2 & k & -> & Hl1 & Hk & ->) | (Hne & Hwk & Hnone & ->)].
    + assert (Hc : for_each make_citation (l1 ++ ev :: l2) = Raise (KeyError k)).
      { apply for_each_Raise. exists l1, ev, l2. split; [reflexivity|]. split.
        - pose proof (make_citation_first_missing ev) as Hm. rewrite Hk in Hm. exact Hm.
        - eapply Forall_impl; [exact Hl1|]. intros x. apply make_citation_returns. }
      unfold generate_answer. rewrite Hc.
      destruct (l1 ++ ev :: l2) eqn:E; [|reflexivity].
      destruct l1; discriminate.
    + apply generate_answer_without_approach; assumption.
Qed.

(** What a synthesized answer reports agrees with its evidence: one
    citation per item with the item's score, in order; the count and the
    set of types of the citations; the plan's approach; the mean score,
    from which the confidence differs only by the cap. *)
Theorem answer_accounts_for_evidence (question : string) (evidence : list Evidence)
    (plan : Plan) (ans : Answer) :
  generate_answer question evidence plan = Ok ans ->
  evidence <> [] ->
  length (citations ans) = length evidence
  /\ r_evidence_count (reasoning ans) = length (citations ans)
  /\ map (fun c => Some (c_score c)) (citations ans) = map ev_score evidence
  /\ r_evidence_types (reasoning ans) = Some (list_to_set (map c_type (citations ans)))
  /\ approach plan = Some (r_approach (reasoning ans))
  /\ exists avg,
       r_avg_evidence_score (reasoning ans) = Some avg
       /\ (avg <? confidence ans)%float = false
       /\ (is_number avg -> (confidence ans <=? avg)%float = true)
       /\ ((avg <=? confidence_cap)%float = true -> confidence ans = avg)
       /\ ((confidence_cap <? avg)%float = true -> confidence ans = confidence_cap).
Proof.
  intros H Hne. destruct evidence as [|ev rest]; [congruence|].
  apply generate_answer_synthesizes in H.
  destruct H as (scores & types & how & Hc & Hs & Ht & Hhow & Hconf & Hreason).
  assert (Hlen : length (citations ans) = length (ev :: rest)).
  { symmetry. eapply Forall2_length. exact Hc. }
  split; [exact Hlen|]. rewrite Hreason. cbn [r_evidence_count r_evidence_types
    r_approach r_avg_evidence_score].
  split; [congruence|]. split.
  { clear -Hc. induction Hc as [|e c es cs Hec _ IH]; [reflexivity|].
    cbn [map]. rewrite IH. f_equal.
    apply make_citation_Ok in Hec.
    destruct Hec as (ty & doc & body & sc & _ & _ & _ & Hsc & _ & _ & _ & _ & <- & _).
    symmetry. exact Hsc. }
  split.
  { do 2 f_equal. clear -Hc Ht. revert types Ht.
    induction Hc as [|e c es cs Hec _ IH]; intros types Ht.
    - inversion Ht. reflexivity.
    - inversion Ht as [|e' t es' ts Het Hts]; subst. cbn [map]. f_equal.
      + apply make_citation_Ok in Hec.
        destruct Hec as (ty & doc & body & sc & Hty & _ & _ & _ & <- & _). congruence.
      + apply IH. exact Hts. }
  split; [exact Hhow|].
  eexists. split; [reflexivity|]. rewrite Hconf. unfold confidence_cap.
  split; [apply min_not_above_l|].
  split; [intros Hnum; apply min_le_l; [exact Hnum | reflexivity]|].
  split; [apply min_l | apply min_r].
Qed.

Lemma answer_accounts_for_evidence_witness :
  exists ans,
    generate_answer sample_question (figure_item :: agreeing_evidence)
      (plan_answer sample_question "ws") = Ok ans
    /\ length (citations ans) = 3
    /\ r_evidence_count (reasoning ans) = length (citations ans).
Proof.
  eexists. split; [reflexivity|].
  destruct (answer_accounts_for_evidence sample_question (figure_item :: agreeing_evidence)
              (plan_answer sample_question "ws") _ eq_refl ltac:(discriminate))
    as (Hlen & Hcount & _).
  split; [exact Hlen | exact Hcount].
Defined.


Lemma synthesized_loops (question : string) (ev : Evidence) (rest : list Evidence)
    (plan : Plan) (ans : Answer) :
  generate_answer question (ev :: rest) plan = Ok ans ->
  exists types,
    for_each make_citation (ev :: rest) = Ok (citations ans)
    /\ for_each (fun e => item "type" (ev_type e)) (ev :: rest) = Ok types
    /\ approach plan = Some (r_approach (reasoning ans))
    /\ r_evidence_types (reasoning ans) = Some (list_to_set types)
    /\ r_evidence_count (reasoning ans) = length (ev :: rest).
Proof.
  unfold generate_answer.
  destruct (for_each make_citation (ev :: rest)) as [cites|]; [|discriminate].
  destruct (for_each (fun e => item "score" (ev_score e)) (ev :: rest))
    as [scores|]; [|discriminate].
  destruct (_generate_answer_text question (ev :: rest)) as [txt|]; [|discriminate].
  destruct (approach plan) as [how|]; [|discriminate].
  destruct (for_each (fun e => item "type" (ev_type e)) (ev :: rest))
    as [types|]; [|discriminate].
  cbn [Py.bind item]. intros [= <-]. exists types. repeat split.
Qed.

(** The order of the evidence does not matter to what an answer cites
    and counts: rearranged evidence is answered as well, with the same
    citations, rearranged, and the same evidence types, count and
    approach. (The confidence may change with the order: it is a float
    sum.) *)
Theorem rearranged_evidence_gives_rearranged_citations (question : string)
    (e1 e2 : list Evidence) (plan : Plan) (a1 : Answer) :
  generate_answer question e1 plan = Ok a1 ->
  e1 ≡ₚ e2 ->
  exists a2,
    generate_answer question e2 plan = Ok a2
    /\ citations a1 ≡ₚ citations a2
    /\ r_evidence_types (reasoning a2) = r_evidence_types (reasoning a1)
    /\ r_evidence_count (reasoning a2) = r_evidence_count (reasoning a1)
    /\ r_approach (reasoning a2) = r_approach (reasoning a1).
Proof.
  intros H1 Hp. destruct e1 as [|x1 r1].
  - apply Permutation_nil_l in Hp. subst e2. injection H1 as <-.
    exists insufficient_evidence. repeat split; reflexivity.
  - destruct e2 as [|x2 r2]; [apply Permutation_nil_r in Hp; discriminate|].
    apply synthesized_loops in H1.
    destruct H1 as (t1 & Hc1 & Ht1 & Hhow1 & Hty1 & Hn1).
    destruct (for_each_perm _ _ _ _ Hp Hc1) as (c2 & Hc2 & Hpc).
    destruct (for_each_perm _ _ _ _ Hp Ht1) as (t2 & Ht2 & Hpt).
    destruct (generate_answer_after_citations question (x2 :: r2) plan c2 Hc2) as [a2 H2].
    { right. rewrite Hhow1. eauto. }
    exists a2. split; [exact H2|].
    apply synthesized_loops in H2.
    destruct H2 as (t2' & Hc2' & Ht2' & Hhow2 & Hty2 & Hn2).
    assert (t2' = t2) by congruence.
    assert (citations a2 = c2) by congruence. subst t2' c2.
    split; [exact Hpc|]. split; [|split].
    + rewrite Hty1, Hty2. f_equal. apply leibniz_equiv.
      apply list_to_set_perm. symmetry. exact Hpt.
    + rewrite Hn1, Hn2. symmetry. apply Permutation_length. exact Hp.
    + congruence.
Qed.

Lemma rearranged_evidence_gives_rearranged_citations_witness :
  exists a1 a2,
    generate_answer sample_question (figure_item :: agreeing_evidence)
      (plan_answer sample_question "ws") = Ok a1
    /\ generate_answer sample_question (agreeing_evidence ++ [figure_item])
         (plan_answer sample_question "ws") = Ok a2
    /\ citations a1 ≡ₚ citations a2.
Proof.
  destruct (rearranged_evidence_gives_rearranged_citations sample_question
              (figure_item :: agreeing_evidence) (agreeing_evidence ++ [figure_item])
              (plan_answer sample_question "ws") _ eq_refl)
    as (a2 & H2 & Hcites & _).
  - apply Permutation_cons_append.
  - eexists. exists a2. split; [reflexivity|]. split; [exact H2 | exact Hcites].
Defined.

(** *** Ranking *)

(** The ranking step raises a [KeyError] and nothing else:
    [KeyError('score')] exactly when an item of the pool has no score
    (the sort computes every key first), and otherwise
    [KeyError('max_evidence')] exactly when the plan lacks the key. The
    pool of [retrieve_evidence] itself is fixed and scored, so
    [retrieve_evidence] raises exactly when the plan has no
    ['max_evidence'], and [KeyError('max_evidence')] then. *)
Theorem retrieval_raises_on_missing_keys (pool : list Evidence) (plan : Plan)
    (question workspace_id : string) (e : exn) :
  (rank_evidence pool plan = Raise e <->
   (e = KeyError "score" /\ exists ev, ev ∈ pool /\ ev_score ev = None)
   \/ (e = KeyError "max_evidence"
       /\ Forall (fun ev => is_Some (ev_score ev)) pool
       /\ max_evidence plan = None))
  /\ (retrieve_evidence question workspace_id plan = Raise e <->
      e = KeyError "max_evidence" /\ max_evidence plan = None).
Proof.
  split.
  - unfold rank_evidence, sort_reverse. split.
    + destruct (for_each _ pool) as [keyed|e'] eqn:E.
      * cbn [Py.bind]. destruct (max_evidence plan) as [limit|]; [discriminate|].
        cbn [Py.bind item]. intros [= <-]. right. repeat split.
        apply for_each_Ok_Forall in E. eapply Forall_impl; [exact E|].
        intros ev [p Hp]. cbv beta in Hp. destruct (ev_score ev); [eauto | discriminate].
      * cbn [Py.bind]. intros [= ->]. left. apply for_each_Raise in E.
        destruct E as (l1 & ev & l2 & -> & Hev & _).
        destruct (ev_score ev) as [s|] eqn:Es; [discriminate|].
        simpl in Hev. split; [congruence|]. exists ev. split; [|exact Es].
        apply elem_of_app. right. apply elem_of_cons. left. reflexivity.
    + intros [[-> (ev & Hin & Hev)] | (-> & Hscored & Hnone)].
      * destruct (for_each _ pool) as [keyed|e'] eqn:E.
        -- apply for_each_Ok_Forall in E. rewrite Forall_forall in E.
           destruct (E ev Hin) as [p Hp]. rewrite Hev in Hp. discriminate.
        -- cbn [Py.bind]. apply for_each_Raise in E.
           destruct E as (l1 & x & l2 & _ & Hx & _).
           destruct (ev_score x); simpl in Hx; congruence.
      * destruct (for_each_returns
                    (fun x => Py.bind (item "score" (ev_score x)) (fun k => Ok (k, x))) pool)
          as [keyed ->].
        { eapply Forall_impl; [exact Hscored|]. intros ev [s ->]. simpl. eauto. }
        rewrite Hnone. reflexivity.
  - rewrite retrieve_evidence_mock.
    destruct (max_evidence plan) as [limit|]; simpl; split.
    + discriminate.
    + intros [_ H]. discriminate.
    + intros [= <-]. split; reflexivity.
    + intros [-> _]. reflexivity.
Qed.

(** Ranking is idempotent: a ranked list, ranked again under the same
    plan, comes back unchanged. *)
Theorem ranking_is_idempotent (pool ranked : list Evidence) (plan : Plan) (limit : Z) :
  max_evidence plan = Some limit ->
  (0 <= limit)%Z ->
  rank_evidence pool plan = Ok ranked ->
  rank_evidence ranked plan = Ok ranked.
Proof.
  intros Hlimit Hmax H.
  pose proof (rank_evidence_length _ _ _ _ Hlimit Hmax H) as Hlen.
  apply rank_evidence_Ok in H. destruct H as (sorted & limit' & Hsort & Hl' & ->).
  assert (limit' = limit) as -> by congruence.
  unfold slice_to in *. destruct (0 <=? limit)%Z eqn:E; [|apply Z.leb_gt in E; lia].
  unfold rank_evidence.
  rewrite (sort_reverse_prefix_id _ pool sorted _ Hsort), Hlimit.
  cbn [Py.bind item]. f_equal. unfold slice_to. rewrite E.
  apply firstn_all2. lia.
Qed.

Lemma ranking_is_idempotent_witness :
  exists ranked,
    rank_evidence mixed_pool plan_top2 = Ok ranked
    /\ ranked <> mixed_pool
    /\ rank_evidence ranked plan_top2 = Ok ranked.
Proof.
  eexists. split; [reflexivity|]. split; [discriminate|].
  apply (ranking_is_idempotent mixed_pool _ plan_top2 2).
  - reflexivity.
  - discriminate.
  - reflexivity.
Defined.

(** A plan whose [max_evidence] is 0 leaves no evidence, whatever the
    pool, and the question is answered with the insufficient-evidence
    answer; a negative [max_evidence] does not empty the list but cuts
    that many items off its low end. *)
Theorem nonpositive_max_evidence (question : string) (pool ranked : list Evidence)
    (plan : Plan) (limit : Z) :
  max_evidence plan = Some limit ->
  (limit <= 0)%Z ->
  rank_evidence pool plan = Ok ranked ->
  (limit = 0%Z ->
   ranked = [] /\ generate_answer question ranked plan = Ok insufficient_evidence)
  /\ ((limit < 0)%Z ->
      length ranked = Z.to_nat (Z.of_nat (length pool) + limit)).
Proof.
  intros Hlimit Hmax H.
  pose proof (rank_evidence_prefix _ _ _ H) as (limit' & dropped & Hl' & _ & Hperm & Hslice).
  assert (limit' = limit) as -> by congruence.
  apply Permutation_length in Hperm. split.
  - intros H0. assert (ranked = []) as ->; [|split; reflexivity].
    rewrite Hslice, H0. reflexivity.
  - intros Hneg. rewrite Hslice at 1.
    rewrite slice_to_negative_length by exact Hneg. rewrite Hperm. reflexivity.
Qed.

Lemma nonpositive_max_evidence_witness :
  (exists ranked,
     rank_evidence mixed_pool (plan_with 0) = Ok ranked
     /\ generate_answer sample_question ranked (plan_with 0) = Ok insufficient_evidence)
  /\ (exists ranked,
        rank_evidence mixed_pool (plan_with (-1)) = Ok ranked /\ length ranked = 2).
Proof.
  split.
  - eexists. split; [reflexivity|].
    apply (nonpositive_max_evidence sample_question mixed_pool _ (plan_with 0) 0);
      [reflexivity | discriminate | reflexivity | reflexivity].
  - eexists. split; [reflexivity|].
    apply (nonpositive_max_evidence sample_question mixed_pool _ (plan_with (-1)) (-1));
      [reflexivity | discriminate | reflexivity | reflexivity].
Defined.

(** *** The answer text *)

(** The parts of the answer text are the sentences of the evidence:
    items of other types than text chunk and table get none, and use up
    a number all the same. *)
Lemma evidence_parts_sentences (evidence : list Evidence) (i : nat) (parts : list string) :
  evidence_parts i evidence = Ok parts ->
  parts = map (fun p => sentence_for p.1 p.2)
            (List.filter (fun p => mentioned p.2) (Embed.enumerate_from i evidence)).
Proof.
  revert i parts. induction evidence as [|ev rest IH]; intros i parts.
  - intros [= <-]. reflexivity.
  - cbn [evidence_parts Embed.enumerate_from List.filter snd]. unfold mentioned at 1.
    destruct (ev_type ev) as [ty|] eqn:Ety; simpl; [|discriminate].
    destruct (decide (ty = "text_chunk")) as [E|E].
    + rewrite (bool_decide_eq_true_2 _ E). simpl.
      destruct (ev_content ev) as [body|] eqn:Ebody; simpl; [|discriminate].
      destruct (evidence_parts (S i) rest) as [ps|] eqn:Hps; simpl; [|discriminate].
      intros [= <-]. cbn [map fst snd]. f_equal; [|apply IH, Hps].
      unfold sentence_for. rewrite Ety, Ebody, E.
      rewrite bool_decide_eq_true_2 by reflexivity. reflexivity.
    + rewrite (bool_decide_eq_false_2 _ E). simpl.
      destruct (decide (ty = "table")) as [E'|E'].
      * rewrite (bool_decide_eq_true_2 _ E').
        destruct (evidence_parts (S i) rest) as [ps|] eqn:Hps; simpl; [|discriminate].
        intros [= <-]. cbn [map fst snd]. f_equal; [|apply IH, Hps].
        unfold sentence_for. rewrite Ety.
        rewrite bool_decide_eq_false_2 by congruence. reflexivity.
      * rewrite (bool_decide_eq_false_2 _ E'). apply IH.
Qed.

(** The text of a synthesized answer is the fixed preamble that
    quotes the question, the sentences of the evidence, and the pointer
    to the citations, joined by single spaces. There is one sentence for
    each text chunk and each table, in evidence order, numbered with the
    position of its item in the evidence; an item of any other type has
    no sentence, though it is cited and counted like the others. *)
Theorem answer_text_mentions_chunks_and_tables (question : string)
    (evidence : list Evidence) (plan : Plan) (ans : Answer) :
  generate_answer question evidence plan = Ok ans ->
  evidence <> [] ->
  text ans = String.concat " " (preamble question :: sentences evidence ++ [closing])
  /\ length (citations ans) = length evidence.
Proof.
  intros H Hne. destruct evidence as [|ev rest]; [congruence|].
  pose proof (generate_answer_synthesizes _ _ _ _ _ H) as (_ & _ & _ & Hc & _).
  unfold generate_answer in H.
  destruct (for_each make_citation (ev :: rest)) as [cites|]; [|discriminate].
  destruct (for_each (fun e => item "score" (ev_score e)) (ev :: rest))
    as [scores|]; [|discriminate].
  unfold _generate_answer_text in H.
  destruct (evidence_parts 1 (ev :: rest)) as [parts|] eqn:Hparts; [|discriminate].
  destruct (approach plan) as [how|]; [|discriminate].
  destruct (for_each (fun e => item "type" (ev_type e)) (ev :: rest))
    as [types|]; [|discriminate].
  cbn [Py.bind item] in H. injection H as <-. cbn [text citations].
  split.
  - rewrite (evidence_parts_sentences _ _ _ Hparts). reflexivity.
  - symmetry. eapply Forall2_length. exact Hc.
Qed.

Lemma answer_text_mentions_chunks_and_tables_witness :
  exists ans,
    generate_answer sample_question (figure_item :: agreeing_evidence)
      (plan_answer sample_question "ws") = Ok ans
    /\ text ans
       = String.concat " "
           [ preamble sample_question;
             "Evidence 2: The optimal temperature is 37 C....";
             "Evidence 3: The optimal temperature is 37 C....";
             closing ]
    /\ length (citations ans) = 3.
Proof.
  destruct (answer_text_mentions_chunks_and_tables sample_question
              (figure_item :: agreeing_evidence) (plan_answer sample_question "ws")
              _ eq_refl ltac:(discriminate))
    as (Htext & Hcites).
  eexists. split; [reflexivity|]. split; [exact Htext | exact Hcites].
Defined.

End RAGMore.

(** ** More about the embed worker *)

Module EmbedMore.

Import Embed EmbedLoop Spec MoreSpec Inputs MoreInputs PyFacts PyMore EmbedFacts.

(** *** Submissions *)

(** What a run of submissions comes to. *)
Lemma submit_all_run (requests : list EmbeddingRequest)
    (w : EmbedWorker) :
  consistent w ->
  (pending w <= max_queue_size w)%Z ->
  let free := Z.to_nat (max_queue_size w - pending w) in
  exists w',
    submit_all w requests
    = Returned (replicate (Nat.min (length requests) free) true
                  ++ replicate (length requests - free) false, w')
    /\ items (request_queue w') = items (request_queue w) ++ take free requests
    /\ batch_size w' = batch_size w
    /\ embedding_model w' = embedding_model w
    /\ processing w' = processing w.
Proof.
  revert w. induction requests as [|r rest IH]; intros w Hc Hle free.
  - exists w. cbn. rewrite take_nil, app_nil_r. repeat split.
  - cbn [submit_all].
    destruct (Z.eq_dec (pending w) (max_queue_size w)) as [Hfull|Hfree].
    + rewrite add_request_full by lia.
      destruct (IH w Hc Hle) as (w' & -> & Hi & Hb & Hm & Hp).
      assert (free = 0) as -> by (unfold free; lia).
      exists w'. replace (Z.to_nat (max_queue_size w - pending w)) with 0 in * by lia.
      rewrite !Nat.min_0_r, !Nat.sub_0_r in *. cbn [replicate app length take] in *.
      repeat split; assumption.
    + rewrite add_request_free by (auto; lia).
      set (w1 := set_queue _ w).
      assert (Hp1 : pending w1 = (pending w + 1)%Z).
      { unfold pending, qsize, w1. simpl. rewrite length_app. simpl. lia. }
      assert (Hc1 : consistent w1) by exact Hc.
      destruct (IH w1 Hc1) as (w' & -> & Hi & Hb & Hm & Hp).
      { rewrite Hp1. change (max_queue_size w1) with (max_queue_size w). lia. }
      change (max_queue_size w1) with (max_queue_size w) in *. rewrite Hp1 in *.
      exists w'.
      assert (Hslots : free = S (Z.to_nat (max_queue_size w - (pending w + 1))))
        by (unfold free; lia).
      rewrite Hslots. cbn [length Nat.min replicate app Nat.sub take].
      split; [reflexivity|]. split; [|repeat split; assumption].
      rewrite Hi. unfold w1. cbn. rewrite <- app_assoc. reflexivity.
Qed.

(** Submissions are queued in the order they are made, behind what is
    pending: the first ones fill the free slots and are answered [True],
    all later ones are answered [False] and are lost, and nothing else of
    the worker changes. *)
Theorem submissions_fill_free_slots_in_order (requests : list EmbeddingRequest)
    (w : EmbedWorker) :
  consistent w ->
  (pending w <= max_queue_size w)%Z ->
  let free := Z.to_nat (max_queue_size w - pending w) in
  exists w',
    submit_all w requests
    = Returned (replicate (Nat.min (length requests) free) true
                  ++ replicate (length requests - free) false, w')
    /\ items (request_queue w') = items (request_queue w) ++ take free requests
    /\ batch_size w' = batch_size w
    /\ embedding_model w' = embedding_model w
    /\ processing w' = processing w.
Proof. exact (submit_all_run requests w). Qed.

Lemma submissions_fill_free_slots_in_order_witness :
  exists w',
    submit_all (init 32 2) (Inputs.requests 3) = Returned ([true; true; false], w')
    /\ items (request_queue w') = Inputs.requests 2.
Proof.
  destruct (submissions_fill_free_slots_in_order (Inputs.requests 3) (init 32 2))
    as (w' & Hrun & Hitems & _).
  - reflexivity.
  - discriminate.
  - exists w'. split; [exact Hrun | exact Hitems].
Defined.

(** A worker whose [max_queue_size] is zero or negative accepts
    nothing: every submission is answered [False] and the worker stays as
    it is. *)
Theorem nonpositive_capacity_refuses_all (requests : list EmbeddingRequest)
    (w : EmbedWorker) :
  (max_queue_size w <= 0)%Z ->
  submit_all w requests = Returned (replicate (length requests) false, w).
Proof.
  intros H. induction requests as [|r rest IH]; [reflexivity|].
  cbn [submit_all]. rewrite add_request_full.
  - rewrite IH. reflexivity.
  - unfold pending, qsize. lia.
Qed.

Lemma nonpositive_capacity_refuses_all_witness :
  submit_all (init 32 0) (Inputs.requests 3) = Returned ([false; false; false], init 32 0).
Proof.
  apply (nonpositive_capacity_refuses_all (Inputs.requests 3) (init 32 0)).
  discriminate.
Defined.

(** *** Loading the model *)

Section Loading.

Variable SentenceTransformer : string -> result Model.

(** What [_get_embeddings] leaves alone, whatever happens. *)
Lemma get_embeddings_frame (texts : list string) (σ : World) :
  let σ1 := (_get_embeddings SentenceTransformer texts σ).2 in
  chunk_objs σ1 = chunk_objs σ
  /\ table_objs σ1 = table_objs σ
  /\ debug_log σ1 = debug_log σ
  /\ request_queue (self σ1) = request_queue (self σ)
  /\ batch_size (self σ1) = batch_size (self σ)
  /\ max_queue_size (self σ1) = max_queue_size (self σ)
  /\ processing (self σ1) = processing (self σ).
Proof.
  unfold _get_embeddings, _load_embedding_model, bindM, reads.
  destruct (embedding_model (self σ)) as [m|] eqn:Em; cbn.
  - rewrite Em. cbn. repeat split.
  - destruct (SentenceTransformer "all-MiniLM-L6-v2") as [m|e]; cbn; repeat split.
Qed.

(** The model is built once: after a call of [_get_embeddings] that
    found or built the model, the worker holds it, and every later call
    encodes with it without turning to the constructor again, whatever
    the constructor would do by then. *)
Theorem model_is_built_once (texts : list string) (σ : World) (model : Model) :
  provider SentenceTransformer σ = Ok model ->
  exists σ1,
    _get_embeddings SentenceTransformer texts σ = (model texts, σ1)
    /\ embedding_model (self σ1) = Some model
    /\ forall (constructor : string -> result Model) (texts' : list string),
         exists σ2,
           _get_embeddings constructor texts' σ1 = (model texts', σ2)
           /\ self σ2 = self σ1
           /\ encode_calls σ2 = encode_calls σ ++ [texts; texts'].
Proof.
  intros Hprov. unfold provider in Hprov.
  unfold _get_embeddings, _load_embedding_model, bindM, reads.
  destruct (embedding_model (self σ)) as [m|] eqn:Em.
  - injection Hprov as ->. cbn. rewrite Em. cbn.
    eexists. split; [reflexivity|]. cbn. split; [exact Em|].
    intros constructor texts'. rewrite Em. cbn. rewrite Em. cbn.
    eexists. split; [reflexivity|]. cbn. rewrite <- app_assoc. split; reflexivity.
  - rewrite Hprov. cbn. eexists. split; [reflexivity|]. cbn. split; [reflexivity|].
    intros constructor texts'. cbn.
    eexists. split; [reflexivity|]. cbn. rewrite <- app_assoc. split; reflexivity.
Qed.

(** When the model cannot be built, every entry point that needs
    embeddings raises the constructor's exception and leaves the state as
    it was: no call to a model is on record, nothing is attached or
    logged, and the model stays unloaded, so that the next call tries the
    constructor again. *)
Theorem model_unavailable (σ : World) (e : exn) :
  embedding_model (self σ) = None ->
  SentenceTransformer "all-MiniLM-L6-v2" = Raise e ->
  (forall texts, _get_embeddings SentenceTransformer texts σ = (Raise e, σ))
  /\ (forall batch, _process_batch SentenceTransformer batch σ = (Raise e, σ))
  /\ (forall chunks_data chunks,
        cd_chunks chunks_data = Some chunks -> chunks <> [] ->
        process_chunks SentenceTransformer chunks_data σ = (Raise e, σ))
  /\ (forall tables_data tables,
        td_tables tables_data = Some tables -> tables <> [] ->
        process_tables SentenceTransformer tables_data σ = (Raise e, σ)).
Proof.
  intros Hnone Hfail.
  assert (Hget : forall texts, _get_embeddings SentenceTransformer texts σ = (Raise e, σ)).
  { intros texts. unfold _get_embeddings, _load_embedding_model, bindM, reads.
    rewrite Hnone. cbn. rewrite Hfail. reflexivity. }
  split; [exact Hget|]. split; [|split].
  - intros batch. unfold _process_batch, bindM. rewrite Hget. reflexivity.
  - intros chunks_data chunks Hc Hne.
    rewrite (process_chunks_nonempty _ _ _ _ Hc Hne), Hget. reflexivity.
  - intros tables_data tables Ht Hne.
    rewrite (process_tables_nonempty _ _ _ _ Ht Hne), Hget. reflexivity.
Qed.

End Loading.

Lemma model_is_built_once_witness :
  exists σ1 σ2,
    _get_embeddings length_model_constructor ["a"] sample_world = (Ok [[1 # 1]], σ1)
    /\ _get_embeddings failing_constructor ["bc"] σ1 = (Ok [[2 # 1]], σ2)
    /\ encode_calls σ2 = [["a"]; ["bc"]].
Proof.
  destruct (model_is_built_once length_model_constructor ["a"] sample_world length_model
              eq_refl) as (σ1 & H1 & _ & Hnext).
  destruct (Hnext failing_constructor ["bc"]) as (σ2 & H2 & _ & Hcalls).
  exists σ1, σ2. split; [exact H1|]. split; [exact H2 | exact Hcalls].
Defined.

Lemma model_unavailable_witness :
  _process_batch failing_constructor (Inputs.requests 2) sample_world
  = (Raise (ProviderError "ModelUnavailable"), sample_world).
Proof.
  apply (model_unavailable failing_constructor sample_world
           (ProviderError "ModelUnavailable") eq_refl eq_refl).
Defined.

(** *** Chunks *)

(** The attaching loop of [process_chunks], whatever the pairs: a
    chunk that is not among them is left alone, a chunk that is gets the
    embedding of one of its pairs, and no chunk changes in anything but
    its embedding. *)
Lemma attach_chunks_any (pairs : list (loc * Vec)) (h : gmap loc Chunk) :
  let h' := foldl (fun h p => <[p.1 := set_embedding p.2 (h !!! p.1)]> h) h pairs in
  (forall l, l ∉ pairs.*1 -> h' !! l = h !! l)
  /\ (forall l, l ∈ pairs.*1 ->
        exists e, (l, e) ∈ pairs /\ h' !! l = Some (set_embedding e (h !!! l)))
  /\ (forall l, same_but_embedding (h !!! l) (h' !!! l)).
Proof.
  revert h. induction pairs as [|[l0 e0] pairs IH]; intros h; cbn zeta.
  - split; [reflexivity|]. split; [intros l Hl; inversion Hl|].
    intros l. repeat split.
  - cbn [foldl fst snd].
    destruct (IH (<[l0 := set_embedding e0 (h !!! l0)]> h)) as (IH1 & IH2 & IH3).
    cbn zeta in IH1, IH2, IH3. split; [|split].
    + intros l Hl. cbn [fmap list_fmap fst] in Hl.
      apply not_elem_of_cons in Hl. destruct Hl as [Hne Hl].
      rewrite IH1 by exact Hl. apply lookup_insert_ne. congruence.
    + intros l Hl. destruct (decide (l ∈ pairs.*1)) as [Hin|Hout].
      * destruct (IH2 l Hin) as (e & He & Hlook). exists e.
        split; [apply elem_of_cons; right; exact He|].
        rewrite Hlook. f_equal. destruct (decide (l = l0)) as [->|Hne].
        -- rewrite lookup_total_insert_eq. reflexivity.
        -- rewrite lookup_total_insert_ne by congruence. reflexivity.
      * cbn [fmap list_fmap fst] in Hl. apply elem_of_cons in Hl.
        destruct Hl as [->|Hl]; [|contradiction].
        exists e0. split; [apply elem_of_cons; left; reflexivity|].
        rewrite IH1 by exact Hout. apply lookup_insert_eq.
    + intros l. specialize (IH3 l). destruct (decide (l = l0)) as [->|Hne].
      * rewrite lookup_total_insert_eq in IH3. exact IH3.
      * rewrite lookup_total_insert_ne in IH3 by congruence. exact IH3.
Qed.

Lemma chunk_requests_texts (document_id : option value) (h : gmap loc Chunk)
    (chunks : list loc) :
  map req_text (chunk_requests document_id h chunks)
  = map (fun l => default "" (chunk_text (h !!! l))) chunks.
Proof.
  unfold chunk_requests. generalize 0.
  induction chunks as [|l chunks IH]; intros n; [reflexivity|].
  cbn [enumerate_from map]. rewrite IH. reflexivity.
Qed.

Lemma zip_map_self {A B : Type} (g : A -> B) (l : list A) :
  zip l (map g l) = map (fun x => (x, g x)) l.
Proof. induction l as [|x l IH]; [reflexivity|]. cbn. rewrite IH. reflexivity. Qed.

Section Chunks.

Variable SentenceTransformer : string -> result Model.

(** [process_chunks] changes nothing but the embeddings of the chunks
    it is given, whether it returns or raises: tables, queue, flags and
    debug events are as before, chunks outside the list are untouched,
    and no chunk changes in any other key. When it returns, it returns
    the dict it was given. *)
Theorem process_chunks_writes_embeddings_only (chunks_data : ChunksData) (σ : World) :
  let r := (process_chunks SentenceTransformer chunks_data σ).1 in
  let σ' := (process_chunks SentenceTransformer chunks_data σ).2 in
  table_objs σ' = table_objs σ
  /\ debug_log σ' = debug_log σ
  /\ request_queue (self σ') = request_queue (self σ)
  /\ processing (self σ') = processing (self σ)
  /\ (forall l, l ∉ default [] (cd_chunks chunks_data) ->
        chunk_objs σ' !! l = chunk_objs σ !! l)
  /\ (forall l, same_but_embedding (chunk_objs σ !!! l) (chunk_objs σ' !!! l))
  /\ (forall returned, r = Ok returned -> returned = chunks_data).
Proof.
  cbn zeta. destruct (default [] (cd_chunks chunks_data)) as [|l0 chunks0] eqn:Echunks.
  - unfold process_chunks. rewrite Echunks. cbn.
    repeat split. intros returned [= <-]. reflexivity.
  - assert (Hc : cd_chunks chunks_data = Some (l0 :: chunks0)).
    { destruct (cd_chunks chunks_data); cbn in Echunks; congruence. }
    rewrite (process_chunks_nonempty _ _ _ _ Hc ltac:(discriminate)).
    pose proof (get_embeddings_frame SentenceTransformer
                  (map req_text (chunk_requests (cd_document_id chunks_data)
                                   (chunk_objs σ) (l0 :: chunks0))) σ) as Hf.
    cbn zeta in Hf.
    destruct (_get_embeddings _ _ σ) as [[embeddings|e] σ1].
    + cbn [snd] in Hf. destruct Hf as (Hco & Hto & Hd & Hq & _ & _ & Hp).
      unfold bindM.
      rewrite (for_loop_modify _
                 (fun p s => with_chunk_objs
                               (<[p.1 := set_embedding p.2 (chunk_objs s !!! p.1)]>
                                  (chunk_objs s)) s))
        by (intros [l e] s; reflexivity).
      cbn [fst snd ret].
      destruct (foldl_chunk_objs
                  (fun p h => <[p.1 := set_embedding p.2 (h !!! p.1)]> h)
                  (zip (l0 :: chunks0) embeddings) σ1) as (Hh & Hs & Ht & _ & Hdl).
      cbn zeta in Hh, Hs, Ht, Hdl. cbv beta. rewrite Hh, Hs, Ht, Hdl, Hco, Hto, Hd, Hq, Hp.
      destruct (attach_chunks_any (zip (l0 :: chunks0) embeddings) (chunk_objs σ))
        as (Hout & _ & Hsame). cbn zeta in Hout, Hsame.
      split; [reflexivity|]. split; [reflexivity|]. split; [reflexivity|].
      split; [reflexivity|]. split; [|split; [exact Hsame|]].
      * intros l Hl. apply Hout. intros Hfst. apply Hl.
        apply list_elem_of_fmap in Hfst. destruct Hfst as ([l' e'] & Heq & Hmem).
        cbn in Heq. subst l'. eapply elem_of_zip_l. exact Hmem.
      * intros returned [= <-]. reflexivity.
    + cbn [fst snd] in *. destruct Hf as (Hco & Hto & Hd & Hq & _ & _ & Hp).
      rewrite Hco, Hto, Hd, Hq, Hp. repeat split. intros returned H. discriminate.
Qed.

(** With a model that encodes each text on its own, every chunk of
    the list ends up with the encoding of its own text, also when the
    list names a chunk more than once. *)
Theorem each_chunk_gets_the_encoding_of_its_text (f : string -> Vec)
    (chunks_data : ChunksData) (chunks : list loc) (σ : World) :
  provider SentenceTransformer σ = Ok (per_text f) ->
  cd_chunks chunks_data = Some chunks ->
  exists σ',
    process_chunks SentenceTransformer chunks_data σ = (Ok chunks_data, σ')
    /\ (forall l, l ∈ chunks ->
          chunk_objs σ' !! l
          = Some (set_embedding (f (default "" (chunk_text (chunk_objs σ !!! l))))
                    (chunk_objs σ !!! l)))
    /\ (forall l, l ∉ chunks -> chunk_objs σ' !! l = chunk_objs σ !! l).
Proof.
  intros Hprov Hc. destruct (decide (chunks = [])) as [->|Hne].
  - exists σ. unfold process_chunks. rewrite Hc. cbn.
    split; [reflexivity|]. split; [|reflexivity]. intros l Hl. inversion Hl.
  - rewrite (process_chunks_nonempty _ _ _ _ Hc Hne).
    destruct (get_embeddings_run SentenceTransformer
                (map req_text (chunk_requests (cd_document_id chunks_data)
                                 (chunk_objs σ) chunks)) σ (per_text f) Hprov)
      as (σ1 & -> & _ & Hobjs & _).
    unfold per_text at 1. unfold bindM.
    rewrite (for_loop_modify _
               (fun p s => with_chunk_objs
                             (<[p.1 := set_embedding p.2 (chunk_objs s !!! p.1)]>
                                (chunk_objs s)) s))
      by (intros [l e] s; reflexivity).
    eexists. split; [reflexivity|].
    rewrite chunk_requests_texts, map_map.
    rewrite (zip_map_self (fun l => f (default "" (chunk_text (chunk_objs σ !!! l))))).
    destruct (foldl_chunk_objs
                (fun p h => <[p.1 := set_embedding p.2 (h !!! p.1)]> h)
                (map (fun l => (l, f (default "" (chunk_text (chunk_objs σ !!! l)))))
                   chunks) σ1) as (Hh & _).
    cbn zeta in Hh. cbv beta. rewrite Hh, Hobjs.
    destruct (attach_chunks_any
                (map (fun l => (l, f (default "" (chunk_text (chunk_objs σ !!! l)))))
                   chunks) (chunk_objs σ)) as (Hout & Hin & _).
    cbn zeta in Hout, Hin.
    assert (Hfst : (map (fun l => (l, f (default "" (chunk_text (chunk_objs σ !!! l)))))
                      chunks).*1 = chunks).
    { clear. induction chunks as [|l chunks IH]; [reflexivity|].
      cbn. f_equal. exact IH. }
    rewrite Hfst in Hout, Hin. split; [|exact Hout].
    intros l Hl. destruct (Hin l Hl) as (e & He & Hlook). rewrite Hlook.
    apply list_elem_of_fmap in He. destruct He as (l' & [= <- ->] & _). reflexivity.
Qed.

End Chunks.

Lemma each_chunk_gets_the_encoding_of_its_text_witness :
  exists σ',
    process_chunks (fun _ => Ok (per_text length_vec)) aliased_chunks_data sample_world
    = (Ok aliased_chunks_data, σ')
    /\ chunk_embedding <$> chunk_objs σ' !! 0 = Some (Some [5 # 1])
    /\ chunk_embedding <$> chunk_objs σ' !! 1 = Some (Some [2 # 1]).
Proof.
  destruct (each_chunk_gets_the_encoding_of_its_text (fun _ => Ok (per_text length_vec))
              length_vec aliased_chunks_data [0; 1; 0] sample_world eq_refl eq_refl)
    as (σ' & Hrun & Hin & _).
  exists σ'. split; [exact Hrun|].
  rewrite (Hin 0) by (apply elem_of_cons; left; reflexivity).
  rewrite (Hin 1) by (apply elem_of_cons; right; apply elem_of_cons; left; reflexivity).
  split; reflexivity.
Defined.

(** *** Tables *)

(** One turn of the attaching loop of [process_tables], by what the
    model's answer holds at the turn's two indices. *)
Lemma attach_table_embeddings_cases (embeddings : list Vec) (i : nat) (l : loc)
    (σ : World) :
  attach_table_embeddings embeddings i l σ
  = match embeddings !! (i * 2), embeddings !! (i * 2 + 1) with
    | Some e1, Some e2 =>
        (Ok tt,
         with_table_objs
           (<[l := set_content_embedding e2 (set_schema_embedding e1 (table_objs σ !!! l))]>
              (table_objs σ)) σ)
    | Some e1, None =>
        (Raise IndexError,
         with_table_objs
           (<[l := set_schema_embedding e1 (table_objs σ !!! l)]> (table_objs σ)) σ)
    | None, _ => (Raise IndexError, σ)
    end.
Proof.
  destruct (embeddings !! (i * 2)) as [e1|] eqn:He1.
  - destruct (embeddings !! (i * 2 + 1)) as [e2|] eqn:He2.
    + apply attach_table_embeddings_run; assumption.
    + unfold attach_table_embeddings, bindM, lift, modify, index.
      rewrite He1, He2. reflexivity.
  - unfold attach_table_embeddings, bindM, lift, modify, index.
    rewrite He1. reflexivity.
Qed.

(** The attaching loop, whatever the answer and the list: it returns
    or raises [IndexError], and writes embeddings of listed tables only. *)
Lemma attach_tables_frame (embeddings : list Vec) (tables : list loc) (i0 : nat)
    (σ : World) :
  let r := (for_loop (fun '(i, l) => attach_table_embeddings embeddings i l)
              (enumerate_from i0 tables) σ).1 in
  let σ' := (for_loop (fun '(i, l) => attach_table_embeddings embeddings i l)
               (enumerate_from i0 tables) σ).2 in
  (r = Ok tt \/ r = Raise IndexError)
  /\ self σ' = self σ /\ chunk_objs σ' = chunk_objs σ
  /\ encode_calls σ' = encode_calls σ /\ debug_log σ' = debug_log σ
  /\ (forall l, l ∉ tables -> table_objs σ' !! l = table_objs σ !! l)
  /\ (forall l, same_but_embeddings (table_objs σ !!! l) (table_objs σ' !!! l)).
Proof.
  revert i0 σ. induction tables as [|l0 tables IH]; intros i0 σ; cbn zeta.
  - cbn. split; [left; reflexivity|]. repeat split.
  - cbn [enumerate_from for_loop]. unfold bindM.
    rewrite !attach_table_embeddings_cases.
    destruct (embeddings !! (i0 * 2)) as [e1|];
      [destruct (embeddings !! (i0 * 2 + 1)) as [e2|]|].
    + set (σ1 := with_table_objs _ σ).
      destruct (IH (S i0) σ1) as (Hr & Hs & Hc & He & Hd & Hout & Hsame).
      cbn zeta in Hr, Hs, Hc, He, Hd, Hout, Hsame.
      split; [exact Hr|]. split; [exact Hs|]. split; [exact Hc|].
      split; [exact He|]. split; [exact Hd|]. split.
      * intros l Hl. apply not_elem_of_cons in Hl. destruct Hl as [Hne Hl].
        rewrite (Hout l Hl). apply lookup_insert_ne. congruence.
      * intros l. specialize (Hsame l). cbn [σ1 with_table_objs table_objs] in Hsame.
        destruct (decide (l = l0)) as [->|Hne].
        -- rewrite lookup_total_insert_eq in Hsame. exact Hsame.
        -- rewrite lookup_total_insert_ne in Hsame by congruence. exact Hsame.
    + cbn [fst snd with_table_objs self chunk_objs table_objs encode_calls debug_log].
      split; [right; reflexivity|]. do 4 (split; [reflexivity|]). split.
      * intros l Hl. apply not_elem_of_cons in Hl. destruct Hl as [Hne Hl].
        apply lookup_insert_ne. congruence.
      * intros l. destruct (decide (l = l0)) as [->|Hne].
        -- rewrite lookup_total_insert_eq. repeat split.
        -- rewrite lookup_total_insert_ne by congruence. repeat split.
    + cbn [fst snd]. split; [right; reflexivity|]. repeat split.
Qed.

(** The attaching loop over distinct tables, whatever the length of
    the answer: it returns when the answer has two embeddings for every
    table and raises [IndexError] otherwise, and each table has by then
    what the answer held at its two indices. *)
Lemma attach_tables_outcome (embeddings : list Vec) (tables : list loc) (i0 : nat)
    (σ : World) :
  NoDup tables ->
  exists r σ',
    for_loop (fun '(i, l) => attach_table_embeddings embeddings i l)
      (enumerate_from i0 tables) σ = (r, σ')
    /\ ((i0 + length tables) * 2 <= length embeddings -> r = Ok tt)
    /\ (tables <> [] -> length embeddings < (i0 + length tables) * 2 ->
        r = Raise IndexError)
    /\ (forall j l,
          tables !! j = Some l ->
          table_objs σ' !! l
          = match embeddings !! ((i0 + j) * 2), embeddings !! ((i0 + j) * 2 + 1) with
            | Some e1, Some e2 =>
                Some (set_content_embedding e2
                        (set_schema_embedding e1 (table_objs σ !!! l)))
            | Some e1, None => Some (set_schema_embedding e1 (table_objs σ !!! l))
            | None, _ => table_objs σ !! l
            end).
Proof.
  intros Hnd. revert i0 σ. induction Hnd as [|l0 tables Hl0 Hnd IH]; intros i0 σ.
  - exists (Ok tt), σ. split; [reflexivity|]. split; [reflexivity|].
    split; [congruence|]. intros j l H. discriminate.
  - cbn [enumerate_from for_loop length]. unfold bindM.
    rewrite attach_table_embeddings_cases.
    destruct (embeddings !! (i0 * 2)) as [e1|] eqn:He1;
      [destruct (embeddings !! (i0 * 2 + 1)) as [e2|] eqn:He2|].
    + set (σ1 := with_table_objs _ σ).
      destruct (IH (S i0) σ1) as (r & σ' & Hrun & Hok & Hraise & Hin).
      pose proof (attach_tables_frame embeddings tables (S i0) σ1) as Hf.
      cbn zeta in Hf. rewrite Hrun in Hf. cbn [fst snd] in Hf.
      destruct Hf as (_ & _ & _ & _ & _ & Hout & _).
      exists r, σ'. split; [exact Hrun|]. split; [|split].
      * intros Hlen. apply Hok. lia.
      * intros _ Hlen. apply Hraise; [|lia]. intros ->.
        apply lookup_lt_Some in He2. cbn [length] in Hlen. lia.
      * intros [|j] l Hj.
        -- injection Hj as <-. rewrite Nat.add_0_r, He1, He2.
           rewrite (Hout l0 Hl0). apply lookup_insert_eq.
        -- rewrite (Hin j l Hj). replace (i0 + S j) with (S i0 + j) by lia.
           assert (Hne : l0 <> l).
           { intros ->. apply Hl0. apply list_elem_of_lookup. eauto. }
           cbn [σ1 with_table_objs table_objs].
           rewrite lookup_total_insert_ne, lookup_insert_ne by exact Hne.
           reflexivity.
    + apply lookup_ge_None in He2.
      eexists _, _. split; [reflexivity|]. split; [intros Hlen; lia|].
      split; [reflexivity|].
      intros [|j] l Hj.
      * injection Hj as <-. rewrite Nat.add_0_r, He1.
        rewrite (lookup_ge_None_2 embeddings (i0 * 2 + 1)) by lia.
        apply lookup_insert_eq.
      * rewrite (lookup_ge_None_2 embeddings ((i0 + S j) * 2)) by lia.
        apply lookup_insert_ne. intros ->. apply Hl0.
        apply list_elem_of_lookup. eauto.
    + apply lookup_ge_None in He1.
      eexists _, _. split; [reflexivity|]. split; [intros Hlen; lia|].
      split; [reflexivity|].
      intros j l Hj.
      rewrite (lookup_ge_None_2 embeddings ((i0 + j) * 2)) by lia. reflexivity.
Qed.

Section Tables.

Variable SentenceTransformer : string -> result Model.

(** [process_tables] changes nothing but the two embeddings of the
    tables it is given, whether it returns or raises: chunks, queue,
    flags and debug events are as before, tables outside the list are
    untouched, and no table changes in any other key. When it returns, it
    returns the dict it was given. *)
Theorem process_tables_writes_embeddings_only (tables_data : TablesData) (σ : World) :
  let r := (process_tables SentenceTransformer tables_data σ).1 in
  let σ' := (process_tables SentenceTransformer tables_data σ).2 in
  chunk_objs σ' = chunk_objs σ
  /\ debug_log σ' = debug_log σ
  /\ request_queue (self σ') = request_queue (self σ)
  /\ processing (self σ') = processing (self σ)
  /\ (forall l, l ∉ default [] (td_tables tables_data) ->
        table_objs σ' !! l = table_objs σ !! l)
  /\ (forall l, same_but_embeddings (table_objs σ !!! l) (table_objs σ' !!! l))
  /\ (forall returned, r = Ok returned -> returned = tables_data).
Proof.
  cbn zeta. destruct (default [] (td_tables tables_data)) as [|l0 tables0] eqn:Etables.
  - unfold process_tables. rewrite Etables. cbn.
    repeat split. intros returned [= <-]. reflexivity.
  - assert (Ht : td_tables tables_data = Some (l0 :: tables0)).
    { destruct (td_tables tables_data); cbn in Etables; congruence. }
    rewrite (process_tables_nonempty _ _ _ _ Ht ltac:(discriminate)).
    pose proof (get_embeddings_frame SentenceTransformer
                  (map req_text
                     (table_requests (td_document_id tables_data)
                        (map (fun l => table_objs σ !!! l) (l0 :: tables0)))) σ) as Hf.
    cbn zeta in Hf.
    destruct (_get_embeddings _ _ σ) as [[embeddings|e] σ1].
    + cbn [snd] in Hf. destruct Hf as (Hco & Hto & Hd & Hq & _ & _ & Hp).
      unfold bindM.
      pose proof (attach_tables_frame embeddings (l0 :: tables0) 0 σ1) as Hloop.
      cbn zeta in Hloop.
      destruct (for_loop _ (enumerate_from 0 (l0 :: tables0)) σ1) as [[[]|e] σ2];
        cbn [fst snd ret] in *;
        destruct Hloop as (_ & Hs & Hc & _ & Hdl & Hout & Hsame);
        rewrite Hs, Hc, Hdl, Hco, Hd, Hq, Hp; rewrite Hto in Hout, Hsame.
      * do 4 (split; [reflexivity|]). split; [exact Hout|]. split; [exact Hsame|].
        intros returned [= <-]. reflexivity.
      * do 4 (split; [reflexivity|]). split; [exact Hout|]. split; [exact Hsame|].
        intros returned H. discriminate.
    + cbn [fst snd] in *. destruct Hf as (Hco & Hto & Hd & Hq & _ & _ & Hp).
      rewrite Hco, Hto, Hd, Hq, Hp. repeat split. intros returned H. discriminate.
Qed.

(** When the model answers with fewer than two embeddings per table,
    [process_tables] raises [IndexError] after the model was called, and
    the tables keep what was written before: a table whose two embeddings
    are in the answer has both, the table at which the answer ends after
    a schema embedding has that one only, and the tables after it are as
    they were. *)
Theorem short_answer_leaves_tables_partly_embedded (σ : World) (model : Model)
    (tables_data : TablesData) (tables : list loc) (embeddings : list Vec) :
  let requests :=
    table_requests (td_document_id tables_data) (map (fun l => table_objs σ !!! l) tables) in
  provider SentenceTransformer σ = Ok model ->
  td_tables tables_data = Some tables ->
  NoDup tables ->
  model (map req_text requests) = Ok embeddings ->
  length embeddings < 2 * length tables ->
  exists σ',
    process_tables SentenceTransformer tables_data σ = (Raise IndexError, σ')
    /\ encode_calls σ' = encode_calls σ ++ [map req_text requests]
    /\ (forall i l,
          tables !! i = Some l ->
          table_objs σ' !! l
          = match embeddings !! (2 * i), embeddings !! (2 * i + 1) with
            | Some e1, Some e2 =>
                Some (set_content_embedding e2
                        (set_schema_embedding e1 (table_objs σ !!! l)))
            | Some e1, None => Some (set_schema_embedding e1 (table_objs σ !!! l))
            | None, _ => table_objs σ !! l
            end).
Proof.
  intros requests Hprov Htables Hnd Hmodel Hlen.
  assert (Hne : tables <> []) by (intros ->; cbn in Hlen; lia).
  destruct (get_embeddings_run SentenceTransformer (map req_text requests) σ model Hprov)
    as (σ1 & Hrun & _ & _ & Hobjs & Hcalls & _).
  rewrite (process_tables_nonempty _ _ _ _ Htables Hne). fold requests.
  rewrite Hrun, Hmodel. unfold bindM.
  destruct (attach_tables_outcome embeddings tables 0 σ1 Hnd)
    as (r & σ' & Hloop & _ & Hraise & Hin).
  pose proof (attach_tables_frame embeddings tables 0 σ1) as Hf.
  cbn zeta in Hf. rewrite Hloop in Hf. cbn [fst snd] in Hf.
  destruct Hf as (_ & _ & _ & He & _).
  rewrite Hloop, (Hraise Hne) by (cbn; lia).
  exists σ'. split; [reflexivity|]. split; [rewrite He; exact Hcalls|].
  intros i l Hl. rewrite (Hin i l Hl), Hobjs. cbn [Nat.add].
  replace (i * 2) with (2 * i) by lia. reflexivity.
Qed.

End Tables.

Lemma short_answer_leaves_tables_partly_embedded_witness :
  exists σ',
    process_tables (fun _ => Ok three_model) sample_tables_data sample_world
    = (Raise IndexError, σ')
    /\ schema_embedding <$> table_objs σ' !! 0 = Some (Some [1 # 1])
    /\ content_embedding <$> table_objs σ' !! 0 = Some (Some [2 # 1])
    /\ schema_embedding <$> table_objs σ' !! 1 = Some (Some [3 # 1])
    /\ content_embedding <$> table_objs σ' !! 1 = Some None.
Proof.
  destruct (short_answer_leaves_tables_partly_embedded (fun _ => Ok three_model)
              sample_world three_model sample_tables_data [0; 1]
              [[1 # 1]; [2 # 1]; [3 # 1]] eq_refl eq_refl
              ltac:(compute_done) eq_refl ltac:(cbn; lia))
    as (σ' & Hrun & _ & Hin).
  exists σ'. split; [exact Hrun|].
  rewrite (Hin 0 0 eq_refl), (Hin 1 1 eq_refl). repeat split.
Defined.

(** Two tables whose first five data rows agree have the same content
    text, and so the same content request text. *)
Theorem content_text_reads_five_rows (data data' : list (list value)) :
  take 5 data = take 5 data' ->
  _table_content_to_text data = _table_content_to_text data'.
Proof.
  intros H. rewrite (table_content_first_rows data), (table_content_first_rows data'), H.
  reflexivity.
Qed.

Lemma content_text_reads_five_rows_witness :
  _table_content_to_text
    [ [VInt 1]; [VInt 2]; [VInt 3]; [VInt 4]; [VInt 5]; [VInt 6] ]
  = _table_content_to_text
      [ [VInt 1]; [VInt 2]; [VInt 3]; [VInt 4]; [VInt 5]; [VStr "other"]; [VInt 8] ].
Proof.
  apply content_text_reads_five_rows. reflexivity.
Defined.

(** *** The processing loop *)

Lemma fill_batch_take (batch_size : Z) (batch pending : list EmbeddingRequest) :
  let k := Z.to_nat (batch_size - Z.of_nat (length batch)) in
  fill_batch batch_size batch pending = (batch ++ take k pending, drop k pending).
Proof.
  revert batch. induction pending as [|r rest IH]; intros batch; cbn zeta.
  - cbn [fill_batch]. rewrite take_nil, drop_nil, app_nil_r. reflexivity.
  - cbn [fill_batch]. destruct (Z.ltb_spec (Z.of_nat (length batch)) batch_size) as [Hlt|Hge].
    + rewrite IH. cbn zeta. rewrite length_app. cbn [length].
      replace (Z.to_nat (batch_size - Z.of_nat (length batch)))
        with (S (Z.to_nat (batch_size - Z.of_nat (length batch + 1)))) by lia.
      cbn [take drop]. rewrite <- app_assoc. reflexivity.
    + replace (Z.to_nat (batch_size - Z.of_nat (length batch))) with 0 by lia.
      cbn. rewrite app_nil_r. reflexivity.
Qed.

Lemma first_batches_nil {A : Type} (n b : nat) : first_batches n b (@nil A) = [].
Proof. destruct n; reflexivity. Qed.

Lemma concat_first_batches {A : Type} (n b : nat) (l : list A) :
  concat (first_batches n b l) = take (n * b) l.
Proof.
  revert l. induction n as [|n IH]; intros l; [reflexivity|].
  destruct l as [|x l]; [cbn; rewrite take_nil; reflexivity|].
  cbn [first_batches concat]. rewrite IH, take_take_drop. reflexivity.
Qed.

Lemma concat_map_map {A B : Type} (g : A -> B) (ls : list (list A)) :
  concat (map (map g) ls) = map g (concat ls).
Proof.
  induction ls as [|l ls IH]; [reflexivity|].
  cbn [map concat]. rewrite IH, map_app. reflexivity.
Qed.

Lemma process_loop_stopped (SentenceTransformer : string -> result Model) (n : nat)
    (σ : World) :
  processing (self σ) = false -> _process_loop SentenceTransformer n σ = (Ok tt, σ).
Proof. intros H. destruct n; [reflexivity|]. cbn [_process_loop]. rewrite H. reflexivity. Qed.

Section Turns.

Variable SentenceTransformer : string -> result Model.

Lemma loop_turn_empty (σ : World) :
  items (request_queue (self σ)) = [] -> loop_turn SentenceTransformer σ = (Ok tt, σ).
Proof. intros H. unfold loop_turn, get. rewrite H. reflexivity. Qed.

(** A turn of the loop on a queue that is not empty. *)
Lemma loop_turn_run (σ : World) (model : Model) (queued : list EmbeddingRequest) :
  items (request_queue (self σ)) = queued ->
  queued <> [] ->
  provider SentenceTransformer σ = Ok model ->
  let batch := take (batch_limit (self σ)) queued in
  exists σ',
    loop_turn SentenceTransformer σ = (Ok tt, σ')
    /\ items (request_queue (self σ')) = drop (batch_limit (self σ)) queued
    /\ encode_calls σ' = encode_calls σ ++ [map req_text batch]
    /\ debug_log σ'
       = debug_log σ
         ++ match model (map req_text batch) with
            | Ok embeddings =>
                map (fun p => (req_id p.1, length p.2)) (zip batch embeddings)
            | Raise _ => []
            end
    /\ maxsize (request_queue (self σ')) = maxsize (request_queue (self σ))
    /\ batch_size (self σ') = batch_size (self σ)
    /\ max_queue_size (self σ') = max_queue_size (self σ)
    /\ processing (self σ') = processing (self σ)
    /\ provider SentenceTransformer σ' = Ok model
    /\ chunk_objs σ' = chunk_objs σ
    /\ table_objs σ' = table_objs σ.
Proof.
  intros Hitems Hne Hprov. destruct queued as [|r rest]; [congruence|]. clear Hne.
  cbn zeta. unfold batch_limit.
  replace (Nat.max 1 (Z.to_nat (batch_size (self σ))))
    with (S (Z.to_nat (batch_size (self σ) - 1))) by lia.
  cbn [take drop].
  unfold loop_turn, get. rewrite Hitems. cbn [items maxsize].
  rewrite fill_batch_take. cbn [length app Z.of_nat Pos.of_succ_nat].
  set (batch := r :: take _ rest).
  set (σ1 := with_self _ σ).
  destruct (get_embeddings_run SentenceTransformer (map req_text batch) σ1 model Hprov)
    as (σ2 & Hrun & Hp2 & Hc2 & Ht2 & He2 & Hd2 & Hq2).
  pose proof (get_embeddings_frame SentenceTransformer (map req_text batch) σ1) as Hf.
  cbn zeta in Hf. rewrite Hrun in Hf. cbn [snd] in Hf.
  destruct Hf as (_ & _ & _ & _ & Hb2 & Hm2 & Hpr2).
  unfold _process_batch, bindM. rewrite Hrun.
  destruct (model (map req_text batch)) as [embeddings|e].
  - rewrite (for_loop_modify _ (fun p s => with_debug (req_id p.1, length p.2) s))
      by (intros [req e] s; reflexivity).
    destruct (foldl_debug_log (fun p : EmbeddingRequest * Vec => (req_id p.1, length p.2))
                (zip batch embeddings) σ2) as (Hdl & Hs & Hc & Ht & He).
    cbn zeta in Hdl, Hs, Hc, Ht, He.
    eexists. split; [reflexivity|].
    unfold provider. rewrite Hs, Hdl, Hc, Ht, He, Hq2, He2, Hd2, Hc2, Ht2, Hb2, Hm2, Hpr2.
    repeat split. exact Hp2.
  - eexists. split; [reflexivity|].
    rewrite Hq2, He2, Hd2, Hc2, Ht2, Hb2, Hm2, Hpr2, app_nil_r.
    repeat split. exact Hp2.
Qed.

(** [n] turns of the loop of a worker that is processing. *)
Lemma process_loop_run (n : nat) (σ : World) (model : Model) :
  processing (self σ) = true ->
  provider SentenceTransformer σ = Ok model ->
  let queued := items (request_queue (self σ)) in
  exists σ',
    _process_loop SentenceTransformer n σ = (Ok tt, σ')
    /\ items (request_queue (self σ')) = drop (n * batch_limit (self σ)) queued
    /\ encode_calls σ'
       = encode_calls σ
         ++ map (map req_text) (first_batches n (batch_limit (self σ)) queued)
    /\ maxsize (request_queue (self σ')) = maxsize (request_queue (self σ))
    /\ batch_size (self σ') = batch_size (self σ)
    /\ max_queue_size (self σ') = max_queue_size (self σ)
    /\ processing (self σ') = true
    /\ provider SentenceTransformer σ' = Ok model
    /\ chunk_objs σ' = chunk_objs σ
    /\ table_objs σ' = table_objs σ.
Proof.
  revert σ. induction n as [|n IH]; intros σ Hproc Hprov; cbn zeta.
  - exists σ. cbn. rewrite app_nil_r. repeat split; assumption.
  - cbn [_process_loop]. rewrite Hproc. unfold bindM.
    destruct (items (request_queue (self σ))) as [|r rest] eqn:Hitems.
    + rewrite (loop_turn_empty σ Hitems).
      destruct (IH σ Hproc Hprov) as (σ' & Hrun & Hi & He & Hrest).
      cbn zeta in Hi, He. rewrite Hitems in Hi, He.
      exists σ'. split; [exact Hrun|].
      rewrite drop_nil in *. rewrite first_batches_nil in *.
      split; [exact Hi|]. split; [exact He|]. exact Hrest.
    + destruct (loop_turn_run σ model (r :: rest) Hitems ltac:(discriminate) Hprov)
        as (σ1 & -> & Hi1 & He1 & _ & Hmax1 & Hb1 & Hm1 & Hp1 & Hprov1 & Hc1 & Ht1).
      cbn zeta in He1.
      destruct (IH σ1 ltac:(congruence) Hprov1)
        as (σ' & Hrun & Hi & He & Hmax & Hb & Hm & Hp & Hprov' & Hc & Ht).
      cbn zeta in Hi, He.
      assert (Hlimit : batch_limit (self σ1) = batch_limit (self σ)).
      { unfold batch_limit. rewrite Hb1. reflexivity. }
      rewrite Hlimit, Hi1 in Hi, He.
      exists σ'. split; [exact Hrun|]. split; [|split].
      * rewrite Hi, drop_drop. f_equal.
      * rewrite He, He1, <- app_assoc. reflexivity.
      * repeat split; congruence.
Qed.

(** One turn of the loop takes the oldest pending requests, as many
    as the batch limit allows, in the order they were queued, and sends
    their texts to the model in one call; the other requests stay queued.
    The turn never raises: when the model fails on the batch, the batch
    is gone all the same and nothing is logged for it; when the model
    answers, one debug event is logged per request and embedding. *)
Theorem loop_turn_takes_one_batch (σ : World) (model : Model)
    (queued : list EmbeddingRequest) :
  items (request_queue (self σ)) = queued ->
  queued <> [] ->
  provider SentenceTransformer σ = Ok model ->
  let batch := take (batch_limit (self σ)) queued in
  exists σ',
    loop_turn SentenceTransformer σ = (Ok tt, σ')
    /\ items (request_queue (self σ')) = drop (batch_limit (self σ)) queued
    /\ encode_calls σ' = encode_calls σ ++ [map req_text batch]
    /\ debug_log σ'
       = debug_log σ
         ++ match model (map req_text batch) with
            | Ok embeddings =>
                map (fun p => (req_id p.1, length p.2)) (zip batch embeddings)
            | Raise _ => []
            end.
Proof.
  intros Hitems Hne Hprov.
  destruct (loop_turn_run σ model queued Hitems Hne Hprov)
    as (σ' & Hrun & Hi & He & Hd & _).
  exists σ'. repeat split; assumption.
Qed.

(** [n] turns of the loop of a processing worker never raise and
    send the pending requests to the model batch by batch, oldest first:
    the calls made are the first [n] batches of the queue, what is left
    queued is the rest; with enough turns the queue is emptied and the
    model has seen the text of every request once, in queue order. *)
Theorem loop_encodes_the_queue_in_batches (n : nat) (σ : World) (model : Model) :
  processing (self σ) = true ->
  provider SentenceTransformer σ = Ok model ->
  let queued := items (request_queue (self σ)) in
  exists σ',
    _process_loop SentenceTransformer n σ = (Ok tt, σ')
    /\ items (request_queue (self σ')) = drop (n * batch_limit (self σ)) queued
    /\ encode_calls σ'
       = encode_calls σ
         ++ map (map req_text) (first_batches n (batch_limit (self σ)) queued)
    /\ (length queued <= n * batch_limit (self σ) ->
        items (request_queue (self σ')) = []
        /\ encoded_since (length (encode_calls σ)) σ' = map req_text queued).
Proof.
  intros Hproc Hprov queued.
  destruct (process_loop_run n σ model Hproc Hprov) as (σ' & Hrun & Hi & He & _).
  cbn zeta in Hi, He. fold queued in Hi, He.
  exists σ'. split; [exact Hrun|]. split; [exact Hi|]. split; [exact He|].
  intros Hlen. split.
  - rewrite Hi. apply drop_ge. exact Hlen.
  - unfold encoded_since. rewrite He, drop_app_length, concat_map_map.
    rewrite concat_first_batches, take_ge by exact Hlen. reflexivity.
Qed.

(** [stop] takes effect between batches and drains nothing: after
    [n] turns and a [stop], further turns of the loop do nothing, so the
    requests beyond the first [n] batches stay in the queue and never
    reach the model. *)
Theorem stop_leaves_pending_requests_queued (n k : nat) (σ : World) (model : Model) :
  processing (self σ) = true ->
  provider SentenceTransformer σ = Ok model ->
  let queued := items (request_queue (self σ)) in
  exists σ1 σ2,
    _process_loop SentenceTransformer n σ = (Ok tt, σ1)
    /\ stop σ1 = (Ok tt, σ2)
    /\ _process_loop SentenceTransformer k σ2 = (Ok tt, σ2)
    /\ items (request_queue (self σ2)) = drop (n * batch_limit (self σ)) queued
    /\ encode_calls σ2
       = encode_calls σ
         ++ map (map req_text) (first_batches n (batch_limit (self σ)) queued).
Proof.
  intros Hproc Hprov queued.
  destruct (process_loop_run n σ model Hproc Hprov) as (σ1 & Hrun & Hi & He & _).
  cbn zeta in Hi, He. fold queued in Hi, He.
  exists σ1, (with_self (set_processing false (self σ1)) σ1).
  split; [exact Hrun|]. split; [reflexivity|].
  split; [apply process_loop_stopped; reflexivity|].
  split; [exact Hi|exact He].
Qed.

(** [start] sets the [processing] flag before it loads the model:
    the flag is set whatever happens, the queue is untouched, a model
    that can be had is held by the worker afterwards, and when the model
    cannot be built [start] raises the constructor's exception with the
    flag still set and no model. *)
Theorem start_sets_the_flag_before_loading (σ : World) :
  let r := (start SentenceTransformer σ).1 in
  let σ' := (start SentenceTransformer σ).2 in
  processing (self σ') = true
  /\ request_queue (self σ') = request_queue (self σ)
  /\ encode_calls σ' = encode_calls σ
  /\ (forall model, provider SentenceTransformer σ = Ok model ->
        r = Ok tt /\ embedding_model (self σ') = Some model)
  /\ (forall e, provider SentenceTransformer σ = Raise e ->
        r = Raise e /\ embedding_model (self σ') = None).
Proof.
  cbn zeta. unfold start, provider, _load_embedding_model, bindM, modify, reads.
  cbn [self with_self set_processing embedding_model].
  destruct (embedding_model (self σ)) as [m|] eqn:Em.
  - cbn. rewrite Em. repeat split; intros; congruence.
  - unfold lift. destruct (SentenceTransformer "all-MiniLM-L6-v2") as [m|e]; cbn.
    + repeat split; intros; congruence.
    + rewrite Em. repeat split; intros; congruence.
Qed.

(** From construction to the model: a worker built with a capacity
    of zero or more and started accepts the first requests submitted to
    it, as many as the capacity, and refuses the others; run for enough
    turns, the loop then hands the texts of exactly the accepted requests
    to the model, in submission order, and empties the queue. *)
Theorem accepted_submissions_are_encoded_in_order (size limit : Z)
    (model : Model) (requests : list EmbeddingRequest) (n : nat) (σ : World) :
  self σ = init size limit ->
  (0 <= limit)%Z ->
  SentenceTransformer "all-MiniLM-L6-v2" = Ok model ->
  let capacity := Z.to_nat limit in
  Nat.min (length requests) capacity <= n * Nat.max 1 (Z.to_nat size) ->
  exists σ1 answers w σ',
    start SentenceTransformer σ = (Ok tt, σ1)
    /\ submit_all (self σ1) requests = Returned (answers, w)
    /\ _process_loop SentenceTransformer n (with_self w σ1) = (Ok tt, σ')
    /\ answers = replicate (Nat.min (length requests) capacity) true
                 ++ replicate (length requests - capacity) false
    /\ encoded_since (length (encode_calls σ)) σ'
       = map req_text (take capacity requests)
    /\ items (request_queue (self σ')) = [].
Proof.
  intros Hself Hcap Hctor capacity Hturns.
  set (w1 := set_model model (set_processing true (self σ))).
  assert (Hnone : embedding_model (self σ) = None) by (rewrite Hself; reflexivity).
  assert (Hstart : start SentenceTransformer σ = (Ok tt, with_self w1 σ)).
  { unfold start, _load_embedding_model, bindM, modify, reads, lift.
    cbn [self with_self set_processing embedding_model].
    rewrite Hnone, Hctor. reflexivity. }
  assert (Hfree : Z.to_nat (max_queue_size w1 - pending w1) = capacity).
  { unfold w1, pending, qsize. rewrite Hself. cbn. unfold capacity. lia. }
  destruct (submit_all_run requests w1) as (w & Hsub & Hi & Hb & Hm & Hp).
  { unfold w1, consistent. rewrite Hself. reflexivity. }
  { unfold w1, pending, qsize. rewrite Hself. cbn. lia. }
  rewrite Hfree in Hsub, Hi.
  assert (Hitems : items (request_queue w) = take capacity requests).
  { rewrite Hi. unfold w1. rewrite Hself. reflexivity. }
  assert (Hlimit : batch_limit w = Nat.max 1 (Z.to_nat size)).
  { unfold batch_limit. rewrite Hb. unfold w1. rewrite Hself. reflexivity. }
  destruct (process_loop_run n (with_self w (with_self w1 σ)) model)
    as (σ' & Hrun & Hi' & He' & _).
  { cbn [self with_self]. rewrite Hp. reflexivity. }
  { unfold provider. cbn [self with_self]. rewrite Hm. reflexivity. }
  cbn zeta in Hi', He'. cbn [self with_self encode_calls] in Hi', He'.
  rewrite Hitems, Hlimit in Hi', He'.
  assert (Hlen : length (take capacity requests) <= n * Nat.max 1 (Z.to_nat size)).
  { rewrite length_take. lia. }
  eexists (with_self w1 σ), _, w, σ'.
  split; [exact Hstart|]. split; [exact Hsub|]. split; [exact Hrun|].
  split; [reflexivity|]. split.
  - unfold encoded_since. rewrite He', drop_app_length, concat_map_map.
    rewrite concat_first_batches, take_ge by exact Hlen. reflexivity.
  - rewrite Hi'. apply drop_ge. exact Hlen.
Qed.

End Turns.

Lemma loop_turn_takes_one_batch_witness :
  exists σ',
    loop_turn length_model_constructor (world_of busy_worker) = (Ok tt, σ')
    /\ items (request_queue (self σ')) = [request 2; request 3; request 4]
    /\ encode_calls σ' = [["text 0"; "text 1"]]
    /\ debug_log σ' = [("req_0", 1); ("req_1", 1)].
Proof.
  destruct (loop_turn_takes_one_batch length_model_constructor (world_of busy_worker)
              length_model (requests 5) eq_refl ltac:(discriminate) eq_refl)
    as (σ' & Hrun & Hi & He & Hd).
  exists σ'. split; [exact Hrun|]. split; [exact Hi|]. split; [exact He|exact Hd].
Defined.

Lemma loop_encodes_the_queue_in_batches_witness :
  exists σ',
    _process_loop length_model_constructor 3 (world_of busy_worker) = (Ok tt, σ')
    /\ items (request_queue (self σ')) = []
    /\ encode_calls σ' = [["text 0"; "text 1"]; ["text 2"; "text 3"]; ["text 4"]].
Proof.
  destruct (loop_encodes_the_queue_in_batches length_model_constructor 3
              (world_of busy_worker) length_model eq_refl eq_refl)
    as (σ' & Hrun & Hi & He & _).
  exists σ'. split; [exact Hrun|]. split; [exact Hi|exact He].
Defined.

Lemma stop_leaves_pending_requests_queued_witness :
  exists σ1 σ2,
    _process_loop length_model_constructor 1 (world_of busy_worker) = (Ok tt, σ1)
    /\ stop σ1 = (Ok tt, σ2)
    /\ _process_loop length_model_constructor 7 σ2 = (Ok tt, σ2)
    /\ items (request_queue (self σ2)) = [request 2; request 3; request 4]
    /\ encode_calls σ2 = [["text 0"; "text 1"]].
Proof.
  destruct (stop_leaves_pending_requests_queued length_model_constructor 1 7
              (world_of busy_worker) length_model eq_refl eq_refl)
    as (σ1 & σ2 & H1 & H2 & H3 & Hi & He).
  exists σ1, σ2. split; [exact H1|]. split; [exact H2|]. split; [exact H3|].
  split; [exact Hi|exact He].
Defined.

Lemma accepted_submissions_are_encoded_in_order_witness :
  exists σ1 answers w σ',
    start length_model_constructor (world_of (init 2 3)) = (Ok tt, σ1)
    /\ submit_all (self σ1) (requests 5) = Returned (answers, w)
    /\ _process_loop length_model_constructor 2 (with_self w σ1) = (Ok tt, σ')
    /\ answers = [true; true; true; false; false]
    /\ encoded_since 0 σ' = ["text 0"; "text 1"; "text 2"]
    /\ items (request_queue (self σ')) = [].
Proof.
  exact (accepted_submissions_are_encoded_in_order length_model_constructor 2 3
           length_model (requests 5) 2 (world_of (init 2 3)) eq_refl
           ltac:(lia) eq_refl ltac:(vm_compute; lia)).
Defined.

End EmbedMore.
